(** * Artemis v2 maintenance scripts: import, matching and session report.

    A shallow embedding of the Python scripts of [scripts/]:

    - [import-nexus-spawns.py]: fetch the community spawn feed, upsert it into
      the [nexus_spawns] table, then list the spawns nearest to the hunting
      area;
    - [test-foul-parsing.py]: the closest-Foul-spawns query and the
      listing of the Foul mob names;
    - [check-mob-names.py] and [check-foul-hp.py]: the listings of names
      and of HP values;
    - [analyze-hp-matches.py]: the HP band query over the [mobs] table;
    - [read-session.py]: the report on the most recent session.

    Python values decoded from JSON are the inductive [json]; a computation
    that may raise is a value of [py]; an SQLite cell is an [sqlval]; a table
    is the list of its rows in scan order.  What the model takes for granted:

    - a Python float or an SQLite REAL is the rational it stands for
      ([Q]); the rounding of the two products [hp * 0.8] and [hp * 1.2]
      and of an integer stored in a REAL column is computed, the
      arithmetic of the distance (differences, squares, SQRT) is exact,
      and infinities and NaN are left out;
    - text is a [string] of bytes, the UTF-8 encoding of a [str];
    - the terminal takes UTF-8, and the message of the import's handler
      reaches it: a record whose [Id] is text that cannot be encoded makes
      that [print] raise, and is left out of the loop ([printable_id]);
    - the library calls whose result is not computed here (fetching, UTF-8
      and JSON decoding, [json.dumps], SQLite's conversions between text and
      numbers, its choice of a rowid when the largest one is taken) are the
      fields of a [runtime] record, over which every statement is proved;
    - the [sqlite3] module opens a transaction before the first INSERT and
      not before CREATE TABLE, and SQLite has its math functions;
    - of what the scripts print, only the session report is modelled. *)

From Stdlib Require Import ZArith QArith Qround Qabs List String Ascii Bool Lia Lqa.
From Stdlib Require Import Sorting.Sorted Sorting.Permutation.
From Stdlib Require Reals Qreals Lra.
Import ListNotations.

Set Warnings "-register-all".
Local Open Scope string_scope.
Local Open Scope list_scope.
Local Open Scope Z_scope.

(** ** Python: exceptions and JSON values *)

Module Py.

(** The exception classes the scripts can meet.  All of them derive from
    [Exception], so an [except Exception] clause catches every one. *)
Inductive exn : Type :=
| AttributeError      (* [x.get] on a value that is not a dict *)
| TypeError           (* [len] of a scalar, a format code on [None], ... *)
| ValueError          (* a format code on a [str] *)
| JSONDecodeError     (* [json.loads] on malformed text *)
| OverflowError       (* an [int] that does not fit SQLite's 64 bits *)
| InterfaceError      (* a parameter of a type [sqlite3] cannot bind *)
| IntegrityError      (* NOT NULL violated, or a datatype mismatch on the key *)
| OperationalError    (* the engine refuses the statement (database full) *)
| ProgrammingError    (* a statement on a closed connection *)
| URLError            (* [urlopen] cannot reach the provider *)
| UnicodeDecodeError  (* the response body is not UTF-8 *)
| UnicodeEncodeError. (* text that UTF-8 cannot encode: a lone surrogate *)

Inductive py (A : Type) : Type :=
| Ok (a : A)
| Raise (e : exn).
Arguments Ok {A} a.
Arguments Raise {A} e.

Definition bind {A B : Type} (c : py A) (k : A -> py B) : py B :=
  match c with
  | Ok a => k a
  | Raise e => Raise e
  end.

End Py.

Import Py.

Notation "x <- c ;; k" := (Py.bind c (fun x => k))
  (at level 61, c at next level, right associativity).

Module Json.

(** What [json.loads] returns: [None], [bool], [int], [float], [str], [list]
    and [dict].  A dict is the list of its items in insertion order, each key
    once. *)
Inductive json : Type :=
| JNull
| JBool (b : bool)
| JInt (n : Z)
| JFloat (q : Q)
| JStr (s : string)
| JArr (items : list json)
| JObj (fields : list (string * json)).

Fixpoint lookup (k : string) (fields : list (string * json)) : option json :=
  match fields with
  | [] => None
  | (k', v) :: rest => if String.eqb k k' then Some v else lookup k rest
  end.

(** [d.get(key, default)]: only a dict has the method. *)
Definition get (d : json) (key : string) (default : json) : py json :=
  match d with
  | JObj fields =>
      Ok (match lookup key fields with Some v => v | None => default end)
  | _ => Raise AttributeError
  end.

(** Python truth value, as the conditional expression [1 if x else 0] reads it. *)
Definition truthy (v : json) : bool :=
  match v with
  | JNull => false
  | JBool b => b
  | JInt n => negb (n =? 0)
  | JFloat q => negb (Qeq_bool q 0)
  | JStr s => negb (String.eqb s "")
  | JArr items => match items with [] => false | _ => true end
  | JObj fields => match fields with [] => false | _ => true end
  end.

Definition is_dict (v : json) : bool :=
  match v with JObj _ => true | _ => false end.

End Json.

Import Json.

(** ** SQLite: cells, coercions, ordering *)

Module Sqlite.

(** A cell.  The scripts never produce a BLOB. *)
Inductive sqlval : Type :=
| SNull
| SInt (n : Z)
| SReal (q : Q)
| SText (s : string).

Definition min_int64 : Z := - 2 ^ 63.
Definition max_int64 : Z := 2 ^ 63 - 1.

(** Text.  A Python [str] is modelled by the bytes of its UTF-8 encoding.
    A lone surrogate, which [json.loads] makes of an escape such as
    [\ud800] and which UTF-8 cannot encode, is written as the three bytes
    its code point would take: ED, then A0..BF, then 80..BF.  The byte ED
    is followed by A0..BF in no other text, so [str.encode('utf-8')] fails
    on exactly the text in which it is. *)
Fixpoint encodable (s : string) : bool :=
  match s with
  | EmptyString => true
  | String c rest =>
      match rest with
      | EmptyString => true
      | String d _ =>
          if (Nat.eqb (nat_of_ascii c) 237
              && Nat.leb 160 (nat_of_ascii d)
              && Nat.leb (nat_of_ascii d) 191)%bool
          then false
          else encodable rest
      end
  end.

(** How the [sqlite3] module binds a Python value to a [?]: [None], [int]
    ([bool] is an [int]), [float] and [str] are adapted, an [int] outside 64
    bits overflows, a [str] that cannot be encoded raises, a [list] or a
    [dict] is refused.  (The floats NaN and Infinity, which [json.loads]
    accepts and the model leaves out, have no [JFloat]: the module binds a
    NaN as NULL.) *)
Definition adapt (v : json) : py sqlval :=
  match v with
  | JNull => Ok SNull
  | JBool b => Ok (SInt (if b then 1 else 0))
  | JInt n =>
      if (min_int64 <=? n) && (n <=? max_int64) then Ok (SInt n)
      else Raise OverflowError
  | JFloat q => Ok (SReal q)
  | JStr s => if encodable s then Ok (SText s) else Raise UnicodeEncodeError
  | JArr _ | JObj _ => Raise InterfaceError
  end.

(** Binary64, the format of a Python [float] and of an SQLite REAL.  A
    finite float is the rational it stands for.  The exponent range is
    left out: no overflow and no subnormal number, which the values of the
    scripts are far from. *)

(** [a / b] rounded to the nearest integer, a tie to the even one, for
    [0 < b]. *)
Definition div_half_even (a b : Z) : Z :=
  let f := a / b in
  match 2 * (a mod b) ?= b with
  | Lt => f
  | Gt => f + 1
  | Eq => if Z.even f then f else f + 1
  end.

(** The largest [l] with [2 ^ l <= a / d], for [0 < a] and [0 < d]. *)
Definition floor_log2 (a d : Z) : Z :=
  let k := Z.log2 a - Z.log2 d in
  if d * 2 ^ Z.max 0 k <=? a * 2 ^ Z.max 0 (- k) then k else k - 1.

(** The binary64 number nearest to [q], a tie to the one with an even
    significand: [q] is scaled by a power of two to a number between
    [2 ^ 52] and [2 ^ 53], rounded to an integer and scaled back. *)
Definition to_binary64 (q : Q) : Q :=
  let n := Qnum q in
  let d := Zpos (Qden q) in
  if n =? 0 then 0%Q
  else
    let a := Z.abs n in
    let e := floor_log2 a d - 52 in
    let m := div_half_even (a * 2 ^ Z.max 0 (- e)) (d * 2 ^ Z.max 0 e) in
    if 0 <=? e then inject_Z (Z.sgn n * m * 2 ^ e)
    else Qmake (Z.sgn n * m) (Z.to_pos (2 ^ (- e))).

(** An integer as a float: itself up to [2 ^ 53] in absolute value, the
    nearest float beyond. *)
Definition int_to_real (n : Z) : Q :=
  if Z.abs n <=? 2 ^ 53 then inject_Z n else to_binary64 (inject_Z n).

(** The product of two floats. *)
Definition float_mul (a b : Q) : Q := to_binary64 (a * b)%Q.

(** The float literals [0.8] and [1.2]. *)
Definition float_0_8 : Q := 3602879701896397 # 4503599627370496.
Definition float_1_2 : Q := 5404319552844595 # 4503599627370496.

Definition is_null (v : sqlval) : bool :=
  match v with SNull => true | _ => false end.

(** [cell = 'text']: a NULL or numeric cell never equals a text literal. *)
Definition eq_text (v : sqlval) (t : string) : bool :=
  match v with SText s => String.eqb s t | _ => false end.

(** [ROUND(SQRT(x))] for [x >= 0], over exact arithmetic: the integer nearest
    to the square root, halves away from zero, that is [floor (sqrt x + 1/2)].
    Computed on integers: [floor (sqrt x + 1/2) = (floor (sqrt (4x)) + 1) / 2]
    and [floor (sqrt (4x)) = Z.sqrt (floor (4x))]. *)
Definition round_sqrt (x : Q) : Z :=
  (Z.sqrt (Qfloor (4 * x)%Q) + 1) / 2.

(** The same value read off the real square root; this one does not
    compute and only states what [round_sqrt] stands for. *)
Section OverReals.
Import Reals Qreals.
End OverReals.

(** [ORDER BY key]: a stable sort.  SQLite leaves the order of rows with
    equal keys open; here, as in the design notes of the application, they
    stay in scan order. *)
Section OrderBy.
Context {A K : Type} (key : A -> K) (leb : K -> K -> bool).

Fixpoint insert_sorted (x : A) (l : list A) : list A :=
  match l with
  | [] => [x]
  | y :: rest =>
      if leb (key x) (key y) then x :: y :: rest
      else y :: insert_sorted x rest
  end.

Definition order_by (l : list A) : list A :=
  fold_right insert_sorted [] l.
End OrderBy.

(** NULLs sort first in ascending order. *)
Definition null_first_leb (a b : option Z) : bool :=
  match a, b with
  | None, _ => true
  | Some _, None => false
  | Some x, Some y => x <=? y
  end.

Definition ascii_lower (c : ascii) : ascii :=
  let n := nat_of_ascii c in
  if (Nat.leb 65 n && Nat.leb n 90)%bool then ascii_of_nat (n + 32) else c.

Fixpoint prefix_nocase (p s : string) : bool :=
  match p, s with
  | EmptyString, _ => true
  | String _ _, EmptyString => false
  | String a p', String b s' =>
      Ascii.eqb (ascii_lower a) (ascii_lower b) && prefix_nocase p' s'
  end.

(** The needle occurs in the text, ASCII letters compared without case. *)
Fixpoint occurs_nocase (needle s : string) : bool :=
  prefix_nocase needle s ||
  match s with
  | EmptyString => false
  | String _ s' => occurs_nocase needle s'
  end.

(** The text up to its first NUL byte: what SQLite's LIKE reads of it. *)
Fixpoint until_nul (s : string) : string :=
  match s with
  | EmptyString => EmptyString
  | String c s' =>
      if Nat.eqb (nat_of_ascii c) 0 then EmptyString
      else String c (until_nul s')
  end.

(** [cell LIKE '%needle%'], for a needle of letters: the needle occurs in
    the text, before the first NUL byte if the text has one. *)
Definition contains_nocase (needle s : string) : bool :=
  occurs_nocase needle (until_nul s).

(** The order of cells of different classes: NULL, then numbers by value,
    then text by bytes. *)
Definition compare (a b : sqlval) : comparison :=
  match a, b with
  | SNull, SNull => Eq
  | SNull, _ => Lt
  | _, SNull => Gt
  | SInt x, SInt y => x ?= y
  | SInt x, SReal q => (inject_Z x ?= q)%Q
  | SReal q, SInt y => (q ?= inject_Z y)%Q
  | SReal q, SReal q' => (q ?= q')%Q
  | (SInt _ | SReal _), SText _ => Lt
  | SText _, (SInt _ | SReal _) => Gt
  | SText s, SText t => String.compare s t
  end.

Definition leb (a b : sqlval) : bool :=
  match compare a b with Gt => false | _ => true end.

(** [a = b] in a WHERE clause: never true on a NULL. *)
Definition equal (a b : sqlval) : bool :=
  negb (is_null a) && negb (is_null b) &&
  match compare a b with Eq => true | _ => false end.

(** A cell as the Python value a fetch returns. *)
Definition to_python (v : sqlval) : json :=
  match v with
  | SNull => JNull
  | SInt n => JInt n
  | SReal q => JFloat q
  | SText s => JStr s
  end.

(** [SELECT DISTINCT x ... ORDER BY x]: the values in increasing order, one
    for each class of equal values. *)
Section Distinct.
Context {A : Type} (cmp : A -> A -> comparison).

Fixpoint add_distinct (x : A) (l : list A) : list A :=
  match l with
  | [] => [x]
  | y :: rest =>
      match cmp x y with
      | Lt => x :: y :: rest
      | Eq => y :: rest
      | Gt => y :: add_distinct x rest
      end
  end.

Definition distinct_sorted (l : list A) : list A :=
  fold_right add_distinct [] l.
End Distinct.

(** The laws of a three-way comparison that ranks every pair of values:
    swapping the arguments swaps the answer, and "not after" is
    transitive. *)
Record total_preorder {A : Type} (cmp : A -> A -> comparison) : Prop := {
  cmp_antisym : forall a b, cmp b a = CompOpp (cmp a b);
  cmp_le_trans :
    forall a b c, cmp a b <> Gt -> cmp b c <> Gt -> cmp a c <> Gt
}.

End Sqlite.

Import Sqlite.

(** ** import-nexus-spawns.py *)

Module ImportNexusSpawns.

(** A row of [nexus_spawns], columns as in the CREATE TABLE statement.  [id] is
    the INTEGER PRIMARY KEY, that is the rowid; [created_at] is never bound by
    the script and always takes its DEFAULT, the epoch second of the insert. *)
Record row : Type := {
  id : Z;
  name : sqlval;
  planet : sqlval;
  type : sqlval;
  shape : sqlval;
  center_lon : sqlval;
  center_lat : sqlval;
  density : sqlval;
  is_shared : sqlval;
  is_event : sqlval;
  notes : sqlval;
  data_json : sqlval;
  created_at : Z
}.

(** The table is kept in rowid order, the order of a scan of its b-tree. *)
Definition table : Type := list row.

(** The database file: the table, once it exists. *)
Definition database : Type := option table.

(** The twelve values of the parameter tuple of the INSERT. *)
Record params : Type := {
  p_id : json;
  p_name : json;
  p_planet : json;
  p_type : json;
  p_shape : json;
  p_lon : json;
  p_lat : json;
  p_density : json;
  p_is_shared : json;
  p_is_event : json;
  p_notes : json;
  p_data_json : json
}.

(** Loop state: the uncommitted table and the two counters. *)
Record progress : Type := {
  rows : table;
  inserted : Z;
  skipped : Z
}.

Inductive response : Type :=
| Unreachable
| Body (raw : string).

(** How a run of the script ends, with the database it leaves on disk. *)
Inductive outcome : Type :=
| Exit1 (db : database)
| Traceback (e : exn) (db : database)
| Finished (db : database) (n_inserted n_skipped : Z)
           (nearby_spawns : list (row * option Z)).

(** [INSERT OR REPLACE] on the key: the row with the same [id], if any, is
    deleted and the new row takes its place in rowid order. *)
Fixpoint upsert (r : row) (tbl : table) : table :=
  match tbl with
  | [] => [r]
  | x :: rest =>
      match id r ?= id x with
      | Lt => r :: x :: rest
      | Eq => r :: rest
      | Gt => x :: upsert r rest
      end
  end.

Fixpoint largest_id (tbl : table) : option Z :=
  match tbl with
  | [] => None
  | r :: rest =>
      match largest_id rest with
      | None => Some (id r)
      | Some m => Some (Z.max (id r) m)
      end
  end.

Fixpoint find_row (k : Z) (tbl : table) : option row :=
  match tbl with
  | [] => None
  | r :: rest => if id r =? k then Some r else find_row k rest
  end.

(** [for spawn in spawns], after [len(spawns)] inside the [try]: a list
    yields its items, a dict its keys, a string its characters; [len] of any
    other value raises. *)
Definition iterate (doc : json) : py (list json) :=
  match doc with
  | JArr items => Ok items
  | JObj fields => Ok (map (fun kv => JStr (fst kv)) fields)
  | JStr s =>
      Ok (map (fun c => JStr (String c EmptyString)) (list_ascii_of_string s))
  | JNull | JBool _ | JInt _ | JFloat _ => Raise TypeError
  end.

(** Library and engine functions the script calls, left abstract. *)
Record runtime : Type := {
  decode_utf8 : string -> option string;  (* [bytes.decode('utf-8')] *)
  loads : string -> option json;          (* [json.loads] *)
  dumps : json -> string;                 (* [json.dumps] *)
  (* [json.dumps] escapes every character outside ASCII *)
  dumps_encodable : forall v, encodable (dumps v) = true;
  (* SQLite's conversions between TEXT and numbers *)
  text_to_rowid : string -> option Z;     (* text usable as an integer key *)
  text_to_real : string -> option Q;      (* well-formed numeric text *)
  text_value : string -> Q;               (* text under an arithmetic operator *)
  int_to_text : Z -> string;
  real_to_text : Q -> string;
  (* the rowid SQLite draws when the largest one in use is [max_int64];
     [None] when it gives up (SQLITE_FULL) *)
  random_rowid : list Z -> option Z
}.

Section Runtime.

Variable rt : runtime.

(** Lines 20-27: any exception of the block leads to [exit(1)]. *)
Definition fetch (r : response) : py (list json) :=
  match r with
  | Unreachable => Raise URLError
  | Body raw =>
      match decode_utf8 rt raw with
      | None => Raise UnicodeDecodeError
      | Some data =>
          match loads rt data with
          | None => Raise JSONDecodeError
          | Some spawns => iterate spawns
          end
      end
  end.

(** Column affinities. *)
Definition text_affinity (v : sqlval) : sqlval :=
  match v with
  | SNull => SNull
  | SInt n => SText (int_to_text rt n)
  | SReal q => SText (real_to_text rt q)
  | SText s => SText s
  end.

(** REAL: an integer is stored as the nearest float. *)
Definition real_affinity (v : sqlval) : sqlval :=
  match v with
  | SNull => SNull
  | SInt n => SReal (int_to_real n)
  | SReal q => SReal q
  | SText s =>
      match text_to_real rt s with
      | Some q => SReal q
      | None => SText s
      end
  end.

(** A NULL key: one more than the largest rowid in use, 1 in an empty
    table. *)
Definition new_rowid (tbl : table) : py Z :=
  match largest_id tbl with
  | None => Ok 1
  | Some m =>
      if m <? max_int64 then Ok (m + 1)
      else match random_rowid rt (map id tbl) with
           | Some k => Ok k
           | None => Raise OperationalError
           end
  end.

(** The key of the new row: a value that is not an integer, and cannot be
    made one without loss, is a datatype mismatch. *)
Definition rowid_of (tbl : table) (v : sqlval) : py Z :=
  match v with
  | SNull => new_rowid tbl
  | SInt n => Ok n
  | SReal q =>
      let n := Qfloor q in
      if Qeq_bool q (inject_Z n) && (min_int64 <=? n) && (n <=? max_int64)
      then Ok n else Raise IntegrityError
  | SText s =>
      match text_to_rowid rt s with
      | Some n => Ok n
      | None => Raise IntegrityError
      end
  end.

(** A NOT NULL column without default: REPLACE falls back to ABORT. *)
Definition not_null (v : sqlval) : py sqlval :=
  if is_null v then Raise IntegrityError else Ok v.

(** Lines 60-63 and 71-82: the parameter tuple. *)
Definition extract (spawn : json) : py params :=
  props <- get spawn "Properties" (JObj []) ;;
  planet_data <- get spawn "Planet" (JObj []) ;;
  planet <- get planet_data "Name" (JStr "Unknown") ;;
  coords <- get props "Coordinates" (JObj []) ;;
  v_id <- get spawn "Id" JNull ;;
  v_name <- get spawn "Name" (JStr "Unknown Spawn") ;;
  v_type <- get props "Type" JNull ;;
  v_shape <- get props "Shape" JNull ;;
  v_lon <- get coords "Longitude" JNull ;;
  v_lat <- get coords "Latitude" JNull ;;
  v_density <- get props "Density" JNull ;;
  v_shared <- get props "IsShared" JNull ;;
  v_event <- get props "IsEvent" JNull ;;
  v_notes <- get props "Notes" JNull ;;
  Ok {| p_id := v_id;
        p_name := v_name;
        p_planet := planet;
        p_type := v_type;
        p_shape := v_shape;
        p_lon := v_lon;
        p_lat := v_lat;
        p_density := v_density;
        p_is_shared := JInt (if truthy v_shared then 1 else 0);
        p_is_event := JInt (if truthy v_event then 1 else 0);
        p_notes := v_notes;
        p_data_json := JStr (dumps rt spawn) |}.

(** Lines 65-83, first half: bind the tuple and build the row to store, or
    raise. *)
Definition new_row (now : Z) (tbl : table) (p : params) : py row :=
  b_id <- adapt (p_id p) ;;
  b_name <- adapt (p_name p) ;;
  b_planet <- adapt (p_planet p) ;;
  b_type <- adapt (p_type p) ;;
  b_shape <- adapt (p_shape p) ;;
  b_lon <- adapt (p_lon p) ;;
  b_lat <- adapt (p_lat p) ;;
  b_density <- adapt (p_density p) ;;
  b_shared <- adapt (p_is_shared p) ;;
  b_event <- adapt (p_is_event p) ;;
  b_notes <- adapt (p_notes p) ;;
  b_json <- adapt (p_data_json p) ;;
  k <- rowid_of tbl b_id ;;
  c_name <- not_null (text_affinity b_name) ;;
  c_planet <- not_null (text_affinity b_planet) ;;
  Ok {| id := k;
        name := c_name;
        planet := c_planet;
        type := text_affinity b_type;
        shape := text_affinity b_shape;
        center_lon := real_affinity b_lon;
        center_lat := real_affinity b_lat;
        density := text_affinity b_density;
        is_shared := b_shared;
        is_event := b_event;
        notes := text_affinity b_notes;
        data_json := text_affinity b_json;
        created_at := now |}.

(** Lines 65-83: INSERT OR REPLACE.  A statement that raises leaves the
    table as it was. *)
Definition execute_insert (now : Z) (tbl : table) (p : params) : py table :=
  r <- new_row now tbl p ;;
  Ok (upsert r tbl).

(** Lines 59-91, the body of the loop.  The handler's message evaluates
    [spawn.get("Id")] again, outside any [try].  Its [print] is taken to
    succeed, which it does for every [Id] but text that cannot be encoded
    (see [printable_id]). *)
Definition insert_spawn (now : Z) (st : progress) (spawn : json)
  : py progress :=
  match (p <- extract spawn ;; execute_insert now (rows st) p) with
  | Ok tbl =>
      Ok {| rows := tbl;
            inserted := inserted st + 1;
            skipped := skipped st |}
  | Raise _ =>
      _ <- get spawn "Id" JNull ;;
      Ok {| rows := rows st;
            inserted := inserted st;
            skipped := skipped st + 1 |}
  end.

(** Lines 58-91.  [clock i] is the epoch second at which the [i]-th element
    is processed. *)
Fixpoint import_loop (clock : nat -> Z) (i : nat) (st : progress)
                     (spawns : list json) : py progress :=
  match spawns with
  | [] => Ok st
  | spawn :: rest =>
      st' <- insert_spawn (clock i) st spawn ;;
      import_loop clock (S i) st' rest
  end.

(** The Synchronizer: the loop from zeroed counters over a table. *)
Definition sync (clock : nat -> Z) (tbl : table) (spawns : list json)
  : py progress :=
  import_loop clock 0%nat {| rows := tbl; inserted := 0; skipped := 0 |} spawns.

(** The value of a cell under an arithmetic operator; NULL stays NULL. *)
Definition num_value (v : sqlval) : option Q :=
  match v with
  | SNull => None
  | SInt n => Some (inject_Z n)
  | SReal q => Some q
  | SText s => Some (text_value rt s)
  end.

(** The sum of squares under the SQRT. *)
Definition squared_distance (ox oy : Q) (r : row) : option Q :=
  match num_value (center_lon r), num_value (center_lat r) with
  | Some x, Some y => Some ((x - ox) * (x - ox) + (y - oy) * (y - oy))%Q
  | _, _ => None
  end.

(** The result column [distance]: ROUND(SQRT(...)). *)
Definition distance (ox oy : Q) (r : row) : option Z :=
  option_map round_sqrt (squared_distance ox oy r).

(** SELECT ..., ROUND(SQRT(...)) AS distance FROM nexus_spawns WHERE ...
    ORDER BY distance LIMIT n. *)
Definition select_by_distance (where_ : row -> bool) (ox oy : Q) (n : nat)
                              (tbl : table) : list (row * option Z) :=
  firstn n
    (order_by snd null_first_leb
       (map (fun r => (r, distance ox oy r)) (filter where_ tbl))).

(** Lines 120-133, with the planet, the origin and the limit as
    parameters. *)
Definition nearest (p : string) (ox oy : Q) (n : nat) (tbl : table)
  : list (row * option Z) :=
  select_by_distance
    (fun r => eq_text (planet r) p
              && negb (is_null (center_lon r))
              && negb (is_null (center_lat r)))
    ox oy n tbl.

Definition nearby_spawns (tbl : table) : list (row * option Z) :=
  nearest "Calypso" (inject_Z 79085) (inject_Z 67537) 10 tbl.

(** [name LIKE '%Foul%']. *)
Definition like_contains (v : sqlval) (needle : string) : bool :=
  match text_affinity v with
  | SText s => contains_nocase needle s
  | _ => false
  end.

(** test-foul-parsing.py, lines 14-25. *)
Definition closest_foul_spawns (tbl : table) : list (row * option Z) :=
  select_by_distance
    (fun r => eq_text (planet r) "Calypso" && like_contains (name r) "Foul")
    (inject_Z 79085) (inject_Z 67537) 5 tbl.

(** The whole script.  The table is created before the loop, outside any
    transaction; the inserts are committed only by [conn.commit()] after
    the loop, so an exception that leaves the loop loses them. *)
Definition main (clock : nat -> Z) (r : response) (db : database)
  : outcome :=
  match fetch r with
  | Raise _ => Exit1 db
  | Ok spawns =>
      let tbl := match db with Some t => t | None => [] end in
      match sync clock tbl spawns with
      | Raise e => Traceback e (Some tbl)
      | Ok st =>
          Finished (Some (rows st)) (inserted st) (skipped st)
                   (nearby_spawns (rows st))
      end
  end.

End Runtime.

(** The rowid a NULL key receives while the largest rowid is below
    [max_int64]. *)
Definition next_rowid (tbl : table) : Z :=
  match largest_id tbl with
  | None => 1
  | Some m => m + 1
  end.

(** The table has one row per [id], in increasing order. *)
Definition keyed (tbl : table) : Prop :=
  StronglySorted Z.lt (map id tbl).

(** A row without its creation time. *)
Definition forget_created (r : row) : row :=
  {| id := id r;
     name := name r;
     planet := planet r;
     type := type r;
     shape := shape r;
     center_lon := center_lon r;
     center_lat := center_lat r;
     density := density r;
     is_shared := is_shared r;
     is_event := is_event r;
     notes := notes r;
     data_json := data_json r;
     created_at := 0 |}.

(** The element is a dict that carries an [Id] other than [null]. *)
Definition has_id (spawn : json) : bool :=
  match spawn with
  | JObj fields =>
      match lookup "Id" fields with
      | None | Some JNull => false
      | Some _ => true
      end
  | _ => false
  end.

(** The element is a dict that carries an integer [Id]. *)
Definition has_int_id (spawn : json) : bool :=
  match spawn with
  | JObj fields =>
      match lookup "Id" fields with
      | Some (JInt _) => true
      | _ => false
      end
  | _ => false
  end.

(** The element is a dict whose [Id] the handler of the loop can print.
    [print] writes a [str] as it is and raises on text that cannot be
    encoded; any other value is written by its [repr], which is ASCII for
    [None], a boolean or a number and escapes a lone surrogate inside a
    list or a dict.  (An [int] that [json.loads] could read, [print] can
    write: the two conversions have the same limit on the number of
    digits.) *)
Definition printable_id (spawn : json) : bool :=
  match spawn with
  | JObj fields =>
      match lookup "Id" fields with
      | Some (JStr s) => encodable s
      | _ => true
      end
  | _ => false
  end.

(** The same runtime, but for the rowids SQLite draws at random, which
    differ from run to run. *)
Definition with_random_rowid (rt : runtime) (draw : list Z -> option Z)
  : runtime :=
  {| decode_utf8 := decode_utf8 rt;
     loads := loads rt;
     dumps := dumps rt;
     dumps_encodable := dumps_encodable rt;
     text_to_rowid := text_to_rowid rt;
     text_to_real := text_to_real rt;
     text_value := text_value rt;
     int_to_text := int_to_text rt;
     real_to_text := real_to_text rt;
     random_rowid := draw |}.

(** The row with another creation time. *)
Definition stamp (now : Z) (r : row) : row :=
  {| id := id r;
     name := name r;
     planet := planet r;
     type := type r;
     shape := shape r;
     center_lon := center_lon r;
     center_lat := center_lat r;
     density := density r;
     is_shared := is_shared r;
     is_event := is_event r;
     notes := notes r;
     data_json := data_json r;
     created_at := now |}.

(** What the [try] block of the loop computes for one element: the row to
    store, or the exception. *)
Definition attempt (rt : runtime) (now : Z) (tbl : table) (spawn : json)
  : py row :=
  p <- extract rt spawn ;; new_row rt now tbl p.

(** The rows a run stores, in order, when every element carries its own
    [Id]: such a row does not depend on the table. *)
Fixpoint planned (rt : runtime) (clock : nat -> Z) (i : nat)
                 (spawns : list json) : list row :=
  match spawns with
  | [] => []
  | spawn :: rest =>
      match attempt rt (clock i) [] spawn with
      | Ok r => r :: planned rt clock (S i) rest
      | Raise _ => planned rt clock (S i) rest
      end
  end.

Definition upsert_all (rs : list row) (tbl : table) : table :=
  fold_left (fun t r => upsert r t) rs tbl.



(** A runtime to evaluate closed examples with: the body decodes to [doc]
    (or fails to), no text is a number, no rowid is left once [max_int64] is
    taken.  The examples bind no text to a numeric column and never fill the
    table. *)
Definition sample_runtime (doc : option json) : runtime :=
  {| decode_utf8 := fun raw => Some raw;
     loads := fun _ => doc;
     dumps := fun _ => "{...}";
     dumps_encodable := fun _ => eq_refl;
     text_to_rowid := fun _ => None;
     text_to_real := fun _ => None;
     text_value := fun _ => 0%Q;
     int_to_text := fun _ => "";
     real_to_text := fun _ => "";
     random_rowid := fun _ => None |}.

(** A feed element as the provider documents it. *)
Definition sample_spawn (k : Z) (spawn_name : string) (lon lat : Z) : json :=
  JObj [("Id", JInt k);
        ("Name", JStr spawn_name);
        ("Planet", JObj [("Name", JStr "Calypso")]);
        ("Properties",
         JObj [("Coordinates",
                JObj [("Longitude", JInt lon); ("Latitude", JInt lat)])])].

(** The row [sample_spawn k a lon lat] becomes under [sample_runtime]. *)
Definition sample_row (k : Z) (spawn_name : string) (lon lat created : Z) : row :=
  {| id := k;
     name := SText spawn_name;
     planet := SText "Calypso";
     type := SNull;
     shape := SNull;
     center_lon := SReal (inject_Z lon);
     center_lat := SReal (inject_Z lat);
     density := SNull;
     is_shared := SInt 0;
     is_event := SInt 0;
     notes := SNull;
     data_json := SText "{...}";
     created_at := created |}.

(** The parameter tuple of [sample_spawn]. *)
Definition sample_params (k : Z) (spawn_name : string) (lon lat : Z) : params :=
  {| p_id := JInt k;
     p_name := JStr spawn_name;
     p_planet := JStr "Calypso";
     p_type := JNull;
     p_shape := JNull;
     p_lon := JInt lon;
     p_lat := JInt lat;
     p_density := JNull;
     p_is_shared := JInt 0;
     p_is_event := JInt 0;
     p_notes := JNull;
     p_data_json := JStr "{...}" |}.

(** The same element without its [Id]. *)
Definition sample_spawn_without_id (spawn_name : string) (lon lat : Z) : json :=
  JObj [("Name", JStr spawn_name);
        ("Planet", JObj [("Name", JStr "Calypso")]);
        ("Properties",
         JObj [("Coordinates",
                JObj [("Longitude", JInt lon); ("Latitude", JInt lat)])])].

(** Lines 101-109: SELECT id, name, planet, center_lon, center_lat, density,
    notes FROM nexus_spawns WHERE planet = 'Calypso' AND name LIKE '%Foul%'
    ORDER BY name.  Each row stands for its seven selected columns. *)
Definition foul_spawns (rt : runtime) (tbl : table) : list row :=
  order_by name Sqlite.leb
    (filter (fun r => eq_text (planet r) "Calypso"
                      && like_contains rt (name r) "Foul") tbl).

(** What the column affinities and the NOT NULL constraints of the CREATE
    TABLE statement make of a stored row. *)
Definition is_text (v : sqlval) : bool :=
  match v with SText _ => true | _ => false end.

Definition text_or_null (v : sqlval) : bool :=
  match v with SText _ | SNull => true | _ => false end.

Definition is_flag (v : sqlval) : bool :=
  match v with
  | SInt n => (n =? 0) || (n =? 1)
  | _ => false
  end.

Definition not_integer (v : sqlval) : bool :=
  match v with SInt _ => false | _ => true end.

Definition well_formed (r : row) : bool :=
  is_text (name r) && is_text (planet r)
  && text_or_null (type r) && text_or_null (shape r)
  && not_integer (center_lon r) && not_integer (center_lat r)
  && text_or_null (density r)
  && is_flag (is_shared r) && is_flag (is_event r)
  && text_or_null (notes r) && is_text (data_json r).

(** A feed element with its identity, its planet and its centre, and any
    other properties. *)
Definition spawn_element (k : Z) (spawn_name p : string) (lon lat : Z)
                         (others : list (string * json)) : json :=
  JObj [("Id", JInt k);
        ("Name", JStr spawn_name);
        ("Planet", JObj [("Name", JStr p)]);
        ("Properties",
         JObj (("Coordinates",
                JObj [("Longitude", JInt lon); ("Latitude", JInt lat)])
               :: others))].

End ImportNexusSpawns.

(** ** analyze-hp-matches.py *)

Module AnalyzeHpMatches.

(** Modelled from the spec: the [mobs] table is created elsewhere; its rows
    carry a name, a positive HP, a maturity stage and a planet. *)
Record mob : Type := {
  name : string;
  hp : Q;
  maturity : string;
  planet : string
}.

Definition test_hp_values : list Z :=
  [58; 228; 135; 75; 161; 162; 200; 107; 155; 137; 453; 46; 121; 198; 56;
   129; 122; 142].

(** [sorted(set(values))]: increasing, without repetition. *)
Fixpoint add_sorted (x : Z) (l : list Z) : list Z :=
  match l with
  | [] => [x]
  | y :: rest =>
      match x ?= y with
      | Lt => x :: y :: rest
      | Eq => y :: rest
      | Gt => y :: add_sorted x rest
      end
  end.

Definition sorted_set (l : list Z) : list Z :=
  fold_right add_sorted [] l.

(** [hp BETWEEN ? AND ?]. *)
Definition between (lo hi x : Q) : bool :=
  Qle_bool lo x && Qle_bool x hi.

(** [ABS(hp - ?)]. *)
Definition delta (observed : Q) (m : mob) : Q :=
  Qabs (hp m - observed).

(** The rows the WHERE clause keeps. *)
Definition candidates (p : string) (mobs : list mob) (min_hp max_hp : Q)
  : list mob :=
  filter (fun m => between min_hp max_hp (hp m) && String.eqb (planet m) p)
         mobs.

(** Lines 23-30: SELECT name, hp, maturity, planet FROM mobs
    WHERE hp BETWEEN ? AND ? AND planet = 'Calypso'
    ORDER BY ABS(hp - ?) ASC LIMIT 5, the three [?] being
    [(min_hp, max_hp, hp)]; the planet and the limit are parameters here. *)
Definition select_matches (p : string) (limit : nat) (mobs : list mob)
                          (min_hp max_hp observed : Q) : list mob :=
  firstn limit
    (order_by (delta observed) Qle_bool (candidates p mobs min_hp max_hp)).

(** Lines 20-21: [hp * 0.8] and [hp * 1.2], the integer made a float and
    multiplied in binary64. *)
Definition band_min (hp : Z) : Q := float_mul (int_to_real hp) float_0_8.
Definition band_max (hp : Z) : Q := float_mul (int_to_real hp) float_1_2.

(** Lines 20-32, for one observed value.  The difference [hp - ?] is
    exact in binary64 for a row in the band, the HP of the row and the
    observed value being within a factor 2 of each other. *)
Definition matches (mobs : list mob) (hp : Z) : list mob :=
  select_matches "Calypso" 5 mobs (band_min hp) (band_max hp) (inject_Z hp).

(** The loop of lines 16-39: each distinct value with its matches. *)
Definition analyze (mobs : list mob) : list (Z * list mob) :=
  map (fun hp => (hp, matches mobs hp)) (sorted_set test_hp_values).

(** A small catalog: three maturities of one mob on Calypso, with HP at the
    lower edge, at the centre and at the upper edge of the band around 100,
    one mob outside the band and one on another planet. *)
Definition sample_mobs : list mob :=
  [{| name := "Foul"; hp := 120; maturity := "Old"; planet := "Calypso" |};
   {| name := "Foul"; hp := 80; maturity := "Young"; planet := "Calypso" |};
   {| name := "Foul"; hp := 100; maturity := "Mature"; planet := "Calypso" |};
   {| name := "Atrox"; hp := 200; maturity := "Young"; planet := "Calypso" |};
   {| name := "Kerberos"; hp := 100; maturity := "Young"; planet := "Arkadia" |}].

(** A mob whose HP is the decimal 46.4, that is 80 % of 58. *)
Definition edge_mob : mob :=
  {| name := "Foul"; hp := 464 # 10; maturity := "Young";
     planet := "Calypso" |}.

End AnalyzeHpMatches.

(** ** test-foul-parsing.py, check-mob-names.py and check-foul-hp.py: the
    listings of mob and spawn names *)

Module MobQueries.

(** [name LIKE '%Foul%'] on a mob name. *)
Definition is_foul (mob_name : string) : bool :=
  contains_nocase "Foul" mob_name.

(** test-foul-parsing.py, lines 36-37: SELECT DISTINCT name FROM mobs WHERE
    name LIKE '%Foul%' AND planet = 'Calypso' ORDER BY name. *)
Definition mob_names (mobs : list AnalyzeHpMatches.mob) : list string :=
  distinct_sorted String.compare
    (map AnalyzeHpMatches.name
         (filter (fun m => is_foul (AnalyzeHpMatches.name m)
                           && String.eqb (AnalyzeHpMatches.planet m) "Calypso")
                 mobs)).

(** check-mob-names.py, line 12: SELECT DISTINCT name FROM mobs WHERE name
    LIKE '%Foul%' ORDER BY name LIMIT 10. *)
Definition mobs_foul_names (mobs : list AnalyzeHpMatches.mob) : list string :=
  firstn 10
    (distinct_sorted String.compare
       (map AnalyzeHpMatches.name
            (filter (fun m => is_foul (AnalyzeHpMatches.name m)) mobs))).

(** check-mob-names.py, line 17: the same over nexus_spawns. *)
Definition spawns_foul_names (rt : ImportNexusSpawns.runtime)
                             (tbl : ImportNexusSpawns.table) : list sqlval :=
  firstn 10
    (distinct_sorted Sqlite.compare
       (map ImportNexusSpawns.name
            (filter (fun r => ImportNexusSpawns.like_contains
                                rt (ImportNexusSpawns.name r) "Foul")
                    tbl))).

(** check-mob-names.py, lines 23 and 28: SELECT name FROM ... LIMIT 5. *)
Definition mobs_sample (mobs : list AnalyzeHpMatches.mob) : list string :=
  firstn 5 (map AnalyzeHpMatches.name mobs).

Definition spawns_sample (tbl : ImportNexusSpawns.table) : list sqlval :=
  firstn 5 (map ImportNexusSpawns.name tbl).

(** check-foul-hp.py, lines 13-18: SELECT name, hp, maturity, planet FROM
    mobs WHERE name LIKE '%Foul%' AND planet = 'Calypso' ORDER BY hp. *)
Definition foul_mobs_by_hp (mobs : list AnalyzeHpMatches.mob)
  : list AnalyzeHpMatches.mob :=
  order_by AnalyzeHpMatches.hp Qle_bool
    (filter (fun m => is_foul (AnalyzeHpMatches.name m)
                      && String.eqb (AnalyzeHpMatches.planet m) "Calypso")
            mobs).

End MobQueries.

(** ** read-session.py *)

Module ReadSession.

Record session : Type := {
  id : sqlval;
  name : sqlval;
  loadout_id : sqlval;
  duration : sqlval;
  stats : sqlval;
  start_time : sqlval
}.

Record event : Type := {
  session_id : sqlval;
  type : sqlval;
  payload : sqlval
}.

Record loadout : Type := {
  l_id : sqlval;
  l_name : sqlval;
  costs : sqlval;
  use_manual_cost : sqlval;
  manual_cost_override : sqlval
}.

(** The application database, which the script only reads.  The two
    [table_info] fields are what PRAGMA table_info answers: the name and the
    declared type of each column. *)
Record database : Type := {
  sessions : list session;
  events : list event;
  loadouts : list loadout;
  sessions_table_info : list (string * string);
  events_table_info : list (string * string)
}.

(** A printed line: the text of the f-string, without its emoji and blank
    lines, and the values formatted into it, in order. *)
Inductive line : Type :=
| Line (text : string) (args : list json).

(** The connection and the terminal. *)
Record world : Type := {
  conn_open : bool;
  printed : list line
}.

Inductive result (A : Type) : Type :=
| Returned (a : A) (w : world)     (* control reaches the next statement *)
| Raised (e : exn) (w : world)     (* an uncaught exception: traceback *)
| Exited (w : world).              (* [exit()] *)
Arguments Returned {A} a w.
Arguments Raised {A} e w.
Arguments Exited {A} w.

Definition script (A : Type) : Type := world -> result A.

Definition ret {A : Type} (a : A) : script A := fun w => Returned a w.

Definition seq {A B : Type} (c : script A) (k : A -> script B) : script B :=
  fun w =>
    match c w with
    | Returned a w' => k a w'
    | Raised e w' => Raised e w'
    | Exited w' => Exited w'
    end.

Definition print (text : string) (args : list json) : script unit :=
  fun w =>
    Returned tt {| conn_open := conn_open w;
                   printed := printed w ++ [Line text args] |}.

(** [cursor.execute(...)] followed by its fetch: the rows, when the
    connection is open; on a closed connection the [sqlite3] module raises
    ProgrammingError. *)
Definition execute {A : Type} (answer : A) : script A :=
  fun w => if conn_open w then Returned answer w else Raised ProgrammingError w.

Definition close : script unit :=
  fun w => Returned tt {| conn_open := false; printed := printed w |}.

Definition exit {A : Type} : script A := fun w => Exited w.

(** A Python expression that may raise. *)
Definition eval {A : Type} (c : py A) : script A :=
  fun w =>
    match c with
    | Ok a => Returned a w
    | Raise e => Raised e w
    end.

(** [for x in l: acc = body(acc, x)]. *)
Fixpoint for_each {A S : Type} (l : list A) (body : S -> A -> script S)
                  (acc : S) : script S :=
  match l with
  | [] => ret acc
  | x :: rest => seq (body acc x) (for_each rest body)
  end.

(** [enumerate(l, start)]. *)
Fixpoint enumerate {A : Type} (start : Z) (l : list A) : list (Z * A) :=
  match l with
  | [] => []
  | x :: rest => (start, x) :: enumerate (start + 1) rest
  end.

(** A value under the format code [.2f]. *)
Definition format_2f (v : json) : py json :=
  match v with
  | JInt n => Ok (JFloat (inject_Z n))
  | JFloat q => Ok (JFloat q)
  | JBool b => Ok (JFloat (if b then 1 else 0))
  | JStr _ => Raise ValueError
  | JNull | JArr _ | JObj _ => Raise TypeError
  end.

(** [x or default]. *)
Definition or_else (x default : json) : json :=
  if truthy x then x else default.

(** GROUP BY on a column with COUNT( * ): one entry per distinct value, in
    the order of the values. *)
Fixpoint count_into (k : sqlval) (groups : list (sqlval * Z))
  : list (sqlval * Z) :=
  match groups with
  | [] => [(k, 1)]
  | (k', c) :: rest =>
      match Sqlite.compare k k' with
      | Lt => (k, 1) :: (k', c) :: rest
      | Eq => (k', c + 1) :: rest
      | Gt => (k', c) :: count_into k rest
      end
  end.

Definition group_count (keys : list sqlval) : list (sqlval * Z) :=
  fold_left (fun groups k => count_into k groups) keys [].

Definition events_of (db : database) (sid : sqlval) : list event :=
  filter (fun e => equal (session_id e) sid) (events db).

Definition events_of_type (db : database) (sid : sqlval) (t : string)
  : list event :=
  filter (fun e => equal (type e) (SText t)) (events_of db sid).

(** ORDER BY start_time DESC LIMIT n. *)
Definition recent_sessions (db : database) (n : nat) : list session :=
  firstn n (order_by start_time (fun a b => leb b a) (sessions db)).

(** Lines 45-51: SELECT type, COUNT( * ) ... GROUP BY type
    ORDER BY COUNT( * ) DESC.  With the descending ORDER BY the engine
    forms the groups in descending order of type, and groups with equal
    counts stay in that order. *)
Definition event_breakdown (db : database) (sid : sqlval)
  : list (sqlval * Z) :=
  order_by snd (fun a b => b <=? a)
           (rev (group_count (map type (events_of db sid)))).

Notation "x <~ c ;; k" := (seq c (fun x => k))
  (at level 61, c at next level, right associativity).
Notation "c ;;; k" := (seq c (fun _ => k))
  (at level 61, right associativity).

Section Runtime.

Variable loads : string -> option json.   (* [json.loads] *)

(** [json.loads(x)] on a fetched cell: only text can be decoded. *)
Definition loads_cell (v : json) : py json :=
  match v with
  | JStr s =>
      match loads s with
      | Some j => Ok j
      | None => Raise JSONDecodeError
      end
  | _ => Raise TypeError
  end.

(** Lines 33-42. *)
Definition report_stats (stats_json : json) : script unit :=
  if truthy stats_json then
    stats <~ eval (loads_cell stats_json) ;;
    print "Stats (from DB):" [] ;;;
    kills <~ eval (get stats "totalKills" (JInt 0)) ;;
    print "  Kills: {}" [kills] ;;;
    loot <~ eval (v <- get stats "totalLootTTValue" (JInt 0) ;; format_2f v) ;;
    print "  Loot Value: {:.2f} PED" [loot] ;;;
    ammo <~ eval (v <- get stats "totalAmmoCost" (JInt 0) ;; format_2f v) ;;
    print "  Ammo Cost: {:.2f} PED" [ammo] ;;;
    profit <~ eval (v <- get stats "profit" (JInt 0) ;; format_2f v) ;;
    print "  Profit: {:.2f} PED" [profit]
  else
    print "No stats in database!" [].

(** Lines 53-63: the loop over the breakdown, with its two accumulators
    [(total_events, gps_count)]. *)
Definition count_events (breakdown : list (sqlval * Z)) : script (Z * Z) :=
  for_each breakdown
    (fun acc row =>
       let '(total_events, gps_count) := acc in
       let '(etype, count) := row in
       print "  {}: {}" [to_python etype; JInt count] ;;;
       ret (total_events + count,
            if eq_text etype "GPS_UPDATE" then count else gps_count))
    (0, 0).

(** Lines 65-78. *)
Definition sample_gps (db : database) (sid : sqlval) : script unit :=
  sample <~ execute (firstn 3 (map payload
                                   (events_of_type db sid "GPS_UPDATE"))) ;;
  print "Sample GPS Events:" [] ;;;
  for_each (enumerate 1 sample)
    (fun _ row =>
       let '(i, cell) := row in
       payload <~ eval (loads_cell (to_python cell)) ;;
       loc <~ eval (get payload "location" (JObj [])) ;;
       lon <~ eval (get loc "lon" (JInt 0)) ;;
       lat <~ eval (get loc "lat" (JInt 0)) ;;
       print "  GPS {}: lon={}, lat={}" [JInt i; lon; lat])
    tt.

(** Lines 13-78: the report on the most recent session. *)
Definition summarize (db : database) : script unit :=
  fetched <~ execute (recent_sessions db 1) ;;
  match fetched with
  | [] =>
      print "No sessions found" [] ;;;
      close ;;;
      exit
  | s :: _ =>
      let sid := id s in
      print "Most Recent Session: {}" [to_python (name s)] ;;;
      print "  ID: {}" [to_python sid] ;;;
      print "  Loadout: {}"
            [or_else (to_python (loadout_id s)) (JStr "NONE")] ;;;
      print "  Duration: {}s" [to_python (duration s)] ;;;
      report_stats (to_python (stats s)) ;;;
      breakdown <~ execute (event_breakdown db sid) ;;
      print "Event Breakdown:" [] ;;;
      counts <~ count_events breakdown ;;
      let '(total_events, gps_count) := counts in
      print "Total Events: {}" [JInt total_events] ;;;
      print "GPS Events: {}" [JInt gps_count] ;;;
      if 0 <? gps_count then sample_gps db sid else ret tt
  end.

(** Lines 84-89 and 92-97. *)
Definition print_columns (title : string) (columns : list (string * string))
  : script unit :=
  print title [] ;;;
  for_each columns
    (fun _ col => print "  {} ({})" [JStr (fst col); JStr (snd col)]) tt ;;;
  print "" [].

(** Lines 110-146, the body of the loop over the recent sessions. *)
Definition list_session (db : database) (s : session) : script unit :=
  let sid := id s in
  print "Session: {}" [to_python (name s)] ;;;
  print "  ID: {}" [to_python sid] ;;;
  print "  Loadout: {}" [or_else (to_python (loadout_id s)) (JStr "NONE")] ;;;
  print "  Duration: {}s" [to_python (duration s)] ;;;
  event_count <~ execute (Z.of_nat (List.length (events_of db sid))) ;;
  print "  Events: {}" [JInt event_count] ;;;
  groups <~ execute (group_count (map type (events_of db sid))) ;;
  for_each groups
    (fun _ row => print "    {}: {}" [to_python (fst row); JInt (snd row)])
    tt ;;;
  loot <~ execute (firstn 1 (map payload
                                 (events_of_type db sid "LOOT_RECEIVED"))) ;;
  match loot with
  | [] => ret tt
  | cell :: _ =>
      payload <~ eval (loads_cell (to_python cell)) ;;
      v <~ eval (get payload "totalTTValue" (JInt 0)) ;;
      print "  Sample loot: {} PED" [v]
  end ;;;
  print "" [].

(** Lines 148-165. *)
Definition report_loadout (db : database) : script unit :=
  fetched <~ execute (firstn 1 (loadouts db)) ;;
  match fetched with
  | [] => ret tt
  | l :: _ =>
      print "Loadout: {}" [to_python (l_name l)] ;;;
      print "  ID: {}" [to_python (l_id l)] ;;;
      print "  Use manual cost: {}" [to_python (use_manual_cost l)] ;;;
      print "  Manual override: {}" [to_python (manual_cost_override l)] ;;;
      let costs_json := to_python (costs l) in
      if truthy costs_json then
        costs <~ eval (loads_cell costs_json) ;;
        per_shot <~ eval (get costs "totalPerShot" (JInt 0)) ;;
        print "  Total per shot: {} PED" [per_shot] ;;;
        override <~ eval (get costs "manualCostOverride" JNull) ;;
        print "  Manual override in JSON: {} PED" [override]
      else ret tt
  end.

(** Lines 83-168: what follows the first [conn.close()]. *)
Definition inspect (db : database) : script unit :=
  columns <~ execute (sessions_table_info db) ;;
  print_columns "Sessions table columns:" columns ;;;
  event_cols <~ execute (events_table_info db) ;;
  print_columns "Events table columns:" event_cols ;;;
  recent <~ execute (recent_sessions db 3) ;;
  print "Found {} sessions" [JInt (Z.of_nat (List.length recent))] ;;;
  for_each recent (fun _ s => list_session db s) tt ;;;
  report_loadout db ;;;
  close ;;;
  print "Done!" [].

(** The whole script, from the open connection of line 10. *)
Definition main (db : database) : script unit :=
  summarize db ;;;
  close ;;;
  print "Done!" [] ;;;
  inspect db.

End Runtime.

(** Line 10: the connection is open and nothing is printed yet (the line
    that shows the path of the database is left out). *)
Definition connected : world := {| conn_open := true; printed := [] |}.

(** The world after more lines are printed, and after [conn.close()]. *)
Definition prints (ls : list line) (w : world) : world :=
  {| conn_open := conn_open w; printed := printed w ++ ls |}.

Definition closed (w : world) : world :=
  {| conn_open := false; printed := printed w |}.

(** [d.get(key, 0)] on the fields of a dict. *)
Definition field_or_zero (key : string) (fields : list (string * json)) : json :=
  match lookup key fields with
  | Some v => v
  | None => JInt 0
  end.

(** A database for closed examples: one session, recorded without stats,
    and no event. *)
Definition sample_session : session :=
  {| id := SText "s-1";
     name := SText "Evening hunt";
     loadout_id := SNull;
     duration := SInt 1800;
     stats := SNull;
     start_time := SInt 1700000000 |}.

Definition sample_database : database :=
  {| sessions := [sample_session];
     events := [];
     loadouts := [];
     sessions_table_info := [("id", "TEXT"); ("stats", "TEXT")];
     events_table_info := [("session_id", "TEXT"); ("type", "TEXT")] |}.

(** What the script prints for [sample_database] before it closes the
    connection. *)
Definition sample_report : list line :=
  [Line "Most Recent Session: {}" [JStr "Evening hunt"];
   Line "  ID: {}" [JStr "s-1"];
   Line "  Loadout: {}" [JStr "NONE"];
   Line "  Duration: {}s" [JInt 1800];
   Line "No stats in database!" [];
   Line "Event Breakdown:" [];
   Line "Total Events: {}" [JInt 0];
   Line "GPS Events: {}" [JInt 0]].

End ReadSession.

(** * Properties *)

(** ** ORDER BY and LIMIT *)

Section OrderByFacts.

Context {A K : Type} (key : A -> K) (leb : K -> K -> bool).

Hypothesis leb_total : forall a b, leb a b = true \/ leb b a = true.

Let le_key (x y : A) : Prop := leb (key x) (key y) = true.

Lemma insert_sorted_In (x y : A) (l : list A) :
  In y (insert_sorted key leb x l) <-> y = x \/ In y l.
Proof.
  induction l as [|z l IH]; simpl.
  - intuition congruence.
  - destruct (leb (key x) (key z)); simpl; rewrite ?IH; intuition congruence.
Qed.

Lemma order_by_In (y : A) (l : list A) :
  In y (order_by key leb l) <-> In y l.
Proof.
  induction l as [|x l IH]; simpl; [tauto|].
  rewrite insert_sorted_In, IH. intuition congruence.
Qed.

Lemma insert_sorted_length (x : A) (l : list A) :
  List.length (insert_sorted key leb x l) = S (List.length l).
Proof.
  induction l as [|z l IH]; simpl; [reflexivity|].
  destruct (leb (key x) (key z)); simpl; congruence.
Qed.

Lemma order_by_length (l : list A) :
  List.length (order_by key leb l) = List.length l.
Proof.
  induction l as [|x l IH]; simpl; [reflexivity|].
  now rewrite insert_sorted_length, IH.
Qed.

Lemma insert_sorted_HdRel (x a : A) (l : list A) :
  le_key a x -> HdRel le_key a l -> HdRel le_key a (insert_sorted key leb x l).
Proof.
  intros Hax Hal. destruct l as [|z l]; simpl.
  - now constructor.
  - destruct (leb (key x) (key z)); constructor; trivial.
    now inversion Hal.
Qed.

Lemma insert_sorted_Sorted (x : A) (l : list A) :
  Sorted le_key l -> Sorted le_key (insert_sorted key leb x l).
Proof.
  induction 1 as [|z l Hl IH Hz]; simpl.
  - repeat constructor.
  - destruct (leb (key x) (key z)) eqn:E.
    + constructor; [now constructor | now constructor].
    + constructor; [exact IH|].
      apply insert_sorted_HdRel; [|exact Hz].
      destruct (leb_total (key x) (key z)) as [H|H]; [congruence | exact H].
Qed.

Lemma order_by_Sorted (l : list A) : Sorted le_key (order_by key leb l).
Proof.
  induction l as [|x l IH]; simpl; [constructor|].
  now apply insert_sorted_Sorted.
Qed.



End OrderByFacts.

Lemma Sorted_firstn {A : Type} (R : A -> A -> Prop) (n : nat) (l : list A) :
  Sorted R l -> Sorted R (firstn n l).
Proof.
  intros H. revert n. induction H as [|x l Hl IH Hx]; intros [|n]; simpl;
    try constructor.
  - apply IH.
  - destruct Hx; destruct n; simpl; constructor; trivial.
Qed.

Lemma In_firstn {A : Type} (n : nat) (x : A) (l : list A) :
  In x (firstn n l) -> In x l.
Proof.
  revert n. induction l as [|y l IH]; intros [|n]; simpl; try tauto.
  intros [H|H]; [now left | right; now apply (IH n)].
Qed.


(** ** ROUND(SQRT(x)) *)




(** The same over the reals: [round_sqrt x] is [floor (sqrt x + 1/2)]. *)
Section RoundSqrtOverReals.

Import Reals Qreals Lra.
Local Open Scope R_scope.



End RoundSqrtOverReals.

Lemma null_first_leb_total (a b : option Z) :
  null_first_leb a b = true \/ null_first_leb b a = true.
Proof.
  destruct a as [x|], b as [y|]; simpl; auto.
  destruct (Z.leb_spec x y); [now left | right; apply Z.leb_le; lia].
Qed.

(** ** Text: what can be encoded, and what LIKE reads *)

(** The lone surrogate U+D800 (bytes ED A0 80) cannot be encoded, bound
    to a statement or printed as an [Id]; U+D7FF, the code point before
    the surrogates (bytes ED 9F BF), can. *)
Lemma lone_surrogate_is_not_encodable :
  let surrogate :=
    String (ascii_of_nat 237)
      (String (ascii_of_nat 160) (String (ascii_of_nat 128) EmptyString)) in
  let before :=
    String (ascii_of_nat 237)
      (String (ascii_of_nat 159) (String (ascii_of_nat 191) EmptyString)) in
  encodable surrogate = false /\
  adapt (JStr surrogate) = Raise UnicodeEncodeError /\
  ImportNexusSpawns.printable_id (JObj [("Id", JStr surrogate)]) = false /\
  encodable before = true /\
  adapt (JStr before) = Ok (SText before) /\
  ImportNexusSpawns.printable_id (JObj [("Id", JStr before)]) = true.
Proof. repeat split. Qed.

(** LIKE ignores the case of ASCII letters and does not read past a NUL
    byte. *)
Lemma like_stops_at_nul :
  contains_nocase "Foul" "young fOUL one" = true /\
  contains_nocase "Foul" (String "a" (String zero "Foul")) = false /\
  occurs_nocase "Foul" (String "a" (String zero "Foul")) = true.
Proof. repeat split. Qed.

(** ** import-nexus-spawns.py: the table *)

Section TableFacts.

Import ImportNexusSpawns.

Lemma find_row_id (k : Z) (tbl : table) (r : row) :
  find_row k tbl = Some r -> id r = k /\ In r tbl.
Proof.
  induction tbl as [|x tbl IH]; simpl; [discriminate|].
  destruct (id x =? k) eqn:E.
  - intros [= <-]. apply Z.eqb_eq in E. auto.
  - intros H. destruct (IH H). auto.
Qed.

Lemma find_row_absent (k : Z) (tbl : table) :
  ~ In k (map id tbl) -> find_row k tbl = None.
Proof.
  induction tbl as [|x tbl IH]; simpl; [reflexivity|].
  intros H. destruct (Z.eqb_spec (id x) k); [tauto | apply IH; tauto].
Qed.

Lemma find_row_none (k : Z) (tbl : table) :
  Forall (Z.lt k) (map id tbl) -> find_row k tbl = None.
Proof.
  intros H. apply find_row_absent. intros Hin.
  rewrite Forall_forall in H. specialize (H k Hin). lia.
Qed.

Lemma find_row_app (k : Z) (t1 t2 : table) :
  find_row k (t1 ++ t2) =
  match find_row k t1 with Some r => Some r | None => find_row k t2 end.
Proof.
  induction t1 as [|x t1 IH]; simpl; [reflexivity|].
  destruct (id x =? k); [reflexivity | exact IH].
Qed.

(** After an upsert the key holds the new row; other keys are untouched. *)
Lemma find_row_upsert (k : Z) (r : row) (tbl : table) :
  find_row k (upsert r tbl) =
  if id r =? k then Some r else find_row k tbl.
Proof.
  induction tbl as [|x tbl IH]; simpl; [reflexivity|].
  destruct (Z.compare_spec (id r) (id x)) as [E|E|E]; simpl.
  - rewrite <- E. destruct (id r =? k); reflexivity.
  - reflexivity.
  - rewrite IH. destruct (Z.eqb_spec (id r) k), (Z.eqb_spec (id x) k);
      try reflexivity. lia.
Qed.

Lemma upsert_ids_Forall (P : Z -> Prop) (r : row) (tbl : table) :
  P (id r) -> Forall P (map id tbl) -> Forall P (map id (upsert r tbl)).
Proof.
  intros Hr. induction tbl as [|x tbl IH]; simpl; intros H.
  - repeat constructor; trivial.
  - inversion H; subst.
    destruct (id r ?= id x); simpl; constructor; auto.
Qed.

(** Upserting keeps one row per key, in key order. *)
Lemma upsert_keyed (r : row) (tbl : table) :
  keyed tbl -> keyed (upsert r tbl).
Proof.
  unfold keyed. induction tbl as [|x tbl IH]; simpl; intros H.
  - repeat constructor.
  - inversion H as [|? ? Hs Hf]; subst.
    destruct (Z.compare_spec (id r) (id x)) as [E|E|E]; simpl.
    + constructor; [exact Hs | now rewrite E].
    + constructor; [exact H|]. constructor; [exact E|].
      eapply Forall_impl; [|exact Hf]. simpl. intros; lia.
    + constructor; [now apply IH|]. now apply upsert_ids_Forall.
Qed.

Lemma keyed_ext (t1 t2 : table) :
  keyed t1 -> keyed t2 ->
  (forall k, find_row k t1 = find_row k t2) -> t1 = t2.
Proof.
  unfold keyed. revert t2.
  induction t1 as [|x t1 IH]; intros [|y t2] H1 H2 E.
  - reflexivity.
  - specialize (E (id y)). simpl in E. rewrite Z.eqb_refl in E. discriminate.
  - specialize (E (id x)). simpl in E. rewrite Z.eqb_refl in E. discriminate.
  - simpl in H1, H2.
    inversion H1 as [|? ? Hs1 Hf1]; inversion H2 as [|? ? Hs2 Hf2]; subst.
    assert (Hxy : x = y).
    { pose proof (E (id x)) as Ex. pose proof (E (id y)) as Ey.
      simpl in Ex, Ey. rewrite Z.eqb_refl in Ex, Ey.
      destruct (Z.eqb_spec (id y) (id x)) as [e|ne]; [congruence|].
      destruct (Z.eqb_spec (id x) (id y)) as [e'|_]; [congruence|].
      symmetry in Ex. apply find_row_id in Ex, Ey.
      destruct Ex as [_ Ix], Ey as [_ Iy].
      rewrite Forall_forall in Hf1, Hf2.
      specialize (Hf2 (id x) (in_map id _ _ Ix)).
      specialize (Hf1 (id y) (in_map id _ _ Iy)). lia. }
    subst y. f_equal. apply IH; trivial.
    intros k. destruct (Z.eq_dec (id x) k) as [e|ne].
    + subst k. now rewrite !find_row_none.
    + specialize (E k). simpl in E.
      now rewrite (proj2 (Z.eqb_neq _ _) ne) in E.
Qed.

Lemma upsert_forget_created (r : row) (tbl : table) :
  map forget_created (upsert r tbl) =
  upsert (forget_created r) (map forget_created tbl).
Proof.
  induction tbl as [|x tbl IH]; simpl; [reflexivity|].
  destruct (id r ?= id x); simpl; congruence.
Qed.

Lemma keyed_forget_created (tbl : table) :
  keyed tbl -> keyed (map forget_created tbl).
Proof.
  unfold keyed. intros H. rewrite map_map. exact H.
Qed.



End TableFacts.

(** ** import-nexus-spawns.py: one element of the feed *)

(** Case analysis on the next computation of a chain of binds. *)
Ltac next_bind :=
  match goal with
  | |- context [Py.bind ?c _] =>
      let E := fresh "E" in destruct c eqn:E; cbn [Py.bind]
  end.

Ltac next_bind_in H :=
  match type of H with
  | context [Py.bind ?c _] =>
      let E := fresh "E" in destruct c eqn:E; cbn [Py.bind] in H
  end.

Section ElementFacts.

Import ImportNexusSpawns.

Variable rt : runtime.

Lemma insert_spawn_attempt (now : Z) (st : progress) (spawn : json) :
  insert_spawn rt now st spawn =
  match attempt rt now (rows st) spawn with
  | Ok r =>
      Ok {| rows := upsert r (rows st);
            inserted := inserted st + 1;
            skipped := skipped st |}
  | Raise _ =>
      _ <- get spawn "Id" JNull ;;
      Ok {| rows := rows st;
            inserted := inserted st;
            skipped := skipped st + 1 |}
  end.
Proof.
  unfold insert_spawn, attempt, execute_insert.
  destruct (extract rt spawn) as [p|e]; cbn [Py.bind]; [|reflexivity].
  destruct (new_row rt now (rows st) p); reflexivity.
Qed.

(** A dict never leaves the loop body with an exception: it is inserted or
    it is counted as skipped. *)
Lemma insert_spawn_dict (now : Z) (st : progress) (fields : list (string * json)) :
  insert_spawn rt now st (JObj fields) =
  Ok match attempt rt now (rows st) (JObj fields) with
     | Ok r =>
         {| rows := upsert r (rows st);
            inserted := inserted st + 1;
            skipped := skipped st |}
     | Raise _ =>
         {| rows := rows st;
            inserted := inserted st;
            skipped := skipped st + 1 |}
     end.
Proof.
  rewrite insert_spawn_attempt.
  destruct (attempt rt now (rows st) (JObj fields)); reflexivity.
Qed.

(** Anything else raises twice: in the [try] block, then in the handler. *)
Lemma insert_spawn_not_dict (now : Z) (st : progress) (spawn : json) :
  is_dict spawn = false ->
  insert_spawn rt now st spawn = Raise AttributeError.
Proof.
  intros H. rewrite insert_spawn_attempt. unfold attempt, extract.
  destruct spawn; try discriminate; reflexivity.
Qed.

Lemma new_row_created_at (now : Z) (tbl : table) (p : params) (r : row) :
  new_row rt now tbl p = Ok r -> created_at r = now.
Proof.
  unfold new_row. intros H.
  repeat (next_bind_in H; [|discriminate]).
  injection H as <-. reflexivity.
Qed.

(** The creation time is the only trace of the clock in the new row. *)
Lemma new_row_stamp (now now' : Z) (tbl : table) (p : params) :
  new_row rt now' tbl p =
  match new_row rt now tbl p with
  | Ok r => Ok (stamp now' r)
  | Raise e => Raise e
  end.
Proof.
  unfold new_row.
  repeat (next_bind; [|reflexivity]). reflexivity.
Qed.

Lemma rowid_of_given (tbl tbl' : table) (v : sqlval) :
  v <> SNull -> rowid_of rt tbl v = rowid_of rt tbl' v.
Proof. destruct v; [congruence | reflexivity ..]. Qed.

(** With a key of its own, the new row does not depend on the table. *)
Lemma new_row_given_id (now : Z) (tbl tbl' : table) (p : params) :
  adapt (p_id p) <> Ok SNull ->
  new_row rt now tbl p = new_row rt now tbl' p.
Proof.
  intros H. unfold new_row.
  destruct (adapt (p_id p)) as [b|e] eqn:Eid; cbn [Py.bind]; [|reflexivity].
  assert (Hb : b <> SNull) by congruence.
  rewrite (rowid_of_given tbl tbl' b Hb). reflexivity.
Qed.

Lemma new_rowid_available (tbl : table) :
  (forall m, largest_id tbl = Some m -> m < max_int64) ->
  new_rowid rt tbl = Ok (next_rowid tbl).
Proof.
  intros H. unfold new_rowid, next_rowid.
  destruct (largest_id tbl) as [m|]; [|reflexivity].
  specialize (H m eq_refl). apply Z.ltb_lt in H. now rewrite H.
Qed.

Lemma extract_id (fields : list (string * json)) (p : params) :
  extract rt (JObj fields) = Ok p ->
  p_id p = match lookup "Id" fields with Some v => v | None => JNull end.
Proof.
  unfold extract. cbn [get Py.bind]. intros H.
  repeat (next_bind_in H; [|discriminate]).
  injection H as <-. reflexivity.
Qed.

Lemma adapt_null (v : json) : adapt v = Ok SNull -> v = JNull.
Proof.
  destruct v as [|b|n|q|s|l|f]; simpl; try congruence.
  - destruct ((min_int64 <=? n) && (n <=? max_int64)); congruence.
  - destruct (encodable s); congruence.
Qed.

Lemma attempt_given_id (now : Z) (tbl tbl' : table) (spawn : json) :
  has_id spawn = true ->
  attempt rt now tbl spawn = attempt rt now tbl' spawn.
Proof.
  intros H. unfold attempt.
  destruct (extract rt spawn) as [p|e] eqn:E; cbn [Py.bind]; [|reflexivity].
  apply new_row_given_id. intros Hnull. apply adapt_null in Hnull.
  destruct spawn as [| | | | | |fields]; try discriminate.
  rewrite (extract_id _ _ E) in Hnull. simpl in H.
  destruct (lookup "Id" fields) as [[]|]; congruence.
Qed.

Lemma attempt_stamp (now now' : Z) (tbl : table) (spawn : json) :
  attempt rt now' tbl spawn =
  match attempt rt now tbl spawn with
  | Ok r => Ok (stamp now' r)
  | Raise e => Raise e
  end.
Proof.
  unfold attempt.
  destruct (extract rt spawn) as [p|e]; cbn [Py.bind]; [|reflexivity].
  apply new_row_stamp.
Qed.

End ElementFacts.

(** ** import-nexus-spawns.py: the loop *)

Section LoopFacts.

Import ImportNexusSpawns.

Variable rt : runtime.

Lemma has_id_is_dict (spawn : json) : has_id spawn = true -> is_dict spawn = true.
Proof. destruct spawn; simpl; congruence. Qed.

(** A feed of dicts is processed to its end, each element counted once. *)
Lemma import_loop_dicts (clock : nat -> Z) (spawns : list json) :
  forallb is_dict spawns = true ->
  forall i st, exists st',
    import_loop rt clock i st spawns = Ok st' /\
    inserted st' + skipped st' =
    inserted st + skipped st + Z.of_nat (List.length spawns).
Proof.
  induction spawns as [|spawn rest IH]; intros Hd i st.
  - exists st. split; [reflexivity | simpl; lia].
  - cbn [forallb] in Hd. apply andb_true_iff in Hd as [Hs Hrest].
    destruct spawn as [| | | | | |fields]; try discriminate.
    cbn [import_loop]. rewrite insert_spawn_dict. cbn [Py.bind].
    match goal with |- context [import_loop rt clock (S i) ?s rest] =>
      destruct (IH Hrest (S i) s) as (st' & E & Hc)
    end.
    exists st'. split; [exact E|].
    rewrite Hc. cbn [List.length]. rewrite Nat2Z.inj_succ.
    destruct (attempt rt (clock i) (rows st) (JObj fields)); simpl; lia.
Qed.


(** When every element carries its own [Id], the loop stores the planned
    rows one after the other. *)
Lemma import_loop_given_ids (clock : nat -> Z) (spawns : list json) :
  forallb has_id spawns = true ->
  forall i st,
    import_loop rt clock i st spawns =
    Ok {| rows := upsert_all (planned rt clock i spawns) (rows st);
          inserted :=
            inserted st + Z.of_nat (List.length (planned rt clock i spawns));
          skipped :=
            skipped st + (Z.of_nat (List.length spawns)
                          - Z.of_nat (List.length (planned rt clock i spawns)))
       |}.
Proof.
  induction spawns as [|spawn rest IH]; intros Hd i st.
  - destruct st; simpl. do 2 f_equal; lia.
  - cbn [forallb] in Hd. apply andb_true_iff in Hd as [Hs Hrest].
    pose proof (has_id_is_dict _ Hs) as Hdict.
    destruct spawn as [| | | | | |fields]; try discriminate.
    cbn [import_loop planned]. rewrite insert_spawn_dict. cbn [Py.bind].
    rewrite (attempt_given_id rt (clock i) (rows st) [] _ Hs).
    rewrite (IH Hrest).
    destruct (attempt rt (clock i) [] (JObj fields)) as [r|e];
      cbn [rows inserted skipped List.length upsert_all fold_left];
      rewrite ?Nat2Z.inj_succ; do 2 f_equal; lia.
Qed.

Lemma forget_created_stamp (now : Z) (r : row) :
  forget_created (stamp now r) = forget_created r.
Proof. reflexivity. Qed.

(** The plan of a run depends on its clock through [created_at] only. *)
Lemma planned_forget_created (c1 c2 : nat -> Z) (spawns : list json) :
  forall i j,
    map forget_created (planned rt c2 j spawns) =
    map forget_created (planned rt c1 i spawns).
Proof.
  induction spawns as [|spawn rest IH]; intros i j; [reflexivity|].
  cbn [planned]. rewrite (attempt_stamp rt (c1 i) (c2 j)).
  destruct (attempt rt (c1 i) [] spawn) as [r|e]; [|apply IH].
  cbn [map]. now rewrite forget_created_stamp, (IH (S i) (S j)).
Qed.

Lemma upsert_all_forget_created (rs : list row) (tbl : table) :
  map forget_created (upsert_all rs tbl) =
  upsert_all (map forget_created rs) (map forget_created tbl).
Proof.
  unfold upsert_all. revert tbl.
  induction rs as [|r rs IH]; intros tbl; [reflexivity|].
  cbn [fold_left map]. now rewrite IH, upsert_forget_created.
Qed.

Lemma upsert_all_keyed (rs : list row) (tbl : table) :
  keyed tbl -> keyed (upsert_all rs tbl).
Proof.
  unfold upsert_all. revert tbl.
  induction rs as [|r rs IH]; intros tbl H; [exact H|].
  cbn [fold_left]. now apply IH, upsert_keyed.
Qed.

(** Last write wins: a key holds the last planned row that carries it, or
    else what the table held. *)
Lemma find_row_upsert_all (k : Z) (rs : list row) (tbl : table) :
  find_row k (upsert_all rs tbl) =
  match find_row k (rev rs) with
  | Some r => Some r
  | None => find_row k tbl
  end.
Proof.
  unfold upsert_all. revert tbl.
  induction rs as [|r rs IH]; intros tbl; [reflexivity|].
  cbn [fold_left rev]. rewrite IH, find_row_app, find_row_upsert.
  destruct (find_row k (rev rs)); [reflexivity|].
  simpl. destruct (id r =? k); reflexivity.
Qed.

(** Whatever the elements are, the loop keeps one row per key. *)
Lemma import_loop_keyed (clock : nat -> Z) (spawns : list json) :
  forall i st st',
    keyed (rows st) ->
    import_loop rt clock i st spawns = Ok st' ->
    keyed (rows st').
Proof.
  induction spawns as [|spawn rest IH]; intros i st st' Hk H.
  - injection H as <-. exact Hk.
  - cbn [import_loop] in H. rewrite insert_spawn_attempt in H.
    destruct (attempt rt (clock i) (rows st) spawn) as [r|e];
      cbn [Py.bind] in H.
    + apply IH in H; [exact H|]. now apply upsert_keyed.
    + destruct (get spawn "Id" JNull); cbn [Py.bind] in H; [|discriminate].
      apply IH in H; [exact H | exact Hk].
Qed.

(** Storing the same rows a second time changes nothing. *)
Lemma upsert_all_twice (rs : list row) (tbl : table) :
  keyed tbl -> upsert_all rs (upsert_all rs tbl) = upsert_all rs tbl.
Proof.
  intros H. apply keyed_ext; auto using upsert_all_keyed.
  intros k. rewrite !find_row_upsert_all.
  destruct (find_row k (rev rs)); reflexivity.
Qed.

End LoopFacts.

(** ** import-nexus-spawns.py: the Synchronizer *)

Section SynchronizerClaims.

Import ImportNexusSpawns.

(** C6.  When the feed cannot be fetched, or its body is not UTF-8 or not
    JSON, the run ends at once with [exit(1)] and the database file is what
    it was: no table is created, no row is written.  Conversely a run whose
    feed was fetched and decoded never ends this way, whatever its elements
    are: the fatal path is not the per-record skip. *)
Theorem fetch_failure_exits_before_any_mutation
    (rt : runtime) (clock : nat -> Z) (db : database) :
  (forall r,
      r = Unreachable \/
      (exists raw, r = Body raw /\
         (decode_utf8 rt raw = None \/
          exists data, decode_utf8 rt raw = Some data /\ loads rt data = None)) ->
      main rt clock r db = Exit1 db) /\
  (forall r spawns db',
      fetch rt r = Ok spawns -> main rt clock r db <> Exit1 db').
Proof.
  split.
  - intros r [->|(raw & -> & [E|(data & E & E')])]; unfold main, fetch.
    + reflexivity.
    + now rewrite E.
    + now rewrite E, E'.
  - intros r spawns db' E. unfold main. rewrite E.
    destruct (sync rt clock _ spawns); discriminate.
Qed.

Lemma fetch_failure_exits_before_any_mutation_witness :
  main (sample_runtime None) (fun _ => 1700000000) (Body "<html>") None
  = Exit1 None.
Proof.
  apply (fetch_failure_exits_before_any_mutation
           (sample_runtime None) (fun _ => 1700000000) None).
  right. exists "<html>". split; [reflexivity|].
  right. exists "<html>". split; reflexivity.
Defined.



(** C8, as the code has it.  Every successful INSERT OR REPLACE stores a
    row whose [created_at] is the time of that statement, on a first insert
    and on a replace alike: the key of a replaced row holds the new row,
    and nothing of the old one, its creation time included, remains. *)
Theorem replace_stamps_created_at_anew
    (rt : runtime) (now : Z) (tbl tbl' : table) (p : params) :
  execute_insert rt now tbl p = Ok tbl' ->
  exists r,
    new_row rt now tbl p = Ok r /\
    find_row (id r) tbl' = Some r /\
    created_at r = now /\
    (forall old, find_row (id r) tbl = Some old ->
                 find_row (id old) tbl' = Some r).
Proof.
  unfold execute_insert. intros H.
  destruct (new_row rt now tbl p) as [r|e] eqn:E; [|discriminate].
  cbn [Py.bind] in H. injection H as <-. exists r.
  assert (Hf : find_row (id r) (upsert r tbl) = Some r).
  { now rewrite find_row_upsert, Z.eqb_refl. }
  repeat split; trivial.
  - eapply new_row_created_at, E.
  - intros old Hold. apply find_row_id in Hold as [-> _]. exact Hf.
Qed.

Lemma replace_stamps_created_at_anew_witness :
  exists r,
    new_row (sample_runtime None) 200 [sample_row 1 "A" 100 100 100]
            (sample_params 1 "A" 100 100) = Ok r /\
    find_row (id r) [sample_row 1 "A" 100 100 200] = Some r /\
    created_at r = 200 /\
    (forall old,
        find_row (id r) [sample_row 1 "A" 100 100 100] = Some old ->
        find_row (id old) [sample_row 1 "A" 100 100 200] = Some r).
Proof.
  apply (replace_stamps_created_at_anew
           (sample_runtime None) 200 [sample_row 1 "A" 100 100 100]
           [sample_row 1 "A" 100 100 200] (sample_params 1 "A" 100 100)).
  reflexivity.
Defined.

(** C8, counterexample.  The same one-element feed is imported at
    second 100 and again at second 200: the row of id 1 is created at 100
    after the first run and at 200, not 100, after the second. *)
Lemma resync_refreshes_created_at :
  sync (sample_runtime None) (fun _ => 100) [] [sample_spawn 1 "A" 100 100]
  = Ok {| rows := [sample_row 1 "A" 100 100 100];
          inserted := 1; skipped := 0 |} /\
  sync (sample_runtime None) (fun _ => 200) [sample_row 1 "A" 100 100 100]
       [sample_spawn 1 "A" 100 100]
  = Ok {| rows := [sample_row 1 "A" 100 100 200];
          inserted := 1; skipped := 0 |}.
Proof. split; reflexivity. Qed.




(** C2, as the code has it.  For a feed whose elements are dicts that all
    carry an integer [Id], two runs over the same feed end with the same
    [inserted] and [skipped], every element being counted once; the table
    after the second run is the table after the first but for
    [created_at], which the second run stamps anew; a table with one row
    per id keeps one row per id; and each key of the feed holds the row
    built from the last element that carries it (last write wins, nothing
    merged). *)
Theorem resync_keeps_counts_and_rows_but_created_at
    (rt : runtime) (c1 c2 : nat -> Z) (tbl : table) (spawns : list json) :
  keyed tbl ->
  forallb has_int_id spawns = true ->
  exists st1 st2,
    sync rt c1 tbl spawns = Ok st1 /\
    sync rt c2 (rows st1) spawns = Ok st2 /\
    inserted st2 = inserted st1 /\
    skipped st2 = skipped st1 /\
    inserted st1 + skipped st1 = Z.of_nat (List.length spawns) /\
    map forget_created (rows st2) = map forget_created (rows st1) /\
    keyed (rows st1) /\ keyed (rows st2) /\
    (forall k r,
        find_row k (rev (planned rt c2 0 spawns)) = Some r ->
        find_row k (rows st2) = Some r).
Proof.
  intros Hk Hint.
  assert (Hids : forallb has_id spawns = true).
  { rewrite forallb_forall in *. intros x Hx. specialize (Hint x Hx).
    destruct x as [| | | | | |fields]; try discriminate.
    cbn [has_int_id has_id] in *.
    destruct (lookup "Id" fields) as [[]|]; congruence. }
  unfold sync.
  do 2 eexists.
  split; [apply (import_loop_given_ids rt c1 spawns Hids)|].
  split; [apply (import_loop_given_ids rt c2 spawns Hids)|].
  cbn [rows inserted skipped].
  pose proof (planned_forget_created rt c1 c2 spawns 0%nat 0%nat) as Hp.
  assert (Hlen : List.length (planned rt c2 0 spawns) =
                 List.length (planned rt c1 0 spawns)).
  { rewrite <- (length_map forget_created (planned rt c2 0 spawns)), Hp.
    apply length_map. }
  rewrite Hlen. repeat split; try lia.
  - rewrite !upsert_all_forget_created, Hp.
    apply upsert_all_twice. now apply keyed_forget_created.
  - now apply upsert_all_keyed.
  - now apply upsert_all_keyed, upsert_all_keyed.
  - intros k r Hr. now rewrite find_row_upsert_all, Hr.
Qed.

Lemma resync_keeps_counts_and_rows_but_created_at_witness :
  exists st1 st2,
    sync (sample_runtime None) (fun _ => 100) []
         [sample_spawn 1 "A" 100 100; sample_spawn 1 "B" 7 7] = Ok st1 /\
    sync (sample_runtime None) (fun _ => 200) (rows st1)
         [sample_spawn 1 "A" 100 100; sample_spawn 1 "B" 7 7] = Ok st2 /\
    inserted st2 = inserted st1 /\
    skipped st2 = skipped st1 /\
    inserted st1 + skipped st1 = 2 /\
    map forget_created (rows st2) = map forget_created (rows st1) /\
    keyed (rows st1) /\ keyed (rows st2) /\
    (forall k r,
        find_row k
          (rev (planned (sample_runtime None) (fun _ => 200) 0
                        [sample_spawn 1 "A" 100 100; sample_spawn 1 "B" 7 7]))
        = Some r ->
        find_row k (rows st2) = Some r).
Proof.
  apply (resync_keeps_counts_and_rows_but_created_at
           (sample_runtime None) (fun _ => 100) (fun _ => 200) []
           [sample_spawn 1 "A" 100 100; sample_spawn 1 "B" 7 7]).
  - constructor.
  - reflexivity.
Defined.

(** C2, counterexample.  A feed of one element without [Id], imported
    twice at the same second: the first run leaves one row, the second
    leaves two, the same spawn under ids 1 and 2. *)
Lemma resync_duplicates_record_without_id :
  sync (sample_runtime None) (fun _ => 100) []
       [sample_spawn_without_id "A" 100 100]
  = Ok {| rows := [sample_row 1 "A" 100 100 100];
          inserted := 1; skipped := 0 |} /\
  sync (sample_runtime None) (fun _ => 100) [sample_row 1 "A" 100 100 100]
       [sample_spawn_without_id "A" 100 100]
  = Ok {| rows := [sample_row 1 "A" 100 100 100; sample_row 2 "A" 100 100 100];
          inserted := 1; skipped := 0 |}.
Proof. split; reflexivity. Qed.

(** X1.  A feed made of dicts whose [Id] can be printed (any [Id] but
    text that cannot be encoded) is processed to its end, whatever else
    the dicts hold: the run finishes and commits, and every element is
    counted once, as inserted or as skipped. *)
Theorem dict_feed_is_processed_to_its_end
    (rt : runtime) (clock : nat -> Z) (r : response) (db : database)
    (spawns : list json) :
  fetch rt r = Ok spawns ->
  forallb printable_id spawns = true ->
  exists st,
    sync rt clock (match db with Some t => t | None => [] end) spawns = Ok st /\
    inserted st + skipped st = Z.of_nat (List.length spawns) /\
    main rt clock r db =
    Finished (Some (rows st)) (inserted st) (skipped st)
             (nearby_spawns rt (rows st)).
Proof.
  intros E Hp.
  assert (Hd : forallb is_dict spawns = true).
  { rewrite forallb_forall in *. intros x Hx. specialize (Hp x Hx).
    destruct x; try discriminate. reflexivity. }
  unfold main, sync. rewrite E.
  destruct (import_loop_dicts rt clock spawns Hd 0%nat
              {| rows := match db with Some t => t | None => [] end;
                 inserted := 0; skipped := 0 |}) as (st & Hst & Hc).
  exists st. cbn [inserted skipped] in Hc.
  split; [exact Hst|]. split; [lia|]. unfold sync. now rewrite Hst.
Qed.

Lemma dict_feed_is_processed_to_its_end_witness :
  exists st,
    sync (sample_runtime (Some (JArr [sample_spawn 1 "A" 100 100;
                                      JObj [("Id", JStr "one")]])))
         (fun _ => 100) [] [sample_spawn 1 "A" 100 100; JObj [("Id", JStr "one")]]
    = Ok st /\
    inserted st + skipped st = 2 /\
    main (sample_runtime (Some (JArr [sample_spawn 1 "A" 100 100;
                                      JObj [("Id", JStr "one")]])))
         (fun _ => 100) (Body "[...]") None
    = Finished (Some (rows st)) (inserted st) (skipped st)
               (nearby_spawns
                  (sample_runtime (Some (JArr [sample_spawn 1 "A" 100 100;
                                               JObj [("Id", JStr "one")]])))
                  (rows st)).
Proof.
  apply (dict_feed_is_processed_to_its_end
           (sample_runtime (Some (JArr [sample_spawn 1 "A" 100 100;
                                        JObj [("Id", JStr "one")]])))
           (fun _ => 100) (Body "[...]") None
           [sample_spawn 1 "A" 100 100; JObj [("Id", JStr "one")]]);
    reflexivity.
Defined.

(** X2.  The key stays a key: a run over any feed, started on a table with
    one row per id, leaves a table with one row per id, in id order. *)
Theorem sync_keeps_one_row_per_id
    (rt : runtime) (clock : nat -> Z) (tbl : table) (spawns : list json)
    (st : progress) :
  keyed tbl ->
  sync rt clock tbl spawns = Ok st ->
  keyed (rows st).
Proof.
  intros Hk H. unfold sync in H.
  exact (import_loop_keyed rt clock spawns 0%nat
           {| rows := tbl; inserted := 0; skipped := 0 |} st Hk H).
Qed.

Lemma sync_keeps_one_row_per_id_witness :
  keyed [sample_row 7 "B" 5 5 50; sample_row 8 "A" 100 100 100].
Proof.
  apply (sync_keeps_one_row_per_id
           (sample_runtime None) (fun _ => 100) [sample_row 7 "B" 5 5 50]
           [sample_spawn_without_id "A" 100 100]
           {| rows := [sample_row 7 "B" 5 5 50; sample_row 8 "A" 100 100 100];
              inserted := 1; skipped := 0 |}).
  - repeat constructor.
  - reflexivity.
Defined.

End SynchronizerClaims.

(** ** import-nexus-spawns.py and test-foul-parsing.py: the proximity queries *)

Section ProximityClaims.

Import ImportNexusSpawns.











(** X3.  The scenario of the documentation: the feed holds the one spawn
    [{Id: 1, Name: A, Planet: {Name: Calypso}, Properties: {Coordinates:
    {Longitude: 100, Latitude: 100}}}]; the import reports one row inserted
    and none skipped, and the nearest spawn to (100, 103) on Calypso is that
    one, at distance 3. *)
Theorem import_then_nearest_scenario (rt : runtime) (clock : nat -> Z) :
  exists st,
    sync rt clock [] [sample_spawn 1 "A" 100 100] = Ok st /\
    inserted st = 1 /\ skipped st = 0 /\
    map (fun e => (id (fst e), name (fst e), snd e))
        (nearest rt "Calypso" (inject_Z 100) (inject_Z 103) 1 (rows st))
    = [(1, SText "A", Some 3)].
Proof.
  eexists. split.
  - unfold sync, sample_spawn. cbn [import_loop].
    rewrite insert_spawn_dict. unfold attempt, extract.
    cbn [get lookup String.eqb Ascii.eqb Bool.eqb Py.bind truthy].
    unfold new_row.
    cbn [p_id p_name p_planet p_type p_shape p_lon p_lat p_density
         p_is_shared p_is_event p_notes p_data_json adapt].
    rewrite (dumps_encodable rt). reflexivity.
  - repeat split.
Qed.

End ProximityClaims.

(** ** Binary64: the rounding of a product *)

Section Binary64Facts.

Import AnalyzeHpMatches.

Lemma div_half_even_near (a b : Z) :
  0 < b -> - b <= 2 * (div_half_even a b * b - a) <= b.
Proof.
  intros Hb. unfold div_half_even.
  pose proof (Z.div_mod a b ltac:(lia)) as Hd.
  pose proof (Z.mod_pos_bound a b Hb) as Hm.
  destruct (Z.compare_spec (2 * (a mod b)) b) as [E|E|E];
    [destruct (Z.even (a / b))| |]; nia.
Qed.

Lemma pow2_pos (k : Z) : 0 <= k -> 0 < 2 ^ k.
Proof. intros H. apply Z.pow_pos_nonneg; lia. Qed.

Lemma floor_log2_spec (a d : Z) :
  0 < a -> 0 < d ->
  let l := floor_log2 a d in
  d * 2 ^ Z.max 0 l <= a * 2 ^ Z.max 0 (- l) /\
  a * 2 ^ Z.max 0 (- l - 1) < d * 2 ^ Z.max 0 (l + 1).
Proof.
  intros Ha Hd l. subst l. unfold floor_log2.
  destruct (Z.log2_spec a Ha) as [Ha1 Ha2].
  destruct (Z.log2_spec d Hd) as [Hd1 Hd2].
  pose proof (Z.log2_nonneg a) as Hla. pose proof (Z.log2_nonneg d) as Hld.
  set (la := Z.log2 a) in *. set (ld := Z.log2 d) in *.
  rewrite <- Z.add_1_r in Ha2, Hd2.
  rewrite Z.pow_add_r in Ha2, Hd2 by lia. change (2 ^ 1) with 2 in *.
  pose proof (pow2_pos la Hla) as Pa. pose proof (pow2_pos ld Hld) as Pd.
  destruct (Z.leb_spec (d * 2 ^ Z.max 0 (la - ld))
                       (a * 2 ^ Z.max 0 (- (la - ld)))) as [Ht|Ht].
  - split; [exact Ht|].
    destruct (Z.le_gt_cases 0 (la - ld)) as [Hk|Hk].
    + rewrite (Z.max_l 0 (- (la - ld) - 1)) by lia.
      rewrite (Z.max_r 0 (la - ld + 1)) by lia.
      rewrite Z.pow_add_r by lia. change (2 ^ 1) with 2. change (2 ^ 0) with 1.
      assert (E : 2 ^ la = 2 ^ ld * 2 ^ (la - ld)).
      { rewrite <- Z.pow_add_r by lia. f_equal. lia. }
      pose proof (pow2_pos (la - ld) Hk) as Pk.
      assert (2 ^ ld * 2 ^ (la - ld) <= d * 2 ^ (la - ld))
        by (apply Z.mul_le_mono_nonneg_r; lia).
      lia.
    + rewrite (Z.max_r 0 (- (la - ld) - 1)) by lia.
      rewrite (Z.max_l 0 (la - ld + 1)) by lia. change (2 ^ 0) with 1.
      assert (E : 2 ^ ld = 2 ^ la * 2 * 2 ^ (- (la - ld) - 1)).
      { replace (2 ^ la * 2) with (2 ^ (la + 1))
          by (rewrite Z.pow_add_r by lia; reflexivity).
        rewrite <- Z.pow_add_r by lia. f_equal. lia. }
      pose proof (pow2_pos (- (la - ld) - 1) ltac:(lia)) as Pk.
      assert (a * 2 ^ (- (la - ld) - 1) < 2 ^ la * 2 * 2 ^ (- (la - ld) - 1))
        by (apply Z.mul_lt_mono_pos_r; lia).
      lia.
  - split.
    + destruct (Z.le_gt_cases 1 (la - ld)) as [Hk|Hk].
      * rewrite (Z.max_r 0 (la - ld - 1)) by lia.
        rewrite (Z.max_l 0 (- (la - ld - 1))) by lia. change (2 ^ 0) with 1.
        assert (E : 2 ^ la = 2 ^ ld * 2 * 2 ^ (la - ld - 1)).
        { replace (2 ^ ld * 2) with (2 ^ (ld + 1))
            by (rewrite Z.pow_add_r by lia; reflexivity).
          rewrite <- Z.pow_add_r by lia. f_equal. lia. }
        pose proof (pow2_pos (la - ld - 1) ltac:(lia)) as Pk.
        assert (d * 2 ^ (la - ld - 1) <= 2 ^ ld * 2 * 2 ^ (la - ld - 1))
          by (apply Z.mul_le_mono_nonneg_r; lia).
        lia.
      * rewrite (Z.max_l 0 (la - ld - 1)) by lia.
        rewrite (Z.max_r 0 (- (la - ld - 1))) by lia. change (2 ^ 0) with 1.
        assert (E : 2 ^ la * 2 ^ (- (la - ld - 1)) = 2 ^ ld * 2).
        { rewrite <- Z.pow_add_r by lia.
          replace (2 ^ ld * 2) with (2 ^ (ld + 1))
            by (rewrite Z.pow_add_r by lia; reflexivity).
          f_equal. lia. }
        pose proof (pow2_pos (- (la - ld - 1)) ltac:(lia)) as Pk.
        assert (2 ^ la * 2 ^ (- (la - ld - 1)) <= a * 2 ^ (- (la - ld - 1)))
          by (apply Z.mul_le_mono_nonneg_r; lia).
        lia.
    + replace (- (la - ld - 1) - 1) with (- (la - ld)) by lia.
      replace (la - ld - 1 + 1) with (la - ld) by lia. lia.
Qed.

(** Scaled to 53 bits: the quotient lies between [2 ^ 52] and [2 ^ 53]. *)
Lemma scaled_53_bits (a d : Z) :
  0 < a -> 0 < d ->
  let e := floor_log2 a d - 52 in
  2 ^ 52 * (d * 2 ^ Z.max 0 e) <= a * 2 ^ Z.max 0 (- e).
Proof.
  intros Ha Hd e. subst e.
  destruct (floor_log2_spec a d Ha Hd) as [Hlo _].
  set (l := floor_log2 a d) in *.
  destruct (Z.le_gt_cases 52 l) as [H52|H52].
  - rewrite (Z.max_r 0 (l - 52)), (Z.max_l 0 (- (l - 52))) by lia.
    rewrite (Z.max_r 0 l), (Z.max_l 0 (- l)) in Hlo by lia.
    replace l with (52 + (l - 52)) in Hlo at 1 by lia.
    rewrite Z.pow_add_r in Hlo by lia. lia.
  - rewrite (Z.max_l 0 (l - 52)), (Z.max_r 0 (- (l - 52))) by lia.
    change (2 ^ 0) with 1.
    destruct (Z.le_gt_cases 0 l) as [H0|H0].
    + rewrite (Z.max_r 0 l), (Z.max_l 0 (- l)) in Hlo by lia.
      change (2 ^ 0) with 1 in Hlo.
      assert (E : 2 ^ 52 = 2 ^ l * 2 ^ (- (l - 52))).
      { rewrite <- Z.pow_add_r by lia. f_equal. lia. }
      pose proof (pow2_pos (- (l - 52)) ltac:(lia)) as Pk.
      assert (d * 2 ^ l * 2 ^ (- (l - 52)) <= a * 2 ^ (- (l - 52)))
        by (apply Z.mul_le_mono_nonneg_r; lia).
      rewrite E. lia.
    + rewrite (Z.max_l 0 l), (Z.max_r 0 (- l)) in Hlo by lia.
      change (2 ^ 0) with 1 in Hlo.
      assert (E : 2 ^ (- (l - 52)) = 2 ^ (- l) * 2 ^ 52).
      { rewrite <- Z.pow_add_r by lia. f_equal. lia. }
      rewrite E.
      assert (d * 1 * 2 ^ 52 <= a * 2 ^ (- l) * 2 ^ 52)
        by (apply Z.mul_le_mono_nonneg_r; lia).
      lia.
Qed.

(** The float nearest to a positive rational is within a relative error
    of [2 ^ -53]. *)
Lemma to_binary64_near (q : Q) :
  (0 < q)%Q ->
  (q * (1 - (1 # 2 ^ 53)) <= to_binary64 q)%Q /\
  (to_binary64 q <= q * (1 + (1 # 2 ^ 53)))%Q.
Proof.
  destruct q as [n d]. unfold Qlt. cbn [Qnum Qden]. intros Hn.
  rewrite Z.mul_1_r in Hn. change (0 * Z.pos d) with 0 in Hn.
  unfold to_binary64. cbn [Qnum Qden].
  destruct (Z.eqb_spec n 0) as [E|_]; [lia|].
  rewrite (Z.abs_eq n), (Z.sgn_pos n) by lia.
  pose proof (scaled_53_bits n (Z.pos d) Hn (Pos2Z.is_pos d)) as Hs.
  cbv zeta in Hs.
  set (e := floor_log2 n (Z.pos d) - 52) in *.
  assert (HB : 0 < Z.pos d * 2 ^ Z.max 0 e).
  { apply Z.mul_pos_pos; [apply Pos2Z.is_pos | apply pow2_pos; lia]. }
  pose proof (div_half_even_near (n * 2 ^ Z.max 0 (- e))
                (Z.pos d * 2 ^ Z.max 0 e) HB) as Hm.
  set (m := div_half_even (n * 2 ^ Z.max 0 (- e)) (Z.pos d * 2 ^ Z.max 0 e))
    in *.
  change (2 ^ 52) with 4503599627370496 in Hs.
  destruct (Z.leb_spec 0 e) as [He|He].
  - rewrite (Z.max_r 0 e), (Z.max_l 0 (- e)) in * by lia.
    change (2 ^ 0) with 1 in *.
    set (P := 2 ^ e) in *. clearbody m P.
    unfold Qle, Qmult, Qminus, Qplus, Qopp, inject_Z. cbn [Qnum Qden].
    change (Z.pos (2 ^ 53)) with 9007199254740992.
    rewrite ?Pos2Z.inj_mul. change (Z.pos (2 ^ 53)) with 9007199254740992.
    split; nia.
  - rewrite (Z.max_l 0 e), (Z.max_r 0 (- e)) in * by lia.
    change (2 ^ 0) with 1 in *.
    pose proof (pow2_pos (- e) ltac:(lia)) as HP.
    set (P := 2 ^ (- e)) in *. clearbody m P.
    unfold Qle, Qmult, Qminus, Qplus, Qopp. cbn [Qnum Qden].
    rewrite ?Pos2Z.inj_mul, Z2Pos.id by exact HP.
    change (Z.pos (2 ^ 53)) with 9007199254740992.
    split; nia.
Qed.

Lemma int_to_real_small (n : Z) :
  Z.abs n <= 2 ^ 53 -> int_to_real n = inject_Z n.
Proof.
  intros H. unfold int_to_real. apply Z.leb_le in H. now rewrite H.
Qed.

(** The two bounds of the band are within a relative error of [2 ^ -52]
    of [hp * 8 / 10] and [hp * 12 / 10]. *)
Lemma band_near (n : Z) :
  0 < n <= 2 ^ 53 ->
  (inject_Z n * (8 # 10) * (1 - (1 # 2 ^ 52)) <= band_min n)%Q /\
  (band_min n <= inject_Z n * (8 # 10) * (1 + (1 # 2 ^ 52)))%Q /\
  (inject_Z n * (12 # 10) * (1 - (1 # 2 ^ 52)) <= band_max n)%Q /\
  (band_max n <= inject_Z n * (12 # 10) * (1 + (1 # 2 ^ 52)))%Q.
Proof.
  intros [Hn Hn53]. unfold band_min, band_max, float_mul.
  rewrite (int_to_real_small n) by lia.
  assert (Hq : (0 < inject_Z n)%Q).
  { unfold Qlt, inject_Z. simpl. lia. }
  assert (H8 : (0 < inject_Z n * float_0_8)%Q).
  { apply Qmult_lt_0_compat; [exact Hq | reflexivity]. }
  assert (H12 : (0 < inject_Z n * float_1_2)%Q).
  { apply Qmult_lt_0_compat; [exact Hq | reflexivity]. }
  destruct (to_binary64_near _ H8) as [L8 U8].
  destruct (to_binary64_near _ H12) as [L12 U12].
  set (x := inject_Z n) in *. clearbody x.
  set (b8 := to_binary64 (x * float_0_8)) in *. clearbody b8.
  set (b12 := to_binary64 (x * float_1_2)) in *. clearbody b12.
  unfold float_0_8 in *. unfold float_1_2 in *.
  change (2 ^ 53)%positive with 9007199254740992%positive in *.
  change (2 ^ 52)%positive with 4503599627370496%positive.
  repeat split; lra.
Qed.

End Binary64Facts.

(** ** analyze-hp-matches.py *)

Section HpMatchClaims.

Import AnalyzeHpMatches.

Lemma Qle_bool_total (a b : Q) : Qle_bool a b = true \/ Qle_bool b a = true.
Proof.
  rewrite !Qle_bool_iff. destruct (Qlt_le_dec a b) as [H|H]; [left|right]; lra.
Qed.

Lemma Sorted_weaken {A : Type} (R R' : A -> A -> Prop) (l : list A) :
  (forall a b, R a b -> R' a b) -> Sorted R l -> Sorted R' l.
Proof.
  intros HR. induction 1 as [|a l Hl IH Ha]; constructor; trivial.
  destruct Ha; constructor; auto.
Qed.

Lemma candidates_In (p : string) (mobs : list mob) (lo hi : Q) (m : mob) :
  In m (candidates p mobs lo hi) <->
  In m mobs /\ (lo <= hp m)%Q /\ (hp m <= hi)%Q /\ planet m = p.
Proof.
  unfold candidates, between. rewrite filter_In, !andb_true_iff.
  rewrite !Qle_bool_iff, String.eqb_eq. tauto.
Qed.

(** C5, as the code has it.  For any bounds, planet and limit the HP
    query returns catalog entries of the planet whose HP lies between
    the two bounds, both included; a mob of the planet whose HP is a bound
    passes the filter, and the result has as many entries as the limit
    allows, or all the candidates; the entries are in non-decreasing order
    of [ABS(hp - observed)].  The script runs it for Calypso with limit 5,
    and its bounds are the float products [hp * 0.8] and [hp * 1.2]: for
    an observed HP up to [2 ^ 53] each is within a relative error of
    [2 ^ -52] of [hp * 8 / 10] and [hp * 12 / 10], not equal to them.  So
    the HP of a returned mob lies in the band of tolerance 0.2 up to that
    error, and a mob at the very edge of the band can be left out. *)
Theorem matches_lie_in_the_band_nearest_first
    (mobs : list mob) (p : string) (limit : nat)
    (min_hp max_hp observed : Q) :
  let result := select_matches p limit mobs min_hp max_hp observed in
  (forall m,
      In m result ->
      In m mobs /\ planet m = p /\
      (min_hp <= hp m)%Q /\ (hp m <= max_hp)%Q) /\
  Sorted (fun a b => (Qabs (hp a - observed) <= Qabs (hp b - observed))%Q)
         result /\
  List.length result
  = Nat.min limit (List.length (candidates p mobs min_hp max_hp)) /\
  (forall m,
      In m mobs -> planet m = p ->
      (min_hp <= hp m)%Q -> (hp m <= max_hp)%Q ->
      In m (candidates p mobs min_hp max_hp) /\
      ((List.length (candidates p mobs min_hp max_hp) <= limit)%nat ->
       In m result)) /\
  (forall n,
      matches mobs n =
      select_matches "Calypso" 5 mobs
                     (float_mul (int_to_real n) float_0_8)
                     (float_mul (int_to_real n) float_1_2) (inject_Z n)) /\
  (forall n,
      0 < n <= 2 ^ 53 ->
      let lo := float_mul (int_to_real n) float_0_8 in
      let hi := float_mul (int_to_real n) float_1_2 in
      (inject_Z n * (8 # 10) * (1 - (1 # 2 ^ 52)) <= lo)%Q /\
      (lo <= inject_Z n * (8 # 10) * (1 + (1 # 2 ^ 52)))%Q /\
      (inject_Z n * (12 # 10) * (1 - (1 # 2 ^ 52)) <= hi)%Q /\
      (hi <= inject_Z n * (12 # 10) * (1 + (1 # 2 ^ 52)))%Q /\
      forall m,
        In m (matches mobs n) ->
        (inject_Z n * (8 # 10) * (1 - (1 # 2 ^ 52)) <= hp m)%Q /\
        (hp m <= inject_Z n * (12 # 10) * (1 + (1 # 2 ^ 52)))%Q).
Proof.
  intros result.
  assert (Hin : forall q lim lo hi obs m,
             In m (select_matches q lim mobs lo hi obs) ->
             In m mobs /\ planet m = q /\ (lo <= hp m)%Q /\ (hp m <= hi)%Q).
  { intros q lim lo hi obs m H. unfold select_matches in H.
    apply In_firstn, order_by_In, candidates_In in H. tauto. }
  split; [apply Hin|]. split; [|split; [|split; [|split]]].
  - unfold result, select_matches. apply Sorted_firstn.
    apply (Sorted_weaken
             (fun a b => Qle_bool (delta observed a) (delta observed b) = true)).
    + intros a b. unfold delta. apply Qle_bool_iff.
    + apply order_by_Sorted, Qle_bool_total.
  - unfold result, select_matches.
    now rewrite length_firstn, order_by_length.
  - intros m Hm Hp Hlo Hhi.
    assert (Hc : In m (candidates p mobs min_hp max_hp)).
    { apply candidates_In. auto. }
    split; [exact Hc|]. intros Hshort.
    unfold result, select_matches.
    rewrite firstn_all2 by (now rewrite order_by_length).
    now apply order_by_In.
  - reflexivity.
  - intros n Hn lo hi.
    destruct (band_near n Hn) as (L8 & U8 & L12 & U12).
    fold (band_min n) in lo. fold (band_max n) in hi.
    split; [exact L8|]. split; [exact U8|].
    split; [exact L12|]. split; [exact U12|].
    intros m Hm. apply Hin in Hm as (_ & _ & Hlo & Hhi).
    split; [now apply (Qle_trans _ (band_min n)) |
            now apply (Qle_trans _ (band_max n))].
Qed.

(** C5, counterexample.  The observed HP is 58, the catalog holds one mob
    of Calypso whose HP is 46.4, the lower edge [58 * (1 - 0.2)] of the
    band.  The script computes the lower bound [58 * 0.8] as the float
    46.400000000000005..., above 46.4 and above the float nearest to 46.4:
    the mob at the edge is not returned. *)
Lemma mob_at_the_band_edge_is_left_out :
  (hp edge_mob == inject_Z 58 * (1 - (2 # 10)))%Q /\
  planet edge_mob = "Calypso" /\
  matches [edge_mob] 58 = [] /\
  (band_min 58 == 1632554864921805 # 35184372088832)%Q /\
  (hp edge_mob < band_min 58)%Q /\
  (to_binary64 (hp edge_mob) < band_min 58)%Q.
Proof. repeat split. Qed.

(** X4.  The scenario of the documentation: with one mob of 100 HP on
    Calypso in the catalog, an observed HP of 110 matches it, at a
    difference of 10, and an observed HP of 200 matches nothing. *)
Theorem hp_match_scenario :
  let foul :=
    {| name := "Foul"; hp := 100; maturity := "Mature"; planet := "Calypso" |}
  in
  matches [foul] 110 = [foul] /\
  (delta 110 foul == 10)%Q /\
  matches [foul] 200 = [].
Proof. repeat split. Qed.

End HpMatchClaims.

(** ** read-session.py *)

Section SessionReportFacts.

Import ReadSession.

Variable loads : string -> option json.

Lemma seq_print {B : Type} (text : string) (args : list json)
    (k : unit -> script B) (w : world) :
  seq (print text args) k w = k tt (prints [Line text args] w).
Proof. reflexivity. Qed.

Lemma seq_execute_open {A B : Type} (answer : A) (k : A -> script B) (w : world) :
  conn_open w = true -> seq (execute answer) k w = k answer w.
Proof. intros H. unfold seq, execute. now rewrite H. Qed.

(** A statement on a closed connection raises and returns no row. *)
Lemma execute_closed {A : Type} (answer : A) (w : world) :
  conn_open w = false -> execute answer w = Raised ProgrammingError w.
Proof. intros H. unfold execute. now rewrite H. Qed.

Lemma seq_execute_closed {A B : Type} (answer : A) (k : A -> script B)
    (w : world) :
  conn_open w = false -> seq (execute answer) k w = Raised ProgrammingError w.
Proof. intros H. unfold seq. now rewrite execute_closed. Qed.

Lemma prints_prints (l1 l2 : list line) (w : world) :
  prints l2 (prints l1 w) = prints (l1 ++ l2) w.
Proof. unfold prints. simpl. now rewrite app_assoc. Qed.

Lemma report_stats_absent (stats_json : json) (w : world) :
  truthy stats_json = false ->
  report_stats loads stats_json w
  = Returned tt (prints [Line "No stats in database!" []] w).
Proof. intros H. unfold report_stats. now rewrite H. Qed.

Lemma event_breakdown_empty (db : database) (sid : sqlval) :
  events_of db sid = [] -> event_breakdown db sid = [].
Proof. intros H. unfold event_breakdown. now rewrite H. Qed.

Lemma inspect_closed (db : database) (w : world) :
  conn_open w = false -> inspect loads db w = Raised ProgrammingError w.
Proof. intros H. unfold inspect. now apply seq_execute_closed. Qed.

Lemma report_loadout_closed (db : database) (w : world) :
  conn_open w = false -> report_loadout loads db w = Raised ProgrammingError w.
Proof. intros H. unfold report_loadout. now apply seq_execute_closed. Qed.

End SessionReportFacts.

Section SessionReportClaims.

Import ReadSession.

(** C9, as the code has it.  The report does not fail on missing data, and
    it says so rather than printing zeros: for a session whose [stats] cell
    is empty (NULL, or an empty text) it prints "No stats in database!" and
    no figure.  Zeros stand in for the keys that a stats object lacks: each
    figure is the field of that object, 0 when the field is absent, so the
    kill count is what the stats say, not a count of events.  A session
    with no event has an empty breakdown and event totals of 0.  Together:
    the report of a session without stats and without events runs to its
    end and prints exactly the eight lines below. *)
Theorem summary_tolerates_missing_stats_and_events
    (loads : string -> option json) (db : database) :
  (forall stats_json w,
      truthy stats_json = false ->
      report_stats loads stats_json w
      = Returned tt (prints [Line "No stats in database!" []] w)) /\
  (forall text fields loot ammo profit w,
      truthy (JStr text) = true ->
      loads text = Some (JObj fields) ->
      format_2f (field_or_zero "totalLootTTValue" fields) = Ok loot ->
      format_2f (field_or_zero "totalAmmoCost" fields) = Ok ammo ->
      format_2f (field_or_zero "profit" fields) = Ok profit ->
      report_stats loads (JStr text) w
      = Returned tt
          (prints [Line "Stats (from DB):" [];
                   Line "  Kills: {}" [field_or_zero "totalKills" fields];
                   Line "  Loot Value: {:.2f} PED" [loot];
                   Line "  Ammo Cost: {:.2f} PED" [ammo];
                   Line "  Profit: {:.2f} PED" [profit]] w)) /\
  (forall sid w,
      events_of db sid = [] ->
      event_breakdown db sid = [] /\
      count_events (event_breakdown db sid) w = Returned (0, 0) w) /\
  (forall s w,
      conn_open w = true ->
      recent_sessions db 1 = [s] ->
      truthy (to_python (stats s)) = false ->
      events_of db (id s) = [] ->
      summarize loads db w
      = Returned tt
          (prints [Line "Most Recent Session: {}" [to_python (name s)];
                   Line "  ID: {}" [to_python (id s)];
                   Line "  Loadout: {}"
                        [or_else (to_python (loadout_id s)) (JStr "NONE")];
                   Line "  Duration: {}s" [to_python (duration s)];
                   Line "No stats in database!" [];
                   Line "Event Breakdown:" [];
                   Line "Total Events: {}" [JInt 0];
                   Line "GPS Events: {}" [JInt 0]] w)).
Proof.
  split; [|split; [|split]].
  - intros stats_json w H. now apply report_stats_absent.
  - intros text fields loot ammo profit w Ht Hl Hloot Hammo Hprofit.
    unfold report_stats. rewrite Ht.
    unfold seq, eval, loads_cell, print, get, prints, field_or_zero in *.
    rewrite Hl. cbn [Py.bind]. rewrite Hloot, Hammo, Hprofit.
    simpl. rewrite <- !app_assoc. reflexivity.
  - intros sid w H. rewrite (event_breakdown_empty db sid H).
    split; reflexivity.
  - intros s w Hopen Hs Hstats Hev.
    unfold summarize. rewrite seq_execute_open by exact Hopen. rewrite Hs.
    rewrite !seq_print.
    unfold seq at 1. rewrite (report_stats_absent loads _ _ Hstats).
    rewrite seq_execute_open by exact Hopen.
    rewrite (event_breakdown_empty db _ Hev).
    rewrite seq_print. unfold seq at 1. cbn [count_events for_each ret].
    rewrite !seq_print. cbn [Z.ltb Z.compare ret].
    rewrite !prints_prints. reflexivity.
Qed.

Lemma summary_tolerates_missing_stats_and_events_witness :
  summarize (fun _ => None) sample_database connected
  = Returned tt (prints sample_report connected).
Proof.
  apply (proj2 (proj2 (proj2 (summary_tolerates_missing_stats_and_events
                                (fun _ => None) sample_database)))
           sample_session connected);
    reflexivity.
Defined.

(** C9, counterexample.  The most recent session was recorded without
    stats and without events.  The report ends normally, but it shows no
    zero for the kills, the loot, the ammunition or the profit: it prints
    no figure at all. *)
Lemma session_without_stats_reports_no_zeros :
  summarize (fun _ => None) sample_database connected
  = Returned tt {| conn_open := true; printed := sample_report |} /\
  ~ In (Line "  Kills: {}" [JInt 0]) sample_report /\
  ~ In (Line "  Loot Value: {:.2f} PED" [JFloat 0]) sample_report /\
  ~ In (Line "  Ammo Cost: {:.2f} PED" [JFloat 0]) sample_report /\
  ~ In (Line "  Profit: {:.2f} PED" [JFloat 0]) sample_report.
Proof.
  split; [reflexivity|].
  repeat split; simpl; intuition discriminate.
Qed.

(** C10.  A statement on a closed connection raises ProgrammingError.  The
    script closes the connection at line 80 and goes on with the cursor:
    whenever the report of the most recent session reaches its end, the run
    prints "Done!" and dies on the next statement, the schema inspection of
    line 84, printing nothing more; the listing of the recent sessions and
    the loadout read, which come after it, would raise in the same way.  No
    run of the script reaches its last line. *)
Theorem statements_after_close_always_raise
    (loads : string -> option json) (db : database) :
  (forall (A : Type) (answer : A) (w : world),
      conn_open w = false -> execute answer w = Raised ProgrammingError w) /\
  (forall w w',
      summarize loads db w = Returned tt w' ->
      main loads db w
      = Raised ProgrammingError (prints [Line "Done!" []] (closed w'))) /\
  (forall w,
      conn_open w = false ->
      inspect loads db w = Raised ProgrammingError w /\
      seq (execute (recent_sessions db 3)) (fun _ => ret tt) w
      = Raised ProgrammingError w /\
      report_loadout loads db w = Raised ProgrammingError w) /\
  (forall w u w', main loads db w <> Returned u w').
Proof.
  split; [|split; [|split]].
  - intros A answer w. apply execute_closed.
  - intros w w' H. unfold main. unfold seq at 1. rewrite H.
    unfold seq at 1. cbn [close]. rewrite seq_print.
    now apply inspect_closed.
  - intros w H. split; [now apply inspect_closed|].
    split; [now apply seq_execute_closed | now apply report_loadout_closed].
  - intros w u w' H. unfold main in H. unfold seq at 1 in H.
    destruct (summarize loads db w) as [[] w1|e w1|w1]; discriminate.
Qed.

Lemma statements_after_close_always_raise_witness :
  main (fun _ => None) sample_database connected
  = Raised ProgrammingError
      (prints [Line "Done!" []] (closed (prints sample_report connected))).
Proof.
  apply (proj1 (proj2 (statements_after_close_always_raise
                         (fun _ => None) sample_database))
               connected (prints sample_report connected)).
  reflexivity.
Defined.

End SessionReportClaims.

(** * Further properties *)

(** ** Sorting, LIMIT and DISTINCT *)

Section OrderByMore.

Context {A K : Type} (key : A -> K) (leb : K -> K -> bool).

Hypothesis leb_total : forall a b, leb a b = true \/ leb b a = true.
Hypothesis leb_trans :
  forall a b c, leb a b = true -> leb b c = true -> leb a c = true.

Let le_key (x y : A) : Prop := leb (key x) (key y) = true.

Lemma insert_sorted_Permutation (x : A) (l : list A) :
  Permutation (insert_sorted key leb x l) (x :: l).
Proof.
  induction l as [|y l IH]; simpl; [reflexivity|].
  destruct (leb (key x) (key y)); [reflexivity|].
  rewrite IH. apply perm_swap.
Qed.

Lemma order_by_Permutation (l : list A) : Permutation (order_by key leb l) l.
Proof.
  induction l as [|x l IH]; simpl; [reflexivity|].
  rewrite insert_sorted_Permutation. now constructor.
Qed.

Lemma order_by_StronglySorted (l : list A) :
  StronglySorted le_key (order_by key leb l).
Proof.
  apply Sorted_StronglySorted.
  - intros a b c. apply leb_trans.
  - apply order_by_Sorted, leb_total.
Qed.

End OrderByMore.

Lemma StronglySorted_firstn_skipn {A : Type} (R : A -> A -> Prop) (n : nat)
    (l : list A) (a b : A) :
  StronglySorted R l -> In a (firstn n l) -> In b (skipn n l) -> R a b.
Proof.
  intros H. revert n. induction H as [|x l Hl IH Hx]; intros n Ha Hb.
  - destruct n; contradiction.
  - destruct n as [|n]; [contradiction|]. simpl in Ha, Hb.
    destruct Ha as [<-|Ha].
    + rewrite Forall_forall in Hx. apply Hx.
      rewrite <- (firstn_skipn n l). apply in_or_app. now right.
    + now apply (IH n).
Qed.

Lemma StronglySorted_firstn {A : Type} (R : A -> A -> Prop) (n : nat)
    (l : list A) :
  StronglySorted R l -> StronglySorted R (firstn n l).
Proof.
  intros H. revert n. induction H as [|x l Hl IH Hx]; intros [|n]; simpl;
    try constructor.
  - apply IH.
  - rewrite Forall_forall in *. intros y Hy. apply Hx.
    now apply (In_firstn n).
Qed.

Lemma string_compare_refl (s : string) : String.compare s s = Eq.
Proof.
  induction s as [|c s IH]; simpl; [reflexivity|].
  unfold Ascii.compare. now rewrite N.compare_refl.
Qed.

Lemma string_compare_le_trans (a b c : string) :
  String.compare a b <> Gt -> String.compare b c <> Gt ->
  String.compare a c <> Gt.
Proof.
  revert b c. induction a as [|x a IH]; intros [|y b] [|z c]; simpl;
    try congruence.
  unfold Ascii.compare.
  destruct (N.compare_spec (N_of_ascii x) (N_of_ascii y)) as [E1|L1|G1];
    destruct (N.compare_spec (N_of_ascii y) (N_of_ascii z)) as [E2|L2|G2];
    try congruence; intros H1 H2.
  - rewrite E1, E2, N.compare_refl. now apply (IH b c).
  - rewrite E1. now rewrite (proj2 (N.compare_lt_iff _ _) L2).
  - rewrite <- E2. now rewrite (proj2 (N.compare_lt_iff _ _) L1).
  - rewrite (proj2 (N.compare_lt_iff _ _) (N.lt_trans _ _ _ L1 L2)). congruence.
Qed.

Lemma string_compare_order : total_preorder String.compare.
Proof.
  split.
  - intros a b. apply String.compare_antisym.
  - apply string_compare_le_trans.
Qed.

Lemma Zcompare_as_Q (x y : Z) : (x ?= y) = (inject_Z x ?= inject_Z y)%Q.
Proof. unfold Qcompare. simpl. now rewrite !Z.mul_1_r. Qed.

Lemma Qcompare_le_trans (p q r : Q) :
  (p ?= q)%Q <> Gt -> (q ?= r)%Q <> Gt -> (p ?= r)%Q <> Gt.
Proof.
  destruct (Qcompare_spec p q), (Qcompare_spec q r), (Qcompare_spec p r);
    try congruence; intros _ _; exfalso; lra.
Qed.

Lemma sqlite_compare_order : total_preorder Sqlite.compare.
Proof.
  split.
  - intros [|x|p|s] [|y|q|t]; simpl; try reflexivity.
    + apply Z.compare_antisym.
    + now rewrite <- Qcompare_antisym.
    + now rewrite <- Qcompare_antisym.
    + now rewrite <- Qcompare_antisym.
    + apply String.compare_antisym.
  - intros [|x|p|s] [|y|q|t] [|z|r|u]; simpl; try congruence;
      rewrite ?Zcompare_as_Q;
      try apply Qcompare_le_trans; apply string_compare_le_trans.
Qed.

Section PreorderFacts.
Context {A : Type} (cmp : A -> A -> comparison) (O : total_preorder cmp).

Lemma cmp_refl (a : A) : cmp a a = Eq.
Proof.
  pose proof (cmp_antisym cmp O a a) as H. destruct (cmp a a); simpl in H;
    congruence.
Qed.

Lemma cmp_Gt_Lt (a b : A) : cmp a b = Gt <-> cmp b a = Lt.
Proof.
  rewrite (cmp_antisym cmp O a b). destruct (cmp a b); simpl; intuition congruence.
Qed.

Lemma cmp_Eq_sym (a b : A) : cmp a b = Eq -> cmp b a = Eq.
Proof. intros H. rewrite (cmp_antisym cmp O a b), H. reflexivity. Qed.

Lemma cmp_lt_le_trans (a b c : A) :
  cmp a b = Lt -> cmp b c <> Gt -> cmp a c = Lt.
Proof.
  intros Hab Hbc.
  assert (Hac : cmp a c <> Gt).
  { apply (cmp_le_trans cmp O a b c); congruence. }
  destruct (cmp a c) eqn:E; try congruence.
  exfalso. apply cmp_Eq_sym in E.
  assert (Hba : cmp b a <> Gt).
  { apply (cmp_le_trans cmp O b c a); congruence. }
  apply Hba. now apply cmp_Gt_Lt.
Qed.

Lemma cmp_le_lt_trans (a b c : A) :
  cmp a b <> Gt -> cmp b c = Lt -> cmp a c = Lt.
Proof.
  intros Hab Hbc.
  assert (Hac : cmp a c <> Gt).
  { apply (cmp_le_trans cmp O a b c); congruence. }
  destruct (cmp a c) eqn:E; try congruence.
  exfalso. apply cmp_Eq_sym in E.
  assert (Hcb : cmp c b <> Gt).
  { apply (cmp_le_trans cmp O c a b); congruence. }
  apply Hcb. now apply cmp_Gt_Lt.
Qed.

Lemma cmp_Eq_trans (a b c : A) : cmp a b = Eq -> cmp b c = Eq -> cmp a c = Eq.
Proof.
  intros Hab Hbc.
  assert (H1 : cmp a c <> Gt).
  { apply (cmp_le_trans cmp O a b c); congruence. }
  assert (H2 : cmp c a <> Gt).
  { apply (cmp_le_trans cmp O c b a); rewrite cmp_Eq_sym; congruence. }
  destruct (cmp a c) eqn:E; try congruence.
  exfalso. apply H2. now apply cmp_Gt_Lt.
Qed.

Let lt (a b : A) : Prop := cmp a b = Lt.

Lemma add_distinct_In (x y : A) (l : list A) :
  In y (add_distinct cmp x l) -> y = x \/ In y l.
Proof.
  induction l as [|z l IH]; simpl; [intuition congruence|].
  destruct (cmp x z); simpl; intuition congruence.
Qed.

Lemma add_distinct_Forall (P : A -> Prop) (x : A) (l : list A) :
  P x -> Forall P l -> Forall P (add_distinct cmp x l).
Proof.
  intros Hx Hl. apply Forall_forall. intros y Hy.
  apply add_distinct_In in Hy as [->|Hy]; [exact Hx|].
  rewrite Forall_forall in Hl. auto.
Qed.

Lemma add_distinct_sorted (x : A) (l : list A) :
  StronglySorted lt l -> StronglySorted lt (add_distinct cmp x l).
Proof.
  induction 1 as [|z l Hl IH Hz]; simpl.
  - repeat constructor.
  - destruct (cmp x z) eqn:E.
    + now constructor.
    + constructor; [now constructor|]. constructor; [exact E|].
      eapply Forall_impl; [|exact Hz]. intros a Ha. unfold lt in *.
      apply (cmp_lt_le_trans x z a E). congruence.
    + constructor; [exact IH|]. apply add_distinct_Forall; [|exact Hz].
      now apply cmp_Gt_Lt.
Qed.

Lemma add_distinct_has (x : A) (l : list A) :
  exists y, In y (add_distinct cmp x l) /\ cmp x y = Eq.
Proof.
  induction l as [|z l IH]; simpl.
  - exists x. split; [now left | apply cmp_refl].
  - destruct (cmp x z) eqn:E.
    + exists z. split; [now left | exact E].
    + exists x. split; [now left | apply cmp_refl].
    + destruct IH as (y & Hy & Ey). exists y. split; [now right | exact Ey].
Qed.

Lemma add_distinct_keeps (x y : A) (l : list A) :
  In y l -> In y (add_distinct cmp x l).
Proof.
  induction l as [|z l IH]; simpl; [tauto|].
  destruct (cmp x z); simpl; intuition.
Qed.

Lemma distinct_sorted_sorted (l : list A) :
  StronglySorted lt (distinct_sorted cmp l).
Proof.
  induction l as [|x l IH]; simpl; [constructor|].
  now apply add_distinct_sorted.
Qed.

Lemma distinct_sorted_In (y : A) (l : list A) :
  In y (distinct_sorted cmp l) -> In y l.
Proof.
  induction l as [|x l IH]; simpl; [tauto|].
  intros H. apply add_distinct_In in H. intuition.
Qed.

Lemma distinct_sorted_has (x : A) (l : list A) :
  In x l -> exists y, In y (distinct_sorted cmp l) /\ cmp x y = Eq.
Proof.
  induction l as [|z l IH]; simpl; [tauto|].
  intros [->|H].
  - apply add_distinct_has.
  - destruct (IH H) as (y & Hy & Ey). exists y.
    split; [now apply add_distinct_keeps | exact Ey].
Qed.

Lemma lt_sorted_NoDup (l : list A) : StronglySorted lt l -> NoDup l.
Proof.
  induction 1 as [|z l Hl IH Hz]; constructor; [|exact IH].
  intros Hin. rewrite Forall_forall in Hz. specialize (Hz z Hin).
  unfold lt in Hz. rewrite cmp_refl in Hz. discriminate.
Qed.

End PreorderFacts.

Section LimitFacts.

Context {A K : Type} (key : A -> K) (leb : K -> K -> bool).

Hypothesis leb_total : forall a b, leb a b = true \/ leb b a = true.
Hypothesis leb_trans :
  forall a b c, leb a b = true -> leb b c = true -> leb a c = true.

(** ORDER BY ... LIMIT n: the rows returned and the rows cut off make up the
    input, and every row returned comes, in the order, before every row cut
    off. *)
Lemma order_by_limit_top (n : nat) (l : list A) :
  Permutation
    (firstn n (order_by key leb l) ++ skipn n (order_by key leb l)) l /\
  forall a b,
    In a (firstn n (order_by key leb l)) ->
    In b (skipn n (order_by key leb l)) ->
    leb (key a) (key b) = true.
Proof.
  split.
  - rewrite firstn_skipn. apply order_by_Permutation.
  - intros a b Ha Hb.
    exact (StronglySorted_firstn_skipn _ n _ a b
             (order_by_StronglySorted key leb leb_total leb_trans l) Ha Hb).
Qed.

Lemma order_by_limit_all (n : nat) (l : list A) :
  (List.length l <= n)%nat -> skipn n (order_by key leb l) = [].
Proof. intros H. apply skipn_all2. now rewrite order_by_length. Qed.

End LimitFacts.

Lemma null_first_leb_trans (a b c : option Z) :
  null_first_leb a b = true -> null_first_leb b c = true ->
  null_first_leb a c = true.
Proof.
  destruct a as [x|], b as [y|], c as [z|]; simpl; try congruence.
  rewrite !Z.leb_le. lia.
Qed.

Lemma Qle_bool_trans (a b c : Q) :
  Qle_bool a b = true -> Qle_bool b c = true -> Qle_bool a c = true.
Proof. rewrite !Qle_bool_iff. apply Qle_trans. Qed.

Lemma sqlite_leb_total (a b : sqlval) :
  Sqlite.leb a b = true \/ Sqlite.leb b a = true.
Proof.
  unfold Sqlite.leb. rewrite (cmp_antisym _ sqlite_compare_order a b).
  destruct (Sqlite.compare a b); simpl; auto.
Qed.

Lemma sqlite_leb_trans (a b c : sqlval) :
  Sqlite.leb a b = true -> Sqlite.leb b c = true -> Sqlite.leb a c = true.
Proof.
  unfold Sqlite.leb. intros Hab Hbc.
  pose proof (cmp_le_trans _ sqlite_compare_order a b c) as H.
  destruct (Sqlite.compare a b), (Sqlite.compare b c), (Sqlite.compare a c);
    try reflexivity; try discriminate; exfalso; apply H; congruence.
Qed.

Lemma sqlite_geb_total (a b : sqlval) :
  Sqlite.leb b a = true \/ Sqlite.leb a b = true.
Proof. apply sqlite_leb_total. Qed.

Lemma sqlite_geb_trans (a b c : sqlval) :
  Sqlite.leb b a = true -> Sqlite.leb c b = true -> Sqlite.leb c a = true.
Proof. intros H1 H2. now apply (sqlite_leb_trans c b a). Qed.

(** ** The proximity queries: what LIMIT cuts off *)

Section ProximityMore.

Import ImportNexusSpawns.

Variable rt : runtime.

Lemma select_by_distance_rest (where_ : row -> bool) (ox oy : Q) (n : nat)
    (tbl : table) :
  exists rest : list row,
    Permutation (map fst (select_by_distance rt where_ ox oy n tbl) ++ rest)
                (filter where_ tbl) /\
    (forall e r,
        In e (select_by_distance rt where_ ox oy n tbl) -> In r rest ->
        null_first_leb (snd e) (distance rt ox oy r) = true) /\
    ((List.length (filter where_ tbl) <= n)%nat -> rest = []).
Proof.
  unfold select_by_distance.
  set (l := map (fun r => (r, distance rt ox oy r)) (filter where_ tbl)).
  destruct (order_by_limit_top snd null_first_leb null_first_leb_total
              null_first_leb_trans n l) as [Hperm Htop].
  exists (map fst (skipn n (order_by snd null_first_leb l))).
  split; [|split].
  - rewrite <- map_app.
    rewrite (Permutation_map fst Hperm). unfold l.
    rewrite map_map. cbn [fst]. now rewrite map_id.
  - intros e r He Hr. apply in_map_iff in Hr as (e' & <- & He').
    assert (Hin : In e' l).
    { apply (order_by_In snd null_first_leb).
      rewrite <- (firstn_skipn n). apply in_or_app. now right. }
    unfold l in Hin. apply in_map_iff in Hin as (r' & <- & _). cbn [fst].
    exact (Htop e _ He He').
  - intros Hlen. rewrite order_by_limit_all; [reflexivity|].
    unfold l. now rewrite length_map.
Qed.

(** X6.  The closest-Foul-spawns query of test-foul-parsing.py does not
    filter out rows without coordinates.  Such a row has a NULL distance,
    and NULL sorts first: as soon as one Foul row of Calypso lacks a
    coordinate, the first row of the "closest" listing is a row with no
    distance at all.  The LIMIT cuts off only rows that sort after the
    rows listed. *)
Theorem closest_foul_lists_rows_without_coordinates_first (tbl : table) :
  let qualifies := fun r =>
    eq_text (planet r) "Calypso" && like_contains rt (name r) "Foul" in
  (forall r,
      In r tbl -> qualifies r = true ->
      center_lon r = SNull \/ center_lat r = SNull ->
      exists r0 others,
        closest_foul_spawns rt tbl = (r0, None) :: others /\
        (center_lon r0 = SNull \/ center_lat r0 = SNull)) /\
  exists cut_off : list row,
    Permutation (map fst (closest_foul_spawns rt tbl) ++ cut_off)
                (filter qualifies tbl) /\
    (forall e r',
        In e (closest_foul_spawns rt tbl) -> In r' cut_off ->
        null_first_leb (snd e)
                       (distance rt (inject_Z 79085) (inject_Z 67537) r')
        = true) /\
    ((List.length (filter qualifies tbl) <= 5)%nat -> cut_off = []).
Proof.
  intros qualifies. split.
  - intros r Hr Hq Hnull.
    assert (Hd : distance rt (inject_Z 79085) (inject_Z 67537) r = None).
    { unfold distance, squared_distance.
      destruct Hnull as [-> | ->]; simpl; [reflexivity|].
      destruct (num_value rt (center_lon r)); reflexivity. }
    unfold closest_foul_spawns, select_by_distance. fold qualifies.
    set (l := map (fun r => (r, distance rt (inject_Z 79085)
                                         (inject_Z 67537) r))
                  (filter qualifies tbl)).
    assert (Hin : In (r, None) (order_by snd null_first_leb l)).
    { apply order_by_In. unfold l. apply in_map_iff. exists r.
      rewrite Hd. split; [reflexivity|]. now apply filter_In. }
    pose proof (order_by_StronglySorted snd null_first_leb
                  null_first_leb_total null_first_leb_trans l) as Hs.
    destruct (order_by snd null_first_leb l) as [|[r0 d0] rest] eqn:E;
      [contradiction|].
    assert (Hd0 : d0 = None).
    { destruct Hin as [[= _ ->]|Hin]; [reflexivity|].
      inversion Hs as [|? ? _ Hall]; subst.
      rewrite Forall_forall in Hall. specialize (Hall _ Hin). simpl in Hall.
      destruct d0; [discriminate | reflexivity]. }
    subst d0. exists r0, (firstn 4 rest). split; [reflexivity|].
    assert (Hin0 : In (r0, None) l).
    { apply (order_by_In snd null_first_leb). rewrite E. now left. }
    unfold l in Hin0. apply in_map_iff in Hin0 as (r1 & [= -> Hnone] & _).
    unfold distance, squared_distance in Hnone.
    destruct (center_lon r0) eqn:Elon; [now left | | |];
      (destruct (center_lat r0) eqn:Elat; [now right | | |]);
      simpl in Hnone; discriminate.
  - unfold closest_foul_spawns. fold qualifies.
    apply select_by_distance_rest.
Qed.

End ProximityMore.

(** ** The proximity query and the true distance *)


Section ProximityOverReals.

Import Reals Qreals Lra.
Import ImportNexusSpawns.






End ProximityOverReals.

(** ** analyze-hp-matches.py: what LIMIT cuts off, and the loop *)

Section HpMatchMore.

Import AnalyzeHpMatches.

(** X7.  The HP query leaves out no closer match.  The mobs returned and
    the mobs cut off by the LIMIT are together the mobs of the planet in
    the band; a mob returned is at least as close to the observed HP as any
    mob cut off; and nothing is cut off when at most [limit] mobs are in
    the band.  The script asks for the five closest on Calypso, between
    the float products [hp * 0.8] and [hp * 1.2]. *)
Theorem matches_cut_off_only_farther_mobs
    (p : string) (limit : nat) (mobs : list mob) (min_hp max_hp observed : Q) :
  exists cut_off : list mob,
    Permutation (select_matches p limit mobs min_hp max_hp observed ++ cut_off)
                (candidates p mobs min_hp max_hp) /\
    (forall m m',
        In m (select_matches p limit mobs min_hp max_hp observed) ->
        In m' cut_off ->
        (Qabs (hp m - observed) <= Qabs (hp m' - observed))%Q) /\
    ((List.length (candidates p mobs min_hp max_hp) <= limit)%nat ->
     cut_off = []) /\
    forall n,
      matches mobs n =
      select_matches "Calypso" 5 mobs
                     (float_mul (int_to_real n) float_0_8)
                     (float_mul (int_to_real n) float_1_2) (inject_Z n).
Proof.
  unfold select_matches.
  set (l := candidates p mobs min_hp max_hp).
  destruct (order_by_limit_top (delta observed) Qle_bool Qle_bool_total
              Qle_bool_trans limit l) as [Hperm Htop].
  exists (skipn limit (order_by (delta observed) Qle_bool l)).
  split; [exact Hperm|]. split; [|split].
  - intros m m' Hm Hm'. apply Qle_bool_iff. exact (Htop m m' Hm Hm').
  - apply order_by_limit_all.
  - reflexivity.
Qed.

Lemma add_sorted_as_distinct (x : Z) (l : list Z) :
  add_sorted x l = add_distinct Z.compare x l.
Proof. induction l as [|y l IH]; simpl; [reflexivity|]. now rewrite IH. Qed.

Lemma sorted_set_as_distinct (l : list Z) :
  sorted_set l = distinct_sorted Z.compare l.
Proof.
  unfold sorted_set, distinct_sorted.
  induction l as [|x l IH]; simpl; [reflexivity|].
  rewrite IH. apply add_sorted_as_distinct.
Qed.

Lemma Zcompare_order : total_preorder Z.compare.
Proof.
  split.
  - intros a b. apply Z.compare_antisym.
  - intros a b c. rewrite !Z.compare_le_iff. lia.
Qed.

(** [sorted(set(values))] holds the values given, each once, in increasing
    order. *)
Lemma sorted_set_spec (l : list Z) :
  StronglySorted Z.lt (sorted_set l) /\
  forall x, In x (sorted_set l) <-> In x l.
Proof.
  rewrite sorted_set_as_distinct. split.
  - exact (distinct_sorted_sorted Z.compare Zcompare_order l).
  - intros x. split; [apply distinct_sorted_In|].
    intros H.
    destruct (distinct_sorted_has Z.compare Zcompare_order x l H)
      as (y & Hy & E).
    apply Z.compare_eq in E. now subst.
Qed.

(** X8.  The analysis loop visits each observed HP value once, in
    increasing order, whatever the catalog: the report has one entry for
    each value of the list, with the matches of that value, and no
    other. *)
Theorem analysis_reports_each_observed_value_once (mobs : list mob) :
  StronglySorted Z.lt (map fst (analyze mobs)) /\
  NoDup (map fst (analyze mobs)) /\
  (forall n ms,
      In (n, ms) (analyze mobs) <->
      In n test_hp_values /\ ms = matches mobs n).
Proof.
  unfold analyze. rewrite map_map. cbn [fst]. rewrite map_id.
  destruct (sorted_set_spec test_hp_values) as [Hs Hin].
  split; [exact Hs|]. split.
  - clear Hin. induction Hs as [|x l Hl IH Hx]; constructor; [|exact IH].
    intros H. rewrite Forall_forall in Hx. specialize (Hx x H). lia.
  - intros n ms. rewrite in_map_iff. split.
    + intros (x & [= -> <-] & H). split; [now apply Hin | reflexivity].
    + intros [H ->]. exists n. split; [reflexivity | now apply Hin].
Qed.

End HpMatchMore.

(** ** The name listings: LIKE '%Foul%', DISTINCT and ORDER BY *)

Section DistinctLimit.

Context {A : Type} (cmp : A -> A -> comparison) (O : total_preorder cmp).

(** SELECT DISTINCT x ... ORDER BY x LIMIT n: a value of the input is
    listed, up to equality, or the listing is full and holds smaller
    values only. *)
Lemma distinct_limit_has (n : nat) (l : list A) (x : A) :
  In x l ->
  (exists y, In y (firstn n (distinct_sorted cmp l)) /\ cmp x y = Eq) \/
  (List.length (firstn n (distinct_sorted cmp l)) = n /\
   forall v, In v (firstn n (distinct_sorted cmp l)) -> cmp v x = Lt).
Proof.
  intros Hx.
  destruct (distinct_sorted_has cmp O x l Hx) as (y & Hy & E).
  rewrite <- (firstn_skipn n (distinct_sorted cmp l)) in Hy.
  apply in_app_or in Hy as [Hy|Hy]; [left; eauto|]. right. split.
  - apply firstn_length_le.
    destruct (Nat.le_gt_cases n (List.length (distinct_sorted cmp l)))
      as [H|H]; [exact H|].
    rewrite skipn_all2 in Hy by (apply Nat.lt_le_incl, H). contradiction.
  - intros v Hv.
    apply (cmp_lt_le_trans cmp O v y x).
    + exact (StronglySorted_firstn_skipn _ n _ v y
               (distinct_sorted_sorted cmp O l) Hv Hy).
    + rewrite (cmp_Eq_sym cmp O x y E). discriminate.
Qed.

End DistinctLimit.

Section NameListings.

Import AnalyzeHpMatches MobQueries.

Let name_lt (a b : string) : Prop := String.compare a b = Lt.

(** X10.  The distinct Foul names of Calypso (test-foul-parsing.py): the
    listing is in strictly increasing byte order, so no name occurs twice,
    and it holds exactly the names of the Calypso mobs that match the
    pattern. *)
Theorem mob_names_lists_each_foul_name_once (mobs : list mob) :
  StronglySorted name_lt (mob_names mobs) /\
  NoDup (mob_names mobs) /\
  (forall n,
      In n (mob_names mobs) <->
      exists m, In m mobs /\ name m = n /\
                is_foul n = true /\ planet m = "Calypso").
Proof.
  unfold mob_names.
  set (l := map name (filter _ mobs)).
  assert (Hl : forall n, In n l <->
                 exists m, In m mobs /\ name m = n /\
                           is_foul n = true /\ planet m = "Calypso").
  { intros n. unfold l. rewrite in_map_iff. split.
    - intros (m & <- & H). apply filter_In in H as [Hm H].
      apply andb_true_iff in H as [Hf Hp]. apply String.eqb_eq in Hp. eauto.
    - intros (m & Hm & <- & Hf & Hp). exists m. split; [reflexivity|].
      apply filter_In. split; [exact Hm|].
      rewrite Hf. now apply String.eqb_eq. }
  pose proof (distinct_sorted_sorted String.compare string_compare_order l)
    as Hs.
  split; [exact Hs|]. split.
  - exact (lt_sorted_NoDup String.compare string_compare_order _ Hs).
  - intros n. rewrite <- Hl. split; [apply distinct_sorted_In|].
    intros H.
    destruct (distinct_sorted_has String.compare string_compare_order n l H)
      as (y & Hy & E).
    apply String.compare_eq_iff in E. now subst.
Qed.

(** X11.  The first ten distinct Foul names (check-mob-names.py, over the
    mobs): at most ten names in strictly increasing order, each the name of
    a matching mob; a matching mob whose name is not listed comes after all
    ten. *)
Theorem mobs_foul_names_are_the_ten_smallest (mobs : list mob) :
  (List.length (mobs_foul_names mobs) <= 10)%nat /\
  StronglySorted name_lt (mobs_foul_names mobs) /\
  (forall n,
      In n (mobs_foul_names mobs) ->
      exists m, In m mobs /\ name m = n /\ is_foul n = true) /\
  (forall m,
      In m mobs -> is_foul (name m) = true ->
      In (name m) (mobs_foul_names mobs) \/
      (List.length (mobs_foul_names mobs) = 10%nat /\
       forall n, In n (mobs_foul_names mobs) -> name_lt n (name m))).
Proof.
  unfold mobs_foul_names.
  set (l := map name (filter _ mobs)).
  split; [|split; [|split]].
  - rewrite length_firstn. lia.
  - apply StronglySorted_firstn.
    exact (distinct_sorted_sorted String.compare string_compare_order l).
  - intros n H. apply In_firstn, distinct_sorted_In in H.
    unfold l in H. apply in_map_iff in H as (m & <- & H).
    apply filter_In in H as [Hm Hf]. eauto.
  - intros m Hm Hf.
    assert (Hin : In (name m) l).
    { unfold l. apply in_map. apply filter_In. auto. }
    destruct (distinct_limit_has String.compare string_compare_order 10 l
                (name m) Hin) as [(y & Hy & E)|H].
    + apply String.compare_eq_iff in E. rewrite E. now left.
    + now right.
Qed.

End NameListings.

Section SortedListings.

Import MobQueries.

Lemma StronglySorted_weaken {A : Type} (R R' : A -> A -> Prop) (l : list A) :
  (forall a b, R a b -> R' a b) -> StronglySorted R l -> StronglySorted R' l.
Proof.
  intros HR. induction 1 as [|a l Hl IH Ha]; constructor; trivial.
  eapply Forall_impl; [|exact Ha]. intros b. apply HR.
Qed.

Lemma compare_text_Eq (s : string) (v : sqlval) :
  Sqlite.compare (SText s) v = Eq -> v = SText s.
Proof.
  destruct v as [|n|q|t]; simpl; try discriminate.
  intros H. apply String.compare_eq_iff in H. now subst.
Qed.

(** X12.  The first ten distinct Foul names of the spawn table
    (check-mob-names.py, over nexus_spawns): at most ten values in strictly
    increasing order, each the name of a matching row; a matching row whose
    name is text is listed by its name, unless the listing is full with
    ten names that all come before it. *)
Theorem spawns_foul_names_are_the_ten_smallest
    (rt : ImportNexusSpawns.runtime) (tbl : ImportNexusSpawns.table) :
  let listed := spawns_foul_names rt tbl in
  (List.length listed <= 10)%nat /\
  StronglySorted (fun a b => Sqlite.compare a b = Lt) listed /\
  (forall v,
      In v listed ->
      exists r, In r tbl /\ ImportNexusSpawns.name r = v /\
                ImportNexusSpawns.like_contains rt v "Foul" = true) /\
  (forall r s,
      In r tbl -> ImportNexusSpawns.name r = SText s -> is_foul s = true ->
      In (SText s) listed \/
      (List.length listed = 10%nat /\
       forall v, In v listed -> Sqlite.compare v (SText s) = Lt)).
Proof.
  intros listed. unfold listed, spawns_foul_names.
  set (l := map ImportNexusSpawns.name (filter _ tbl)).
  split; [|split; [|split]].
  - rewrite length_firstn. lia.
  - apply StronglySorted_firstn.
    exact (distinct_sorted_sorted Sqlite.compare sqlite_compare_order l).
  - intros v H. apply In_firstn, distinct_sorted_In in H.
    unfold l in H. apply in_map_iff in H as (r & <- & H).
    apply filter_In in H as [Hr Hf]. eauto.
  - intros r s Hr Hname Hf.
    assert (Hin : In (SText s) l).
    { unfold l. rewrite <- Hname. apply in_map. apply filter_In.
      split; [exact Hr|]. rewrite Hname. exact Hf. }
    destruct (distinct_limit_has Sqlite.compare sqlite_compare_order 10 l
                (SText s) Hin) as [(y & Hy & E)|H].
    + apply compare_text_Eq in E. subst y. now left.
    + now right.
Qed.

(** X13.  The Foul mobs of Calypso by HP (check-foul-hp.py): the listing
    holds each matching row of the catalog once, and no other row, in
    non-decreasing order of HP. *)
Theorem foul_mobs_by_hp_is_the_sorted_selection
    (mobs : list AnalyzeHpMatches.mob) :
  let selected := fun m =>
    is_foul (AnalyzeHpMatches.name m)
    && String.eqb (AnalyzeHpMatches.planet m) "Calypso" in
  Permutation (foul_mobs_by_hp mobs) (filter selected mobs) /\
  StronglySorted
    (fun a b => (AnalyzeHpMatches.hp a <= AnalyzeHpMatches.hp b)%Q)
    (foul_mobs_by_hp mobs) /\
  (forall m,
      In m (foul_mobs_by_hp mobs) <->
      In m mobs /\ is_foul (AnalyzeHpMatches.name m) = true /\
      AnalyzeHpMatches.planet m = "Calypso").
Proof.
  intros selected. unfold foul_mobs_by_hp. fold selected.
  split; [apply order_by_Permutation|]. split.
  - apply (StronglySorted_weaken
             (fun a b => Qle_bool (AnalyzeHpMatches.hp a)
                                  (AnalyzeHpMatches.hp b) = true)).
    + intros a b. apply Qle_bool_iff.
    + apply order_by_StronglySorted;
        [apply Qle_bool_total | apply Qle_bool_trans].
  - intros m. rewrite order_by_In, filter_In. unfold selected.
    rewrite andb_true_iff, String.eqb_eq. tauto.
Qed.

(** X14.  The listing of the Foul spawns after an import
    (import-nexus-spawns.py, lines 99-116): each row of Calypso whose name
    matches the pattern once, and no other row, in non-decreasing order of
    name. *)
Theorem foul_spawns_is_the_sorted_selection
    (rt : ImportNexusSpawns.runtime) (tbl : ImportNexusSpawns.table) :
  let selected := fun r =>
    eq_text (ImportNexusSpawns.planet r) "Calypso"
    && ImportNexusSpawns.like_contains rt (ImportNexusSpawns.name r) "Foul" in
  Permutation (ImportNexusSpawns.foul_spawns rt tbl) (filter selected tbl) /\
  StronglySorted
    (fun a b => Sqlite.compare (ImportNexusSpawns.name a)
                               (ImportNexusSpawns.name b) <> Gt)
    (ImportNexusSpawns.foul_spawns rt tbl) /\
  (forall r,
      In r (ImportNexusSpawns.foul_spawns rt tbl) <->
      In r tbl /\ ImportNexusSpawns.planet r = SText "Calypso" /\
      ImportNexusSpawns.like_contains rt (ImportNexusSpawns.name r) "Foul"
      = true).
Proof.
  intros selected. unfold ImportNexusSpawns.foul_spawns. fold selected.
  split; [apply order_by_Permutation|]. split.
  - apply (StronglySorted_weaken
             (fun a b => Sqlite.leb (ImportNexusSpawns.name a)
                                    (ImportNexusSpawns.name b) = true)).
    + intros a b. unfold Sqlite.leb.
      destruct (Sqlite.compare _ _); congruence.
    + apply order_by_StronglySorted;
        [apply sqlite_leb_total | apply sqlite_leb_trans].
  - intros r. rewrite order_by_In, filter_In. unfold selected.
    rewrite andb_true_iff.
    assert (H : eq_text (ImportNexusSpawns.planet r) "Calypso" = true <->
                ImportNexusSpawns.planet r = SText "Calypso").
    { unfold eq_text. destruct (ImportNexusSpawns.planet r); split;
        try discriminate.
      - intros E. apply String.eqb_eq in E. now subst.
      - intros [= ->]. reflexivity. }
    rewrite H. tauto.
Qed.

End SortedListings.

(** ** import-nexus-spawns.py: what a run does to the table *)

Section ImportMore.

Import ImportNexusSpawns.

Lemma upsert_In (r x : row) (tbl : table) :
  In x (upsert r tbl) -> x = r \/ In x tbl.
Proof.
  induction tbl as [|y tbl IH]; simpl; [intuition congruence|].
  destruct (id r ?= id y); simpl; intuition congruence.
Qed.

Lemma upsert_keeps_ids (r : row) (tbl : table) (k : Z) :
  In k (map id tbl) -> In k (map id (upsert r tbl)).
Proof.
  induction tbl as [|y tbl IH]; simpl; [tauto|].
  destruct (Z.compare_spec (id r) (id y)) as [E|E|E]; simpl.
  - rewrite E. tauto.
  - tauto.
  - intuition.
Qed.

Lemma upsert_length (r : row) (tbl : table) :
  (List.length tbl <= List.length (upsert r tbl) <= S (List.length tbl))%nat.
Proof.
  induction tbl as [|y tbl IH]; simpl; [lia|].
  destruct (id r ?= id y); simpl; lia.
Qed.

(** One turn of the loop, when it does not raise: the element is skipped
    and the table stays as it is, or one row, stamped with the time of the
    turn, is written over the table. *)
Lemma insert_spawn_cases (rt : runtime) (now : Z) (st st' : progress)
    (spawn : json) :
  insert_spawn rt now st spawn = Ok st' ->
  (rows st' = rows st /\ inserted st' = inserted st /\
   skipped st' = skipped st + 1) \/
  (exists r, attempt rt now (rows st) spawn = Ok r /\
             rows st' = upsert r (rows st) /\
             inserted st' = inserted st + 1 /\ skipped st' = skipped st).
Proof.
  rewrite insert_spawn_attempt.
  destruct (attempt rt now (rows st) spawn) as [r|e] eqn:E.
  - intros [= <-]. right. exists r. auto.
  - destruct (get spawn "Id" JNull); cbn [Py.bind]; [|discriminate].
    intros [= <-]. left. auto.
Qed.

Lemma attempt_created_at (rt : runtime) (now : Z) (tbl : table)
    (spawn : json) (r : row) :
  attempt rt now tbl spawn = Ok r -> created_at r = now.
Proof.
  unfold attempt. destruct (extract rt spawn) as [p|e]; cbn [Py.bind];
    [|discriminate].
  apply new_row_created_at.
Qed.

Lemma import_loop_only_adds (rt : runtime) (clock : nat -> Z)
    (spawns : list json) :
  forall i st st',
    import_loop rt clock i st spawns = Ok st' ->
    (forall k, In k (map id (rows st)) -> In k (map id (rows st'))) /\
    (List.length (rows st) <= List.length (rows st'))%nat /\
    Z.of_nat (List.length (rows st')) - inserted st'
    <= Z.of_nat (List.length (rows st)) - inserted st /\
    inserted st <= inserted st' /\
    skipped st <= skipped st' /\
    (inserted st' = inserted st -> rows st' = rows st) /\
    (forall r, In r (rows st') ->
               In r (rows st) \/
               exists j, (i <= j < i + List.length spawns)%nat /\
                         created_at r = clock j).
Proof.
  induction spawns as [|spawn rest IH]; intros i st st' H.
  - injection H as <-. repeat split; auto; lia.
  - cbn [import_loop] in H.
    destruct (insert_spawn rt (clock i) st spawn) as [st1|e] eqn:E;
      cbn [Py.bind] in H; [|discriminate].
    destruct (IH _ _ _ H) as (Hk & Hl & Hc & Hi & Hs & Hz & Hr).
    apply insert_spawn_cases in E.
    destruct E as [(E1 & E2 & E3)|(r & Ea & E1 & E2 & E3)].
    + rewrite E1, E2, E3 in *. repeat split; auto; try lia.
      intros x Hx. destruct (Hr x Hx) as [?|(j & Hj & Hcj)]; [now left|].
      right. exists j. cbn [List.length]. split; [lia | exact Hcj].
    + rewrite E1, E2, E3 in *.
      pose proof (upsert_length r (rows st)) as Hu.
      repeat split; try lia.
      * intros k Hin. now apply Hk, upsert_keeps_ids.
      * intros x Hx. destruct (Hr x Hx) as [Hin|(j & Hj & Hcj)].
        -- apply upsert_In in Hin as [->|Hin]; [|now left].
           right. exists i. cbn [List.length]. split; [lia|].
           now apply (attempt_created_at rt _ _ _ _ Ea).
        -- right. exists j. cbn [List.length]. split; [lia | exact Hcj].
Qed.

(** X15.  A run only adds or replaces.  After a run that reaches its end,
    every key the table held is still there; the table has not shrunk, and
    has grown by at most the number of records counted as inserted; the
    counters are not negative; when nothing was inserted the table is the
    one the run started on; and every row of the table is a row that was
    there, untouched, or carries the time of one turn of this run. *)
Theorem sync_only_adds_or_replaces
    (rt : runtime) (clock : nat -> Z) (tbl : table) (spawns : list json)
    (st : progress) :
  sync rt clock tbl spawns = Ok st ->
  (forall k, In k (map id tbl) -> In k (map id (rows st))) /\
  (List.length tbl <= List.length (rows st))%nat /\
  Z.of_nat (List.length (rows st))
  <= Z.of_nat (List.length tbl) + inserted st /\
  0 <= inserted st /\ 0 <= skipped st /\
  (inserted st = 0 -> rows st = tbl) /\
  (forall r, In r (rows st) ->
             In r tbl \/
             exists j, (j < List.length spawns)%nat /\ created_at r = clock j).
Proof.
  unfold sync. intros H.
  destruct (import_loop_only_adds rt clock spawns _ _ _ H)
    as (Hk & Hl & Hc & Hi & Hs & Hz & Hr).
  cbn [rows inserted skipped] in *.
  repeat split; auto; try lia.
  intros r Hin. destruct (Hr r Hin) as [?|(j & Hj & Hcj)]; [now left|].
  right. exists j. split; [lia | exact Hcj].
Qed.

Lemma sync_only_adds_or_replaces_witness :
  (forall k, In k (map id [sample_row 7 "B" 5 5 50]) ->
             In k (map id [sample_row 7 "B" 5 5 50;
                           sample_row 8 "A" 100 100 100])) /\
  (List.length [sample_row 7 "B" 5 5 50]
   <= List.length [sample_row 7 "B" 5 5 50; sample_row 8 "A" 100 100 100])%nat.
Proof.
  pose proof (sync_only_adds_or_replaces
                (sample_runtime None) (fun _ => 100) [sample_row 7 "B" 5 5 50]
                [sample_spawn_without_id "A" 100 100; JObj [("Name", JNull)]]
                {| rows := [sample_row 7 "B" 5 5 50;
                            sample_row 8 "A" 100 100 100];
                   inserted := 1; skipped := 1 |} eq_refl) as H.
  split; [exact (proj1 H) | exact (proj1 (proj2 H))].
Defined.

End ImportMore.

(** ** import-nexus-spawns.py: defaults, constraints and keys *)

Section ElementMore.

Import ImportNexusSpawns.

Lemma adapt_in_range (k : Z) :
  min_int64 <= k <= max_int64 -> adapt (JInt k) = Ok (SInt k).
Proof.
  intros [H1 H2]. unfold adapt.
  apply Z.leb_le in H1, H2. now rewrite H1, H2.
Qed.

(** X16.  A record that carries nothing but its [Id] is stored, with the
    defaults of the script: the name 'Unknown Spawn', the planet 'Unknown',
    no type, shape, density, notes or coordinates, and both flags at 0. *)
Theorem record_with_only_an_id_is_stored_with_defaults
    (rt : runtime) (now : Z) (st : progress) (fields : list (string * json))
    (k : Z) :
  lookup "Id" fields = Some (JInt k) ->
  min_int64 <= k <= max_int64 ->
  lookup "Name" fields = None ->
  lookup "Planet" fields = None ->
  lookup "Properties" fields = None ->
  insert_spawn rt now st (JObj fields) =
  Ok {| rows :=
          upsert {| id := k;
                    name := SText "Unknown Spawn";
                    planet := SText "Unknown";
                    type := SNull;
                    shape := SNull;
                    center_lon := SNull;
                    center_lat := SNull;
                    density := SNull;
                    is_shared := SInt 0;
                    is_event := SInt 0;
                    notes := SNull;
                    data_json := SText (dumps rt (JObj fields));
                    created_at := now |} (rows st);
        inserted := inserted st + 1;
        skipped := skipped st |}.
Proof.
  intros Hid Hk Hname Hplanet Hprops.
  rewrite insert_spawn_dict. unfold attempt, extract.
  cbn [get Py.bind]. rewrite Hid, Hname, Hplanet, Hprops.
  cbn [lookup get Py.bind truthy]. unfold new_row.
  cbn [p_id p_name p_planet p_type p_shape p_lon p_lat p_density p_is_shared
       p_is_event p_notes p_data_json].
  rewrite (adapt_in_range k Hk). cbn [adapt].
  rewrite (dumps_encodable rt). reflexivity.
Qed.

Lemma record_with_only_an_id_is_stored_with_defaults_witness :
  insert_spawn (sample_runtime None) 100
               {| rows := []; inserted := 0; skipped := 0 |}
               (JObj [("Id", JInt 7)]) =
  Ok {| rows :=
          upsert {| id := 7;
                    name := SText "Unknown Spawn";
                    planet := SText "Unknown";
                    type := SNull;
                    shape := SNull;
                    center_lon := SNull;
                    center_lat := SNull;
                    density := SNull;
                    is_shared := SInt 0;
                    is_event := SInt 0;
                    notes := SNull;
                    data_json :=
                      SText (dumps (sample_runtime None)
                                   (JObj [("Id", JInt 7)]));
                    created_at := 100 |} [];
        inserted := 0 + 1;
        skipped := 0 |}.
Proof.
  apply (record_with_only_an_id_is_stored_with_defaults
           (sample_runtime None) 100
           {| rows := []; inserted := 0; skipped := 0 |}
           [("Id", JInt 7)] 7);
    try reflexivity.
  unfold min_int64, max_int64. lia.
Defined.

Lemma extract_name (rt : runtime) (fields : list (string * json))
    (p : params) :
  extract rt (JObj fields) = Ok p ->
  p_name p = match lookup "Name" fields with
             | Some v => v
             | None => JStr "Unknown Spawn"
             end.
Proof.
  unfold extract. cbn [get Py.bind]. intros H.
  repeat (next_bind_in H; [|discriminate]).
  injection H as <-. reflexivity.
Qed.

Lemma extract_planet (rt : runtime) (fields : list (string * json))
    (p : params) :
  extract rt (JObj fields) = Ok p ->
  get (match lookup "Planet" fields with Some v => v | None => JObj [] end)
      "Name" (JStr "Unknown") = Ok (p_planet p).
Proof.
  unfold extract. cbn [get Py.bind]. intros H.
  repeat (next_bind_in H; [|discriminate]).
  injection H as <-. reflexivity.
Qed.

Lemma extract_constants (rt : runtime) (spawn : json) (p : params) :
  extract rt spawn = Ok p ->
  (exists b : bool, p_is_shared p = JInt (if b then 1 else 0)) /\
  (exists b : bool, p_is_event p = JInt (if b then 1 else 0)) /\
  p_data_json p = JStr (dumps rt spawn).
Proof.
  unfold extract. intros H.
  repeat (next_bind_in H; [|discriminate]).
  injection H as <-. cbn. eauto.
Qed.

Lemma new_row_null_name (rt : runtime) (now : Z) (tbl : table)
    (p : params) :
  p_name p = JNull -> exists e, new_row rt now tbl p = Raise e.
Proof.
  intros H. unfold new_row. rewrite H.
  repeat (cbn [adapt not_null text_affinity is_null Py.bind];
          next_bind; [|eauto]).
  cbn [adapt not_null text_affinity is_null Py.bind]. eauto.
Qed.

Lemma new_row_null_planet (rt : runtime) (now : Z) (tbl : table)
    (p : params) :
  p_planet p = JNull -> exists e, new_row rt now tbl p = Raise e.
Proof.
  intros H. unfold new_row. rewrite H.
  repeat (cbn [adapt not_null text_affinity is_null Py.bind];
          next_bind; [|eauto]).
  cbn [adapt not_null text_affinity is_null Py.bind]. eauto.
Qed.

(** X17.  The two NOT NULL columns.  A default stands in for a key that is
    absent, not for a key that is present with the value [null]: a record
    whose [Name] is [null], or whose planet has the [Name] [null], is not
    stored; provided its [Id] can be printed, it is counted as skipped and
    the table stays as it is. *)
Theorem record_with_a_null_name_is_skipped
    (rt : runtime) (now : Z) (st : progress) (fields : list (string * json)) :
  printable_id (JObj fields) = true ->
  lookup "Name" fields = Some JNull \/
  (exists planet_fields,
      lookup "Planet" fields = Some (JObj planet_fields) /\
      lookup "Name" planet_fields = Some JNull) ->
  insert_spawn rt now st (JObj fields) =
  Ok {| rows := rows st;
        inserted := inserted st;
        skipped := skipped st + 1 |}.
Proof.
  intros _ H. rewrite insert_spawn_dict. unfold attempt.
  destruct (extract rt (JObj fields)) as [p|e] eqn:E; cbn [Py.bind];
    [|reflexivity].
  assert (Hr : exists e, new_row rt now (rows st) p = Raise e).
  { destruct H as [H|(pf & H1 & H2)].
    - apply new_row_null_name. rewrite (extract_name rt _ _ E). now rewrite H.
    - apply new_row_null_planet. apply extract_planet in E.
      rewrite H1 in E. cbn [get] in E. rewrite H2 in E. congruence. }
  destruct Hr as [e ->]. reflexivity.
Qed.

Lemma record_with_a_null_name_is_skipped_witness :
  insert_spawn (sample_runtime None) 100
               {| rows := []; inserted := 0; skipped := 0 |}
               (JObj [("Id", JInt 7); ("Name", JNull)]) =
  Ok {| rows := []; inserted := 0; skipped := 0 + 1 |}.
Proof.
  apply (record_with_a_null_name_is_skipped
           (sample_runtime None) 100
           {| rows := []; inserted := 0; skipped := 0 |}
           [("Id", JInt 7); ("Name", JNull)]).
  - reflexivity.
  - left. reflexivity.
Defined.

End ElementMore.

Section KeysAndConstraints.

Import ImportNexusSpawns.

Lemma new_row_bad_id (rt : runtime) (now : Z) (tbl : table) (p : params) :
  (forall b, adapt (p_id p) = Ok b -> exists e, rowid_of rt tbl b = Raise e) ->
  exists e, new_row rt now tbl p = Raise e.
Proof.
  intros H. unfold new_row.
  destruct (adapt (p_id p)) as [b|e] eqn:Eid; cbn [Py.bind]; [|eauto].
  destruct (H b eq_refl) as [e He].
  repeat (next_bind; [|eauto]).
  congruence.
Qed.

(** X18.  An [Id] that cannot be a rowid.  A record whose [Id] is an
    integer outside 64 bits, a list, a dict, a number with a fractional
    part, or text that can be encoded (and so printed by the handler) but
    that SQLite cannot read as an integer, is not stored: it is counted as
    skipped and the table stays as it is. *)
Theorem record_with_an_unusable_id_is_skipped
    (rt : runtime) (now : Z) (st : progress) (fields : list (string * json))
    (v : json) :
  lookup "Id" fields = Some v ->
  (exists n, v = JInt n /\ (n < min_int64 \/ max_int64 < n)) \/
  (exists items, v = JArr items) \/
  (exists members, v = JObj members) \/
  (exists q, v = JFloat q /\ ~ (q == inject_Z (Qfloor q))%Q) \/
  (exists s, v = JStr s /\ encodable s = true /\
             text_to_rowid rt s = None) ->
  insert_spawn rt now st (JObj fields) =
  Ok {| rows := rows st;
        inserted := inserted st;
        skipped := skipped st + 1 |}.
Proof.
  intros Hid Hv. rewrite insert_spawn_dict. unfold attempt.
  destruct (extract rt (JObj fields)) as [p|e] eqn:E; cbn [Py.bind];
    [|reflexivity].
  assert (Hr : exists e, new_row rt now (rows st) p = Raise e).
  { apply new_row_bad_id. rewrite (extract_id rt _ _ E), Hid.
    intros b Hb.
    destruct Hv as [(n & -> & Hn)|[(items & ->)|[(members & ->)|
                    [(q & -> & Hq)|(s & -> & Henc & Hs)]]]];
      cbn [adapt] in Hb.
    - destruct (Z.leb_spec min_int64 n), (Z.leb_spec n max_int64);
        cbn [andb] in Hb; try discriminate. lia.
    - discriminate.
    - discriminate.
    - injection Hb as <-. cbn [rowid_of].
      destruct (Qeq_bool q (inject_Z (Qfloor q))) eqn:Eq; cbn [andb]; [|eauto].
      apply Qeq_bool_iff in Eq. contradiction.
    - rewrite Henc in Hb. injection Hb as <-. cbn [rowid_of].
      rewrite Hs. eauto. }
  destruct Hr as [e ->]. reflexivity.
Qed.

Lemma record_with_an_unusable_id_is_skipped_witness :
  insert_spawn (sample_runtime None) 100
               {| rows := []; inserted := 0; skipped := 0 |}
               (JObj [("Id", JInt (2 ^ 63)); ("Name", JStr "Atrox")]) =
  Ok {| rows := []; inserted := 0; skipped := 0 + 1 |}.
Proof.
  apply (record_with_an_unusable_id_is_skipped
           (sample_runtime None) 100
           {| rows := []; inserted := 0; skipped := 0 |}
           [("Id", JInt (2 ^ 63)); ("Name", JStr "Atrox")] (JInt (2 ^ 63)));
    [reflexivity|].
  left. exists (2 ^ 63). split; [reflexivity|].
  right. unfold max_int64. lia.
Defined.

Lemma text_affinity_text_or_null (rt : runtime) (v : sqlval) :
  text_or_null (text_affinity rt v) = true.
Proof. destruct v; reflexivity. Qed.

Lemma real_affinity_not_integer (rt : runtime) (v : sqlval) :
  not_integer (real_affinity rt v) = true.
Proof.
  destruct v as [| | |s]; try reflexivity.
  simpl. destruct (text_to_real rt s); reflexivity.
Qed.

Lemma not_null_text (rt : runtime) (v c : sqlval) :
  not_null (text_affinity rt v) = Ok c -> is_text c = true.
Proof. destruct v; simpl; intros [= <-]; reflexivity. Qed.

Lemma adapt_flag (b : bool) (v : sqlval) :
  adapt (JInt (if b then 1 else 0)) = Ok v -> is_flag v = true.
Proof. destruct b; vm_compute; intros [= <-]; reflexivity. Qed.

Lemma adapt_text (s : string) (v : sqlval) :
  adapt (JStr s) = Ok v -> v = SText s.
Proof. simpl. destruct (encodable s); congruence. Qed.

(** What the [try] block stores obeys the declared types of the columns. *)
Lemma attempt_well_formed (rt : runtime) (now : Z) (tbl : table)
    (spawn : json) (r : row) :
  attempt rt now tbl spawn = Ok r -> well_formed r = true.
Proof.
  unfold attempt.
  destruct (extract rt spawn) as [p|e] eqn:E; cbn [Py.bind]; [|discriminate].
  destruct (extract_constants rt _ _ E) as ([b1 H1] & [b2 H2] & H3).
  unfold new_row. rewrite H1, H2, H3. intros H.
  repeat (next_bind_in H; [|discriminate]).
  injection H as <-. unfold well_formed.
  cbn [name planet type shape center_lon center_lat density is_shared
       is_event notes data_json].
  repeat match goal with
         | E : adapt (JInt (if _ then 1 else 0)) = Ok _ |- _ =>
             apply adapt_flag in E; rewrite E
         | E : adapt (JStr _) = Ok _ |- _ => apply adapt_text in E; subst
         | E : not_null (text_affinity rt _) = Ok _ |- _ =>
             apply not_null_text in E; rewrite E
         end.
  rewrite !text_affinity_text_or_null, !real_affinity_not_integer.
  reflexivity.
Qed.

Lemma import_loop_well_formed (rt : runtime) (clock : nat -> Z)
    (spawns : list json) :
  forall i st st',
    forallb well_formed (rows st) = true ->
    import_loop rt clock i st spawns = Ok st' ->
    forallb well_formed (rows st') = true.
Proof.
  induction spawns as [|spawn rest IH]; intros i st st' Hw H.
  - injection H as <-. exact Hw.
  - cbn [import_loop] in H.
    destruct (insert_spawn rt (clock i) st spawn) as [st1|e] eqn:E;
      cbn [Py.bind] in H; [|discriminate].
    apply (IH _ _ _) in H; [exact H|].
    apply insert_spawn_cases in E.
    destruct E as [(E1 & _)|(r & Ea & E1 & _)]; rewrite E1; [exact Hw|].
    apply forallb_forall. intros x Hx.
    apply upsert_In in Hx as [->|Hx].
    + exact (attempt_well_formed rt _ _ _ _ Ea).
    + rewrite forallb_forall in Hw. now apply Hw.
Qed.

(** X19.  The stored rows keep the declared shape of the table.  On a
    table whose rows all have a text name and planet, flags that are 0 or
    1, text or NULL in the other text columns, and no integer left in a
    coordinate, a run that reaches its end leaves a table of such rows,
    whatever the feed holds: a name is text even when it was sent as a
    number, a coordinate is never an integer, and a flag is never anything
    but 0 or 1. *)
Theorem sync_keeps_rows_well_formed
    (rt : runtime) (clock : nat -> Z) (tbl : table) (spawns : list json)
    (st : progress) :
  forallb well_formed tbl = true ->
  sync rt clock tbl spawns = Ok st ->
  forallb well_formed (rows st) = true.
Proof.
  intros Hw H. unfold sync in H.
  exact (import_loop_well_formed rt clock spawns 0%nat
           {| rows := tbl; inserted := 0; skipped := 0 |} st Hw H).
Qed.

Lemma sync_keeps_rows_well_formed_witness :
  forallb well_formed
          [sample_row 7 "B" 5 5 50; sample_row 8 "A" 100 100 100] = true.
Proof.
  apply (sync_keeps_rows_well_formed
           (sample_runtime None) (fun _ => 100) [sample_row 7 "B" 5 5 50]
           [sample_spawn_without_id "A" 100 100; JObj [("Name", JNull)]]
           {| rows := [sample_row 7 "B" 5 5 50;
                       sample_row 8 "A" 100 100 100];
              inserted := 1; skipped := 1 |});
    reflexivity.
Defined.

End KeysAndConstraints.

Section FeedAndClock.

Import ImportNexusSpawns.

(** X20.  A feed that decodes to JSON other than a list.  [null], a
    boolean or a number has no [len]: the run ends with [exit(1)] before
    the database is opened.  A dict or a string with at least one member is
    iterated by key or by character, and the first one, which has no [get],
    aborts the run with AttributeError after the table was created.  An
    empty dict or string passes for an empty feed. *)
Theorem feed_that_is_not_a_list
    (rt : runtime) (clock : nat -> Z) (raw data : string) (doc : json)
    (db : database) :
  decode_utf8 rt raw = Some data ->
  loads rt data = Some doc ->
  (doc = JNull \/ (exists b, doc = JBool b) \/ (exists n, doc = JInt n) \/
   (exists q, doc = JFloat q) ->
   main rt clock (Body raw) db = Exit1 db) /\
  ((exists member members, doc = JObj (member :: members)) \/
   (exists c s, doc = JStr (String c s)) ->
   main rt clock (Body raw) db =
   Traceback AttributeError
             (Some (match db with Some t => t | None => [] end))) /\
  (doc = JObj [] \/ doc = JStr "" \/ doc = JArr [] ->
   main rt clock (Body raw) db =
   Finished (Some (match db with Some t => t | None => [] end)) 0 0
            (nearby_spawns rt (match db with Some t => t | None => [] end))).
Proof.
  intros Hd Hl. unfold main, fetch. rewrite Hd, Hl.
  split; [|split].
  - intros [->|[[b ->]|[[n ->]|[q ->]]]]; reflexivity.
  - intros [(member & members & ->)|(c & s & ->)]; unfold sync;
      cbn [iterate map list_ascii_of_string import_loop];
      rewrite insert_spawn_not_dict by reflexivity; reflexivity.
  - intros [->|[->| ->]]; reflexivity.
Qed.

Lemma feed_that_is_not_a_list_witness :
  main (sample_runtime (Some (JObj [("error", JStr "Too many requests")])))
       (fun _ => 100) (Body "{...}") None
  = Traceback AttributeError (Some []).
Proof.
  apply (proj1 (proj2 (feed_that_is_not_a_list
                         (sample_runtime
                            (Some (JObj [("error", JStr "Too many requests")])))
                         (fun _ => 100) "{...}" "{...}"
                         (JObj [("error", JStr "Too many requests")]) None
                         eq_refl eq_refl))).
  left. eauto.
Defined.

Lemma forget_created_ids (t1 t2 : table) :
  map forget_created t1 = map forget_created t2 -> map id t1 = map id t2.
Proof.
  intros H. apply (f_equal (map id)) in H. rewrite !map_map in H. exact H.
Qed.

Lemma largest_id_ids (t1 t2 : table) :
  map id t1 = map id t2 -> largest_id t1 = largest_id t2.
Proof.
  revert t2. induction t1 as [|x t1 IH]; intros [|y t2] H; try discriminate.
  - reflexivity.
  - injection H as Hxy H. cbn [largest_id]. now rewrite (IH t2 H), Hxy.
Qed.

Lemma rowid_of_ids (rt : runtime) (t1 t2 : table) (v : sqlval) :
  map id t1 = map id t2 -> rowid_of rt t1 v = rowid_of rt t2 v.
Proof.
  intros H. destruct v; try reflexivity.
  cbn [rowid_of]. unfold new_rowid. now rewrite (largest_id_ids t1 t2 H), H.
Qed.

Lemma attempt_ids (rt : runtime) (now : Z) (t1 t2 : table) (spawn : json) :
  map id t1 = map id t2 -> attempt rt now t1 spawn = attempt rt now t2 spawn.
Proof.
  intros H. unfold attempt.
  destruct (extract rt spawn) as [p|e]; cbn [Py.bind]; [|reflexivity].
  unfold new_row.
  destruct (adapt (p_id p)) as [b|e]; cbn [Py.bind]; [|reflexivity].
  now rewrite (rowid_of_ids rt t1 t2 b H).
Qed.

Lemma largest_id_In (tbl : table) (m : Z) :
  largest_id tbl = Some m -> In m (map id tbl).
Proof.
  revert m. induction tbl as [|x tbl IH]; intros m; cbn [largest_id map];
    [discriminate|].
  destruct (largest_id tbl) as [m'|].
  - intros [= <-]. destruct (Z.max_spec (id x) m') as [[_ ->]|[_ ->]];
      [right; now apply IH | now left].
  - intros [= <-]. now left.
Qed.

(** While the largest rowid is below [max_int64] no rowid is drawn at
    random, and what is stored does not depend on the draw. *)
Lemma attempt_draw (rt : runtime) (draw : list Z -> option Z) (now : Z)
    (tbl : table) (spawn : json) :
  (forall m, largest_id tbl = Some m -> m < max_int64) ->
  attempt (with_random_rowid rt draw) now tbl spawn
  = attempt rt now tbl spawn.
Proof.
  intros Hfree. unfold attempt.
  change (extract (with_random_rowid rt draw) spawn) with (extract rt spawn).
  destruct (extract rt spawn) as [p|e]; cbn [Py.bind]; [|reflexivity].
  unfold new_row.
  destruct (adapt (p_id p)) as [b|e]; cbn [Py.bind]; [|reflexivity].
  assert (E : rowid_of (with_random_rowid rt draw) tbl b = rowid_of rt tbl b).
  { destruct b; try reflexivity. cbn [rowid_of].
    now rewrite !new_rowid_available. }
  rewrite E. reflexivity.
Qed.

(** What two runs have in common when they differ in their clocks and in
    the rowids SQLite would draw, as long as none is drawn. *)
Lemma import_loop_rerun (rt : runtime) (draw : list Z -> option Z)
    (c1 c2 : nat -> Z) (spawns : list json) :
  forall i j st1 st2 s1,
    import_loop rt c1 i st1 spawns = Ok s1 ->
    (forall k, In k (map id (rows s1)) -> k < max_int64) ->
    map forget_created (rows st2) = map forget_created (rows st1) ->
    inserted st2 = inserted st1 -> skipped st2 = skipped st1 ->
    exists s2,
      import_loop (with_random_rowid rt draw) c2 j st2 spawns = Ok s2 /\
      map forget_created (rows s2) = map forget_created (rows s1) /\
      inserted s2 = inserted s1 /\ skipped s2 = skipped s1.
Proof.
  induction spawns as [|spawn rest IH]; intros i j st1 st2 s1 H Hmax Hr Hi Hs.
  - injection H as <-. exists st2. auto.
  - assert (Hfree1 : forall m, largest_id (rows st1) = Some m ->
                               m < max_int64).
    { intros m Hm. apply Hmax.
      apply (proj1 (import_loop_only_adds rt c1 (spawn :: rest) _ _ _ H)).
      now apply largest_id_In. }
    assert (Hids : map id (rows st2) = map id (rows st1))
      by now apply forget_created_ids.
    assert (Hfree2 : forall m, largest_id (rows st2) = Some m ->
                               m < max_int64).
    { intros m Hm. apply Hfree1.
      now rewrite <- (largest_id_ids _ _ Hids). }
    cbn [import_loop] in H |- *.
    rewrite insert_spawn_attempt in H. rewrite insert_spawn_attempt.
    rewrite (attempt_draw rt draw _ _ _ Hfree2).
    rewrite (attempt_ids rt (c2 j) (rows st2) (rows st1) spawn Hids).
    rewrite (attempt_stamp rt (c1 i) (c2 j)).
    destruct (attempt rt (c1 i) (rows st1) spawn) as [r|e];
      cbn [Py.bind] in H |- *.
    + apply (IH _ _ _ _ _ H Hmax); cbn [rows inserted skipped]; [|lia|lia].
      rewrite !upsert_forget_created, forget_created_stamp. now rewrite Hr.
    + destruct (get spawn "Id" JNull); cbn [Py.bind] in H |- *;
        [|discriminate].
      apply (IH _ _ _ _ _ H Hmax); cbn [rows inserted skipped];
        [exact Hr|lia|lia].
Qed.

(** X21.  The time of a run shows in [created_at] and nowhere else.  Take
    a feed of dicts whose [Id]s can be printed, and a run over it that
    ends with every rowid below [2 ^ 63 - 1], so that SQLite had no rowid
    to draw at random.  A second run over the same feed and the same
    table, at other times and whatever rowids SQLite would have drawn,
    ends with the same counts and with a table that agrees with the first
    in every column but [created_at]. *)
Theorem run_time_shows_only_in_created_at
    (rt : runtime) (draw : list Z -> option Z) (c1 c2 : nat -> Z)
    (tbl : table) (spawns : list json) (s1 : progress) :
  forallb printable_id spawns = true ->
  sync rt c1 tbl spawns = Ok s1 ->
  (forall r, In r (rows s1) -> id r < max_int64) ->
  exists s2,
    sync (with_random_rowid rt draw) c2 tbl spawns = Ok s2 /\
    map forget_created (rows s2) = map forget_created (rows s1) /\
    inserted s2 = inserted s1 /\ skipped s2 = skipped s1.
Proof.
  intros _ H Hmax. unfold sync in *.
  apply (import_loop_rerun rt draw c1 c2 spawns _ _ _ _ s1 H);
    try reflexivity.
  intros k Hk. apply in_map_iff in Hk as (r & <- & Hr). now apply Hmax.
Qed.

Lemma run_time_shows_only_in_created_at_witness :
  exists s2,
    sync (with_random_rowid (sample_runtime None) (fun _ => Some 5))
         (fun _ => 200) [sample_row 7 "B" 5 5 50]
         [sample_spawn_without_id "A" 100 100; JObj [("Name", JNull)]]
    = Ok s2 /\
    map forget_created (rows s2)
    = map forget_created
        [sample_row 7 "B" 5 5 50; sample_row 8 "A" 100 100 100] /\
    inserted s2 = 1 /\ skipped s2 = 1.
Proof.
  apply (run_time_shows_only_in_created_at
           (sample_runtime None) (fun _ => Some 5) (fun _ => 100)
           (fun _ => 200) [sample_row 7 "B" 5 5 50]
           [sample_spawn_without_id "A" 100 100; JObj [("Name", JNull)]]
           {| rows := [sample_row 7 "B" 5 5 50;
                       sample_row 8 "A" 100 100 100];
              inserted := 1; skipped := 1 |});
    try reflexivity.
  intros r [<-|[<-|[]]]; reflexivity.
Defined.

End FeedAndClock.

Section RoundTrip.

Import ImportNexusSpawns.

Lemma adapt_optional (others : list (string * json)) (key : string) :
  (forall v, lookup key others = Some v -> exists b, adapt v = Ok b) ->
  exists b,
    adapt (match lookup key others with Some v => v | None => JNull end)
    = Ok b.
Proof.
  intros H. destruct (lookup key others) as [v|]; [now apply H|].
  exists SNull. reflexivity.
Qed.

Lemma adapt_flag_value (b : bool) :
  adapt (JInt (if b then 1 else 0)) = Ok (SInt (if b then 1 else 0)).
Proof. destruct b; reflexivity. Qed.

Lemma adapt_encodable (s : string) :
  encodable s = true -> adapt (JStr s) = Ok (SText s).
Proof. intros H. cbn [adapt]. now rewrite H. Qed.

(** One turn of the loop on a record that has it all. *)
Lemma insert_spawn_element
    (rt : runtime) (now : Z) (st : progress) (k : Z) (spawn_name p : string)
    (lon lat : Z) (others : list (string * json)) :
  min_int64 <= k <= max_int64 ->
  min_int64 <= lon <= max_int64 ->
  min_int64 <= lat <= max_int64 ->
  encodable spawn_name = true ->
  encodable p = true ->
  (forall key v,
      In key ["Type"; "Shape"; "Density"; "Notes"] ->
      lookup key others = Some v -> exists b, adapt v = Ok b) ->
  exists r,
    insert_spawn rt now st (spawn_element k spawn_name p lon lat others)
    = Ok {| rows := upsert r (rows st);
            inserted := inserted st + 1;
            skipped := skipped st |} /\
    id r = k /\ name r = SText spawn_name /\ planet r = SText p /\
    center_lon r = SReal (int_to_real lon) /\
    center_lat r = SReal (int_to_real lat) /\
    created_at r = now.
Proof.
  intros Hk Hlon Hlat Hname Hplanet Hothers.
  destruct (adapt_optional others "Type") as [b_type Htype].
  { intros v. apply Hothers. simpl. tauto. }
  destruct (adapt_optional others "Shape") as [b_shape Hshape].
  { intros v. apply Hothers. simpl. tauto. }
  destruct (adapt_optional others "Density") as [b_density Hdensity].
  { intros v. apply Hothers. simpl. tauto. }
  destruct (adapt_optional others "Notes") as [b_notes Hnotes].
  { intros v. apply Hothers. simpl. tauto. }
  unfold spawn_element. rewrite insert_spawn_dict.
  unfold attempt, extract.
  cbn [get lookup String.eqb Ascii.eqb Bool.eqb Py.bind].
  unfold new_row.
  cbn [p_id p_name p_planet p_type p_shape p_lon p_lat p_density p_is_shared
       p_is_event p_notes p_data_json].
  rewrite (adapt_in_range k Hk), (adapt_in_range lon Hlon),
    (adapt_in_range lat Hlat), Htype, Hshape, Hdensity, Hnotes,
    !adapt_flag_value, (adapt_encodable _ Hname),
    (adapt_encodable _ Hplanet), (adapt_encodable _ (dumps_encodable rt _)).
  cbn [Py.bind rowid_of text_affinity real_affinity not_null is_null].
  eexists. split; [reflexivity|]. cbn. repeat split.
Qed.

(** X22.  Insert, then look up.  A record with an [Id], a name, a planet
    and a centre, the integers within 64 bits and the two texts fit to be
    encoded, is stored: it is counted as inserted, and the row then found
    under its [Id] carries its name, its planet, the time of the insert,
    and as its centre the floats nearest to the two integers, which are
    the integers themselves up to [2 ^ 53] and no further: the longitude
    [2 ^ 53 + 1] is stored as [2 ^ 53].  The rows under the other keys are
    what they were. *)
Theorem stored_record_is_found_under_its_id
    (rt : runtime) (now : Z) (st : progress) (k : Z) (spawn_name p : string)
    (lon lat : Z) (others : list (string * json)) :
  min_int64 <= k <= max_int64 ->
  min_int64 <= lon <= max_int64 ->
  min_int64 <= lat <= max_int64 ->
  encodable spawn_name = true ->
  encodable p = true ->
  (forall key v,
      In key ["Type"; "Shape"; "Density"; "Notes"] ->
      lookup key others = Some v -> exists b, adapt v = Ok b) ->
  exists st' r,
    insert_spawn rt now st (spawn_element k spawn_name p lon lat others)
    = Ok st' /\
    inserted st' = inserted st + 1 /\ skipped st' = skipped st /\
    find_row k (rows st') = Some r /\
    id r = k /\ name r = SText spawn_name /\ planet r = SText p /\
    center_lon r = SReal (int_to_real lon) /\
    center_lat r = SReal (int_to_real lat) /\
    (Z.abs lon <= 2 ^ 53 -> center_lon r = SReal (inject_Z lon)) /\
    (Z.abs lat <= 2 ^ 53 -> center_lat r = SReal (inject_Z lat)) /\
    (lon = 2 ^ 53 + 1 -> center_lon r = SReal (inject_Z (2 ^ 53))) /\
    created_at r = now /\
    (forall k', k' <> k -> find_row k' (rows st') = find_row k' (rows st)).
Proof.
  intros Hk Hlon Hlat Hname Hplanet Hothers.
  destruct (insert_spawn_element rt now st k spawn_name p lon lat others
              Hk Hlon Hlat Hname Hplanet Hothers)
    as (r & E & Hid & Hn & Hp & Hx & Hy & Hc).
  eexists. exists r. split; [exact E|]. cbn [rows inserted skipped].
  split; [reflexivity|]. split; [reflexivity|].
  split; [rewrite find_row_upsert, Hid, Z.eqb_refl; reflexivity|].
  repeat (split; [assumption|]).
  split; [intros H; now rewrite Hx, int_to_real_small|].
  split; [intros H; now rewrite Hy, int_to_real_small|].
  split; [intros H; rewrite Hx, H; vm_compute; reflexivity|].
  split; [assumption|].
  intros k' Hk'. rewrite find_row_upsert, Hid.
  destruct (Z.eqb_spec k k'); [congruence | reflexivity].
Qed.

Lemma stored_record_is_found_under_its_id_witness :
  exists st' r,
    insert_spawn (sample_runtime None) 100
                 {| rows := []; inserted := 0; skipped := 0 |}
                 (spawn_element 7 "Foul Young" "Calypso" 79000 67500
                                [("Density", JStr "High")])
    = Ok st' /\
    inserted st' = 0 + 1 /\ skipped st' = 0 /\
    find_row 7 (rows st') = Some r /\
    id r = 7 /\ name r = SText "Foul Young" /\ planet r = SText "Calypso" /\
    center_lon r = SReal (int_to_real 79000) /\
    center_lat r = SReal (int_to_real 67500) /\
    (Z.abs 79000 <= 2 ^ 53 -> center_lon r = SReal (inject_Z 79000)) /\
    (Z.abs 67500 <= 2 ^ 53 -> center_lat r = SReal (inject_Z 67500)) /\
    (79000 = 2 ^ 53 + 1 -> center_lon r = SReal (inject_Z (2 ^ 53))) /\
    created_at r = 100 /\
    (forall k', k' <> 7 -> find_row k' (rows st') = find_row k' []).
Proof.
  apply (stored_record_is_found_under_its_id
           (sample_runtime None) 100
           {| rows := []; inserted := 0; skipped := 0 |}
           7 "Foul Young" "Calypso" 79000 67500 [("Density", JStr "High")]);
    try (unfold min_int64, max_int64; lia); try reflexivity.
  intros key v _ H. simpl in H.
  destruct (String.eqb key "Density"); [|discriminate].
  injection H as <-. exists (SText "High"). reflexivity.
Defined.

Lemma upsert_same_length (r : row) (tbl : table) :
  keyed tbl -> In (id r) (map id tbl) ->
  List.length (upsert r tbl) = List.length tbl.
Proof.
  unfold keyed. induction tbl as [|x tbl IH]; simpl; [tauto|].
  intros Hk Hin. inversion Hk as [|? ? Hs Hf]; subst.
  destruct (Z.compare_spec (id r) (id x)) as [E|E|E]; simpl.
  - reflexivity.
  - exfalso. destruct Hin as [Hin|Hin]; [lia|].
    rewrite Forall_forall in Hf. specialize (Hf _ Hin). lia.
  - f_equal. apply IH; [exact Hs|].
    destruct Hin as [Hin|Hin]; [lia | exact Hin].
Qed.

Lemma find_row_In_ids (k : Z) (tbl : table) (r : row) :
  find_row k tbl = Some r -> In k (map id tbl).
Proof.
  intros H. apply find_row_id in H as [<- H]. now apply in_map.
Qed.

(** X23.  Two records with the same [Id] in one feed, each with a name,
    a planet and a centre, the integers within 64 bits and the texts fit
    to be encoded.  Both are counted as inserted, yet they leave one row:
    the later record replaces the earlier one, and the row found under the
    [Id] carries the name and the planet of the later record, the time of
    its turn, and as its centre the floats nearest to its two integers,
    the integers themselves up to [2 ^ 53] and no further ([2 ^ 53 + 1] is
    stored as [2 ^ 53]).  The count of inserted records is a count of
    statements, not of rows. *)
Theorem later_record_with_the_same_id_wins
    (rt : runtime) (clock : nat -> Z) (tbl : table) (k : Z)
    (name1 planet1 : string) (lon1 lat1 : Z) (others1 : list (string * json))
    (name2 planet2 : string) (lon2 lat2 : Z) (others2 : list (string * json)) :
  keyed tbl ->
  min_int64 <= k <= max_int64 ->
  min_int64 <= lon1 <= max_int64 -> min_int64 <= lat1 <= max_int64 ->
  min_int64 <= lon2 <= max_int64 -> min_int64 <= lat2 <= max_int64 ->
  encodable name1 = true -> encodable planet1 = true ->
  encodable name2 = true -> encodable planet2 = true ->
  (forall key v,
      In key ["Type"; "Shape"; "Density"; "Notes"] ->
      lookup key others1 = Some v \/ lookup key others2 = Some v ->
      exists b, adapt v = Ok b) ->
  exists st r,
    sync rt clock tbl [spawn_element k name1 planet1 lon1 lat1 others1;
                       spawn_element k name2 planet2 lon2 lat2 others2]
    = Ok st /\
    inserted st = 2 /\ skipped st = 0 /\
    (List.length (rows st) <= S (List.length tbl))%nat /\
    find_row k (rows st) = Some r /\
    name r = SText name2 /\ planet r = SText planet2 /\
    center_lon r = SReal (int_to_real lon2) /\
    center_lat r = SReal (int_to_real lat2) /\
    (Z.abs lon2 <= 2 ^ 53 -> center_lon r = SReal (inject_Z lon2)) /\
    (Z.abs lat2 <= 2 ^ 53 -> center_lat r = SReal (inject_Z lat2)) /\
    (lon2 = 2 ^ 53 + 1 -> center_lon r = SReal (inject_Z (2 ^ 53))) /\
    created_at r = clock 1%nat.
Proof.
  intros Hkeyed Hk Hlon1 Hlat1 Hlon2 Hlat2 Hn1 Hp1 Hn2 Hp2 Hothers.
  destruct (insert_spawn_element rt (clock 0%nat)
              {| rows := tbl; inserted := 0; skipped := 0 |}
              k name1 planet1 lon1 lat1 others1 Hk Hlon1 Hlat1 Hn1 Hp1)
    as (r1 & E1 & Hid1 & _).
  { intros key v Hin Hv. apply (Hothers key v Hin). now left. }
  cbn [rows inserted skipped] in E1.
  destruct (insert_spawn_element rt (clock 1%nat)
              {| rows := upsert r1 tbl; inserted := 0 + 1; skipped := 0 |}
              k name2 planet2 lon2 lat2 others2 Hk Hlon2 Hlat2 Hn2 Hp2)
    as (r2 & E2 & Hid2 & Hn & Hp & Hx & Hy & Hc).
  { intros key v Hin Hv. apply (Hothers key v Hin). now right. }
  cbn [rows inserted skipped] in E2.
  eexists. exists r2. unfold sync. cbn [import_loop].
  rewrite E1. cbn [Py.bind]. rewrite E2. cbn [Py.bind].
  split; [reflexivity|]. cbn [rows inserted skipped].
  split; [reflexivity|]. split; [reflexivity|]. split.
  - rewrite upsert_same_length.
    + apply upsert_length.
    + now apply upsert_keyed.
    + rewrite Hid2, <- Hid1.
      apply (find_row_In_ids (id r1) _ r1).
      now rewrite find_row_upsert, Z.eqb_refl.
  - rewrite find_row_upsert, Hid2, Z.eqb_refl.
    split; [reflexivity|]. repeat (split; [assumption|]).
    split; [intros H; now rewrite Hx, int_to_real_small|].
    split; [intros H; now rewrite Hy, int_to_real_small|].
    split; [intros H; rewrite Hx, H; vm_compute; reflexivity|].
    assumption.
Qed.

Lemma later_record_with_the_same_id_wins_witness :
  exists st r,
    sync (sample_runtime None) (fun i => 100 + Z.of_nat i) []
         [spawn_element 7 "Foul Young" "Calypso" 79000 67500 [];
          spawn_element 7 "Foul Old" "Calypso" 79100 67600 []]
    = Ok st /\
    inserted st = 2 /\ skipped st = 0 /\
    (List.length (rows st) <= 1)%nat /\
    find_row 7 (rows st) = Some r /\
    name r = SText "Foul Old" /\ planet r = SText "Calypso" /\
    center_lon r = SReal (int_to_real 79100) /\
    center_lat r = SReal (int_to_real 67600) /\
    (Z.abs 79100 <= 2 ^ 53 -> center_lon r = SReal (inject_Z 79100)) /\
    (Z.abs 67600 <= 2 ^ 53 -> center_lat r = SReal (inject_Z 67600)) /\
    (79100 = 2 ^ 53 + 1 -> center_lon r = SReal (inject_Z (2 ^ 53))) /\
    created_at r = 101.
Proof.
  apply (later_record_with_the_same_id_wins
           (sample_runtime None) (fun i => 100 + Z.of_nat i) [] 7
           "Foul Young" "Calypso" 79000 67500 []
           "Foul Old" "Calypso" 79100 67600 []);
    try (unfold min_int64, max_int64; lia); try reflexivity.
  - constructor.
  - intros key v _ [H|H]; discriminate.
Defined.

End RoundTrip.

(** ** read-session.py: the figures of the report *)

Section EventCounts.

Import ReadSession.

Let total (groups : list (sqlval * Z)) : Z :=
  fold_right Z.add 0 (map snd groups).

Let total_of (t : string) (groups : list (sqlval * Z)) : Z :=
  fold_right (fun e acc => if eq_text (fst e) t then snd e + acc else acc)
             0 groups.

Let last_of (t : string) (groups : list (sqlval * Z)) (start : Z) : Z :=
  fold_left (fun acc e => if eq_text (fst e) t then snd e else acc)
            groups start.

Let key_lt (a b : sqlval * Z) : Prop := Sqlite.compare (fst a) (fst b) = Lt.

Lemma equal_text (v : sqlval) (t : string) :
  equal v (SText t) = eq_text v t.
Proof.
  destruct v as [|n|q|s]; try reflexivity.
  unfold equal, eq_text. cbn [is_null negb andb Sqlite.compare].
  destruct (String.eqb_spec s t) as [->|Hne].
  - now rewrite string_compare_refl.
  - destruct (String.compare s t) eqn:E; try reflexivity.
    apply String.compare_eq_iff in E. contradiction.
Qed.

Lemma eq_text_iff (v : sqlval) (t : string) :
  eq_text v t = true <-> v = SText t.
Proof.
  destruct v as [|n|q|s]; simpl; split; try discriminate.
  - intros H. apply String.eqb_eq in H. now subst.
  - intros [= ->]. apply String.eqb_refl.
Qed.

Lemma compare_Eq_text (k k' : sqlval) (t : string) :
  Sqlite.compare k k' = Eq -> eq_text k t = eq_text k' t.
Proof.
  intros E.
  destruct (eq_text k t) eqn:Ek.
  - apply eq_text_iff in Ek. subst k. apply compare_text_Eq in E. subst k'.
    symmetry. now apply eq_text_iff.
  - destruct (eq_text k' t) eqn:Ek'; [|reflexivity].
    apply eq_text_iff in Ek'. subst k'.
    apply (cmp_Eq_sym _ sqlite_compare_order) in E.
    apply compare_text_Eq in E. subst k.
    rewrite (proj2 (eq_text_iff (SText t) t) eq_refl) in Ek. discriminate.
Qed.

Lemma count_into_total (k : sqlval) (groups : list (sqlval * Z)) :
  total (count_into k groups) = total groups + 1.
Proof.
  unfold total.
  induction groups as [|[k' c] rest IH]; cbn [count_into map fold_right snd];
    [reflexivity|].
  destruct (Sqlite.compare k k'); cbn [map fold_right snd]; lia.
Qed.

Lemma count_into_total_of (t : string) (k : sqlval)
    (groups : list (sqlval * Z)) :
  total_of t (count_into k groups)
  = total_of t groups + (if eq_text k t then 1 else 0).
Proof.
  unfold total_of.
  induction groups as [|[k' c] rest IH]; cbn [count_into fold_right fst snd].
  - destruct (eq_text k t); reflexivity.
  - destruct (Sqlite.compare k k') eqn:E; cbn [fold_right fst snd].
    + rewrite (compare_Eq_text k k' t E).
      destruct (eq_text k' t); lia.
    + destruct (eq_text k t), (eq_text k' t); lia.
    + rewrite IH. destruct (eq_text k t), (eq_text k' t); lia.
Qed.

Lemma count_into_In (k : sqlval) (groups : list (sqlval * Z))
    (e : sqlval * Z) :
  In e (count_into k groups) ->
  fst e = k \/ exists e', In e' groups /\ fst e = fst e'.
Proof.
  induction groups as [|[k' c] rest IH]; simpl.
  - intros [<-|[]]. now left.
  - destruct (Sqlite.compare k k'); simpl.
    + intros [<-|H]; right; [exists (k', c) | exists e]; simpl; auto.
    + intros [<-|[<-|H]]; [now left| |]; right;
        [exists (k', c) | exists e]; simpl; auto.
    + intros [<-|H]; [right; exists (k', c); simpl; auto|].
      destruct (IH H) as [?|(e' & He' & Hf)]; [now left|].
      right. exists e'. auto.
Qed.

Lemma count_into_sorted (k : sqlval) (groups : list (sqlval * Z)) :
  StronglySorted key_lt groups -> StronglySorted key_lt (count_into k groups).
Proof.
  induction 1 as [|[k' c] rest Hrest IH Hk']; simpl.
  - repeat constructor.
  - destruct (Sqlite.compare k k') eqn:E.
    + constructor; [exact Hrest|].
      eapply Forall_impl; [|exact Hk']. intros a Ha. exact Ha.
    + constructor; [now constructor|]. constructor; [exact E|].
      eapply Forall_impl; [|exact Hk']. intros a Ha. unfold key_lt in *.
      cbn [fst] in *.
      apply (cmp_lt_le_trans _ sqlite_compare_order k k' (fst a) E).
      congruence.
    + constructor; [exact IH|]. apply Forall_forall. intros a Ha.
      unfold key_lt. cbn [fst].
      apply count_into_In in Ha as [->|(e' & He' & ->)].
      * now apply (cmp_Gt_Lt _ sqlite_compare_order).
      * rewrite Forall_forall in Hk'. exact (Hk' e' He').
Qed.

Lemma group_count_facts (t : string) (keys : list sqlval) :
  total (group_count keys) = Z.of_nat (List.length keys) /\
  total_of t (group_count keys)
  = Z.of_nat (List.length (filter (fun k => eq_text k t) keys)) /\
  StronglySorted key_lt (group_count keys).
Proof.
  unfold group_count.
  assert (H : forall g,
             StronglySorted key_lt g ->
             total (fold_left (fun groups k => count_into k groups) keys g)
             = total g + Z.of_nat (List.length keys) /\
             total_of t (fold_left (fun groups k => count_into k groups) keys g)
             = total_of t g
               + Z.of_nat (List.length (filter (fun k => eq_text k t) keys)) /\
             StronglySorted key_lt
               (fold_left (fun groups k => count_into k groups) keys g)).
  { induction keys as [|k keys IH]; intros g Hg.
    - simpl. repeat split; trivial; lia.
    - cbn [fold_left].
      destruct (IH (count_into k g) (count_into_sorted k g Hg))
        as (H1 & H2 & H3).
      rewrite H1, H2, count_into_total, count_into_total_of.
      split; [|split; [|exact H3]].
      + cbn [List.length]. lia.
      + cbn [filter]. destruct (eq_text k t); cbn [List.length]; lia. }
  destruct (H [] (SSorted_nil _)) as (H1 & H2 & H3).
  split; [|split]; trivial.
Qed.

Lemma total_Permutation (g g' : list (sqlval * Z)) :
  Permutation g g' -> total g = total g'.
Proof.
  unfold total. induction 1; cbn [map fold_right snd]; lia.
Qed.

Lemma total_of_Permutation (t : string) (g g' : list (sqlval * Z)) :
  Permutation g g' -> total_of t g = total_of t g'.
Proof.
  unfold total_of.
  induction 1 as [|e l l' _ IH|e e' l|]; cbn [fold_right];
    [reflexivity | | | congruence].
  - rewrite IH. reflexivity.
  - destruct (eq_text (fst e) t), (eq_text (fst e') t); lia.
Qed.

(** With one entry per key, the count of the last entry of a type is the
    count of that type. *)
Lemma last_of_total_of (t : string) (g : list (sqlval * Z)) :
  NoDup (map fst g) -> last_of t g 0 = total_of t g.
Proof.
  unfold last_of, total_of.
  assert (Hnone : forall (l : list (sqlval * Z)) a,
             (forall e, In e l -> eq_text (fst e) t = false) ->
             fold_left (fun acc e => if eq_text (fst e) t then snd e else acc)
                       l a = a /\
             fold_right
               (fun e acc => if eq_text (fst e) t then snd e + acc else acc)
               0 l = 0).
  { induction l as [|e l IH]; intros a H; [auto|]. simpl.
    rewrite (H e (or_introl eq_refl)). apply IH.
    intros e' He'. apply H. now right. }
  assert (H : forall (l : list (sqlval * Z)) a,
             NoDup (map fst l) ->
             fold_left (fun acc e => if eq_text (fst e) t then snd e else acc)
                       l a
             = fold_right
                 (fun e acc => if eq_text (fst e) t then snd e + acc else acc)
                 0 l \/
             (fold_left (fun acc e => if eq_text (fst e) t then snd e else acc)
                        l a = a /\
              fold_right
                (fun e acc => if eq_text (fst e) t then snd e + acc else acc)
                0 l = 0)).
  { induction l as [|e l IH]; intros a Hnd; [right; auto|].
    inversion Hnd as [|? ? Hnotin Hnd']; subst. cbn [fold_left fold_right].
    destruct (eq_text (fst e) t) eqn:E; [|now apply IH].
    left. destruct (Hnone l (snd e)) as [-> ->]; [|lia].
    intros e' He'. destruct (eq_text (fst e') t) eqn:E'; [|reflexivity].
    apply eq_text_iff in E, E'. exfalso. apply Hnotin.
    rewrite E, <- E'. now apply in_map. }
  intros Hnd. destruct (H g 0 Hnd) as [E|[E1 E2]]; congruence.
Qed.

Lemma filter_map_length {A B : Type} (f : A -> B) (p : B -> bool)
    (l : list A) :
  List.length (filter p (map f l))
  = List.length (filter (fun x => p (f x)) l).
Proof.
  induction l as [|x l IH]; [reflexivity|].
  cbn [map filter]. destruct (p (f x)); cbn [List.length]; congruence.
Qed.

Lemma prints_nil (w : world) : prints [] w = w.
Proof. destruct w. unfold prints. simpl. now rewrite app_nil_r. Qed.

Lemma count_events_loop (breakdown : list (sqlval * Z)) :
  forall (a g : Z) (w : world),
    for_each breakdown
      (fun acc row =>
         let '(total_events, gps_count) := acc in
         let '(etype, count) := row in
         seq (print "  {}: {}" [to_python etype; JInt count])
             (fun _ =>
                ret (total_events + count,
                     if eq_text etype "GPS_UPDATE" then count else gps_count)))
      (a, g) w
    = Returned (a + total breakdown, last_of "GPS_UPDATE" breakdown g)
        (prints (map (fun e => Line "  {}: {}"
                                    [to_python (fst e); JInt (snd e)])
                     breakdown) w).
Proof.
  induction breakdown as [|[k c] rest IH]; intros a g w.
  - cbn [for_each ret map]. rewrite prints_nil. unfold total, last_of. simpl.
    now rewrite Z.add_0_r.
  - cbn [for_each]. unfold seq at 1. rewrite seq_print. cbn [ret].
    rewrite IH. cbn [map fst snd]. rewrite prints_prints.
    unfold total, last_of. simpl. f_equal. f_equal. lia.
Qed.

(** X24.  The two figures under the breakdown are true counts, whatever
    the events of the session are: 'Total Events' is the number of events
    recorded for the session, 'GPS Events' the number of those of type
    GPS_UPDATE; and the loop prints one line for each group and never
    fails. *)
Theorem event_totals_are_true_counts
    (db : database) (sid : sqlval) (w : world) :
  count_events (event_breakdown db sid) w =
  Returned (Z.of_nat (List.length (events_of db sid)),
            Z.of_nat (List.length (events_of_type db sid "GPS_UPDATE")))
           (prints (map (fun e => Line "  {}: {}"
                                       [to_python (fst e); JInt (snd e)])
                        (event_breakdown db sid)) w).
Proof.
  unfold count_events. rewrite count_events_loop. f_equal.
  unfold event_breakdown.
  set (groups := group_count (map type (events_of db sid))).
  assert (Hperm : Permutation
                    (order_by snd (fun a b => b <=? a) (rev groups)) groups).
  { rewrite order_by_Permutation. symmetry. apply Permutation_rev. }
  destruct (group_count_facts "GPS_UPDATE" (map type (events_of db sid)))
    as (Ht & Hg & Hs). fold groups in Ht, Hg, Hs.
  f_equal.
  - rewrite (total_Permutation _ _ Hperm), Ht, length_map. reflexivity.
  - rewrite last_of_total_of.
    + rewrite (total_of_Permutation _ _ _ Hperm), Hg. f_equal.
      unfold events_of_type. rewrite filter_map_length.
      f_equal. apply filter_ext. intros e. now rewrite equal_text.
    + apply (Permutation_NoDup (l := map fst groups)).
      * apply Permutation_map. now symmetry.
      * apply (lt_sorted_NoDup Sqlite.compare sqlite_compare_order).
        clear -Hs. induction Hs as [|e l Hl IH He]; simpl; constructor;
          [exact IH|].
        rewrite Forall_map. exact He.
Qed.

End EventCounts.

(** ** read-session.py: which session, and how a run ends *)

Section SessionReportMore.

Import ReadSession.

(** X25.  Which sessions are shown.  The sessions listed by ORDER BY
    start_time DESC LIMIT n and the sessions cut off are together the
    sessions of the database; those listed are in non-increasing order of
    start time, and none of them started before a session that is cut off;
    nothing is cut off when the database has at most [n] sessions.  The
    report is on the first of them ([n] = 1), the later listing on three.  A
    session whose start time is NULL counts as the oldest. *)
Theorem recent_sessions_are_the_latest (db : database) (n : nat) :
  StronglySorted
    (fun a b => Sqlite.compare (start_time b) (start_time a) <> Gt)
    (recent_sessions db n) /\
  (List.length (recent_sessions db n) <= n)%nat /\
  exists older,
    Permutation (recent_sessions db n ++ older) (sessions db) /\
    (forall s s',
        In s (recent_sessions db n) -> In s' older ->
        Sqlite.compare (start_time s') (start_time s) <> Gt) /\
    ((List.length (sessions db) <= n)%nat -> older = []) /\
    (forall s s',
        In s (recent_sessions db n) -> start_time s = SNull ->
        In s' older -> start_time s' = SNull).
Proof.
  unfold recent_sessions.
  set (geb := fun a b : sqlval => Sqlite.leb b a).
  assert (Hleb : forall a b,
             Sqlite.leb a b = true <-> Sqlite.compare a b <> Gt).
  { intros a b. unfold Sqlite.leb.
    destruct (Sqlite.compare a b); split; congruence. }
  destruct (order_by_limit_top start_time geb sqlite_geb_total sqlite_geb_trans
              n (sessions db)) as [Hperm Htop].
  split; [|split].
  - apply StronglySorted_firstn.
    apply (StronglySorted_weaken
             (fun a b => geb (start_time a) (start_time b) = true)).
    + intros a b. apply Hleb.
    + apply order_by_StronglySorted;
        [apply sqlite_geb_total | apply sqlite_geb_trans].
  - rewrite length_firstn. lia.
  - exists (skipn n (order_by start_time geb (sessions db))).
    split; [exact Hperm|]. split; [|split].
    + intros s s' Hs Hs'. apply Hleb. exact (Htop s s' Hs Hs').
    + apply order_by_limit_all.
    + intros s s' Hs Hnull Hs'. pose proof (Htop s s' Hs Hs') as H.
      unfold geb, Sqlite.leb in H. rewrite Hnull in H.
      destruct (start_time s'); [reflexivity | discriminate ..].
Qed.

Let never_exits {A : Type} (c : script A) : Prop :=
  forall w w', c w <> Exited w'.

Lemma seq_never_exits {A B : Type} (c : script A) (k : A -> script B) :
  never_exits c -> (forall a, never_exits (k a)) -> never_exits (seq c k).
Proof.
  intros Hc Hk w w'. unfold seq.
  destruct (c w) as [a w1|e w1|w1] eqn:E; [apply Hk | discriminate|].
  exfalso. exact (Hc w w1 E).
Qed.

Lemma print_never_exits (text : string) (args : list json) :
  never_exits (print text args).
Proof. intros w w'. discriminate. Qed.

Lemma ret_never_exits {A : Type} (a : A) : never_exits (ret a).
Proof. intros w w'. discriminate. Qed.

Lemma execute_never_exits {A : Type} (answer : A) :
  never_exits (execute answer).
Proof. intros w w'. unfold execute. destruct (conn_open w); discriminate. Qed.

Lemma eval_never_exits {A : Type} (c : py A) : never_exits (eval c).
Proof. intros w w'. unfold eval. destruct c; discriminate. Qed.

Lemma for_each_never_exits {A S : Type} (l : list A)
    (body : S -> A -> script S) :
  (forall acc x, never_exits (body acc x)) ->
  forall acc, never_exits (for_each l body acc).
Proof.
  intros Hb. induction l as [|x l IH]; intros acc; cbn [for_each].
  - apply ret_never_exits.
  - apply seq_never_exits; [apply Hb | exact IH].
Qed.

Ltac never_exits_step :=
  first [ apply print_never_exits
        | apply ret_never_exits
        | apply execute_never_exits
        | apply eval_never_exits
        | apply seq_never_exits; [|intros ?]
        | apply for_each_never_exits; intros ? [? ?] ].

Lemma report_stats_never_exits (loads : string -> option json)
    (stats_json : json) :
  never_exits (report_stats loads stats_json).
Proof.
  unfold report_stats. destruct (truthy stats_json);
    repeat never_exits_step.
Qed.

Lemma sample_gps_never_exits (loads : string -> option json)
    (db : database) (sid : sqlval) :
  never_exits (sample_gps loads db sid).
Proof. unfold sample_gps. repeat never_exits_step. Qed.

Lemma count_events_never_exits (breakdown : list (sqlval * Z)) :
  never_exits (count_events breakdown).
Proof.
  unfold count_events. apply for_each_never_exits.
  intros [a g] [k c]. repeat never_exits_step.
Qed.

Lemma recent_sessions_nil (db : database) (n : nat) :
  sessions db = [] -> recent_sessions db n = [].
Proof. intros H. unfold recent_sessions. rewrite H. now destruct n. Qed.

Lemma recent_sessions_cons (db : database) :
  sessions db <> [] -> exists s, recent_sessions db 1 = [s].
Proof.
  intros H. unfold recent_sessions.
  pose proof (order_by_length start_time (fun a b => Sqlite.leb b a)
                (sessions db)) as Hl.
  destruct (order_by start_time (fun a b => Sqlite.leb b a) (sessions db))
    as [|s rest].
  - destruct (sessions db); [congruence | discriminate].
  - exists s. reflexivity.
Qed.

(** X26.  How a run ends.  On a database without sessions the script
    prints 'No sessions found', closes the connection and exits.  On any
    other database it cannot end well: the report either fails on its way,
    or reaches its end and the statement that follows the first
    [conn.close()] raises ProgrammingError; the run ends with an uncaught
    exception, never with an exit and never at its last line. *)
Theorem run_ends_cleanly_only_without_sessions
    (loads : string -> option json) (db : database) (w : world) :
  conn_open w = true ->
  (sessions db = [] ->
   main loads db w
   = Exited (closed (prints [Line "No sessions found" []] w))) /\
  (sessions db <> [] -> exists e w', main loads db w = Raised e w').
Proof.
  intros Hopen. split.
  - intros H. unfold main, summarize. unfold seq at 1.
    rewrite seq_execute_open by exact Hopen.
    rewrite (recent_sessions_nil db 1 H). reflexivity.
  - intros H. destruct (recent_sessions_cons db H) as [s Hs].
    unfold main. unfold seq at 1.
    destruct (summarize loads db w) as [[] w1|e w1|w1] eqn:E.
    + unfold seq at 1. cbn [close]. rewrite seq_print.
      rewrite inspect_closed by reflexivity. eauto.
    + eauto.
    + exfalso. revert E. unfold summarize.
      rewrite seq_execute_open by exact Hopen. rewrite Hs.
      assert (Hne : never_exits
                (print "Most Recent Session: {}" [to_python (name s)] ;;;
                 print "  ID: {}" [to_python (id s)] ;;;
                 print "  Loadout: {}"
                       [or_else (to_python (loadout_id s)) (JStr "NONE")] ;;;
                 print "  Duration: {}s" [to_python (duration s)] ;;;
                 report_stats loads (to_python (stats s)) ;;;
                 breakdown <~ execute (event_breakdown db (id s)) ;;
                 print "Event Breakdown:" [] ;;;
                 counts <~ count_events breakdown ;;
                 let '(total_events, gps_count) := counts in
                 print "Total Events: {}" [JInt total_events] ;;;
                 print "GPS Events: {}" [JInt gps_count] ;;;
                 (if 0 <? gps_count then sample_gps loads db (id s)
                  else ret tt))).
      { repeat first
          [ apply report_stats_never_exits
          | apply count_events_never_exits
          | apply sample_gps_never_exits
          | never_exits_step
          | match goal with
            | |- never_exits (let '(_, _) := ?x in _) => destruct x
            | |- never_exits (if ?b then _ else _) => destruct b
            end ]. }
      apply Hne.
Qed.

Lemma run_ends_cleanly_only_without_sessions_witness :
  exists e w', main (fun _ => None) sample_database connected = Raised e w'.
Proof.
  apply (proj2 (run_ends_cleanly_only_without_sessions
                  (fun _ => None) sample_database connected eq_refl)).
  discriminate.
Defined.

End SessionReportMore.

Section StatsCell.

Import ReadSession.

Lemma main_raises_with_the_report (loads : string -> option json)
    (db : database) (w w' : world) (e : exn) :
  summarize loads db w = Raised e w' -> main loads db w = Raised e w'.
Proof. intros H. unfold main. unfold seq at 1. now rewrite H. Qed.

(** X27.  A [stats] cell that does not hold a JSON object stops the run.
    The report prints its four header lines; then text that is not JSON
    raises JSONDecodeError, a number raises TypeError, and JSON that
    decodes to something other than an object raises AttributeError under
    the line 'Stats (from DB):'.  Nothing more is printed, no event is
    counted, and the connection is left open. *)
Theorem stats_that_are_no_json_object_stop_the_run
    (loads : string -> option json) (db : database) (w : world)
    (s : session) :
  conn_open w = true ->
  recent_sessions db 1 = [s] ->
  let header :=
    [Line "Most Recent Session: {}" [to_python (name s)];
     Line "  ID: {}" [to_python (id s)];
     Line "  Loadout: {}" [or_else (to_python (loadout_id s)) (JStr "NONE")];
     Line "  Duration: {}s" [to_python (duration s)]] in
  (forall text,
      stats s = SText text -> text <> "" -> loads text = None ->
      main loads db w = Raised JSONDecodeError (prints header w)) /\
  (forall n,
      stats s = SInt n -> n <> 0 ->
      main loads db w = Raised TypeError (prints header w)) /\
  (forall text v,
      stats s = SText text -> text <> "" -> loads text = Some v ->
      is_dict v = false ->
      main loads db w
      = Raised AttributeError
               (prints (header ++ [Line "Stats (from DB):" []]) w)).
Proof.
  intros Hopen Hs header.
  assert (Hsum : forall e lines,
             report_stats loads (to_python (stats s)) (prints header w)
             = Raised e (prints lines w) ->
             main loads db w = Raised e (prints lines w)).
  { intros e lines H. apply main_raises_with_the_report.
    unfold summarize. rewrite seq_execute_open by exact Hopen. rewrite Hs.
    rewrite !seq_print, !prints_prints. cbn [app].
    unfold seq at 1. fold header. now rewrite H. }
  assert (Htext : forall text, text <> "" -> truthy (JStr text) = true).
  { intros text H. cbn [truthy]. destruct (String.eqb_spec text ""); tauto. }
  split; [|split].
  - intros text Hst Hne Hl. apply Hsum. rewrite Hst. cbn [to_python].
    unfold report_stats. rewrite (Htext text Hne).
    unfold seq at 1. unfold eval, loads_cell. now rewrite Hl.
  - intros n Hst Hn. apply Hsum. rewrite Hst. cbn [to_python].
    unfold report_stats. cbn [truthy].
    destruct (Z.eqb_spec n 0); [contradiction|]. reflexivity.
  - intros text v Hst Hne Hl Hv. apply Hsum. rewrite Hst. cbn [to_python].
    unfold report_stats. rewrite (Htext text Hne).
    unfold seq at 1. unfold eval at 1, loads_cell. rewrite Hl.
    rewrite seq_print, prints_prints. unfold seq at 1.
    destruct v; try discriminate; reflexivity.
Qed.

Lemma stats_that_are_no_json_object_stop_the_run_witness :
  main (fun _ => None)
       {| sessions := [{| id := SText "s-2";
                          name := SText "Morning hunt";
                          loadout_id := SNull;
                          duration := SInt 60;
                          stats := SText "{kills: 3";
                          start_time := SInt 1700000000 |}];
          events := [];
          loadouts := [];
          sessions_table_info := [];
          events_table_info := [] |}
       connected
  = Raised JSONDecodeError
      (prints [Line "Most Recent Session: {}" [JStr "Morning hunt"];
               Line "  ID: {}" [JStr "s-2"];
               Line "  Loadout: {}" [JStr "NONE"];
               Line "  Duration: {}s" [JInt 60]] connected).
Proof.
  apply (proj1 (stats_that_are_no_json_object_stop_the_run
                  (fun _ => None)
                  {| sessions := [{| id := SText "s-2";
                                     name := SText "Morning hunt";
                                     loadout_id := SNull;
                                     duration := SInt 60;
                                     stats := SText "{kills: 3";
                                     start_time := SInt 1700000000 |}];
                     events := [];
                     loadouts := [];
                     sessions_table_info := [];
                     events_table_info := [] |}
                  connected
                  {| id := SText "s-2";
                     name := SText "Morning hunt";
                     loadout_id := SNull;
                     duration := SInt 60;
                     stats := SText "{kills: 3";
                     start_time := SInt 1700000000 |}
                  eq_refl eq_refl) "{kills: 3");
    [reflexivity | discriminate | reflexivity].
Defined.

End StatsCell.
